(** * music-symbol-detector: a shallow embedding and its properties

    The repository drives an external optical music recogniser (Audiveris),
    parses the recogniser's XML output into symbol records and draws labelled
    rectangles on a copy of the input image.  This development embeds the two
    detector scripts ([music_symbol_detector.py], module [V1], and
    [music_symbol_detector_v2.py], module [V2]) and [upscale_and_process.py]
    as Rocq functions over an explicit world (file system, environment,
    console) and states the properties of the specification about them.

    Conventions.
    - A Python [dict] is a [gmap string PyVal]; a symbol record is such a dict.
    - A function that may raise returns an [Outcome]; the mutable state it
      works on (its local [symbols] list, the world) is threaded explicitly and
      survives a raised exception, as a mutated Python list does.
    - What the scripts delegate to a library or to the operating system and
      cannot be read off their source (the builtins [int] and [float] on
      strings, [subprocess.run], whether [Image.save] succeeds) is a field
      of the class [Platform]; every theorem holds for every platform.

    Limits of the model.
    - Strings are strings of bytes; [str.lower] and [str.strip] act on ASCII.
    - The file system maps a path as it is written to what lies there; two
      spellings of one file (a relative and an absolute path, a symbolic link)
      are two keys.
    - An XML file is given by the element tree it parses to, an archive by its
      members, an image by its size and a description of its pixels.
    - ElementPath qualifies an unprefixed tag with the default namespace of
      the [namespaces] argument, as it does since Python 3.8.
    - A call on an [ImageDraw] object is recorded as issued.  The check the
      graphics library makes on the corners of a rectangle is modelled for
      boxes of integers; what it paints is not.
    - The lines of a traceback that name source files and line numbers are
      taken from the platform. *)

From Stdlib Require Import ZArith String Ascii List Bool Lia Sorted.
From Stdlib Require Import Floats.PrimFloat.
From stdpp Require Import base option list strings gmap pretty.

Local Open Scope string_scope.
Local Open Scope list_scope.
Local Open Scope Z_scope.
Local Set Warnings "-register-all,-notation-for-abbreviation".

(** ** Strings *)

Module Str.

(** [needle in hay] on Python strings. *)
Fixpoint contains (needle hay : string) : bool :=
  String.prefix needle hay ||
  match hay with
  | EmptyString => false
  | String _ rest => contains needle rest
  end.

Definition lower_ascii (c : ascii) : ascii :=
  let n := nat_of_ascii c in
  if (Nat.leb 65 n && Nat.leb n 90)%bool then ascii_of_nat (n + 32) else c.

(** [str.lower()], on the ASCII letters. *)
Fixpoint lower (s : string) : string :=
  match s with
  | EmptyString => EmptyString
  | String c rest => String (lower_ascii c) (lower rest)
  end.

Definition endswith (s suffix : string) : bool :=
  let n := String.length s in
  let k := String.length suffix in
  (Nat.leb k n && String.eqb (String.substring (n - k) k s) suffix)%bool.

(** [s.rfind(c)]: the index of the last occurrence of [c], if any. *)
Fixpoint rfind (c : ascii) (s : string) : option nat :=
  match s with
  | EmptyString => None
  | String a rest =>
      match rfind c rest with
      | Some i => Some (S i)
      | None => if Ascii.eqb a c then Some 0%nat else None
      end
  end.

Definition join (sep : string) (parts : list string) : string :=
  String.concat sep parts.

(** The pieces of [s] between occurrences of [sep]. *)
Fixpoint split_on (sep : ascii) (s : string) : list string :=
  match s with
  | EmptyString => [EmptyString]
  | String a rest =>
      if Ascii.eqb a sep then EmptyString :: split_on sep rest
      else match split_on sep rest with
           | [] => [String a EmptyString]
           | p :: ps => String a p :: ps
           end
  end.

(** ASCII white space, as [str.strip()] removes it. *)
Definition is_space (c : ascii) : bool :=
  let n := nat_of_ascii c in
  (Nat.eqb n 32 || (Nat.leb 9 n && Nat.leb n 13)
   || (Nat.leb 28 n && Nat.leb n 31))%bool.

Fixpoint lstrip_by (drop : ascii -> bool) (s : string) : string :=
  match s with
  | EmptyString => EmptyString
  | String c rest => if drop c then lstrip_by drop rest else s
  end.

Fixpoint rstrip_by (drop : ascii -> bool) (s : string) : string :=
  match s with
  | EmptyString => EmptyString
  | String c rest =>
      match rstrip_by drop rest with
      | EmptyString => if drop c then EmptyString else String c EmptyString
      | kept => String c kept
      end
  end.

(** [s.strip()]. *)
Definition strip (s : string) : string :=
  rstrip_by is_space (lstrip_by is_space s).

(** [s.replace(old, new)]: every occurrence of [old], found from the left
    and not overlapping an earlier one, becomes [new]; [skip] counts the
    characters of the current occurrence still to pass over.  With an empty
    [old], [new] is put before every character and at the end. *)
Fixpoint replace_from (old new : string) (skip : nat) (s : string) : string :=
  match s with
  | EmptyString =>
      match skip, old with
      | O, EmptyString => new
      | _, _ => EmptyString
      end
  | String c rest =>
      match skip with
      | S k => replace_from old new k rest
      | O =>
          match old with
          | EmptyString => new +:+ String c (replace_from old new 0 rest)
          | String _ old' =>
              if String.prefix old s then
                new +:+ replace_from old new (String.length old') rest
              else String c (replace_from old new 0 rest)
          end
      end
  end.

Definition replace (old new s : string) : string := replace_from old new 0 s.

End Str.

(** ** Python values, exceptions, outcomes *)

Inductive ExnClass :=
| FileNotFoundError | FileExistsError | IsADirectoryError | NotADirectoryError
| OSError
| RuntimeError | ValueError | TypeError | KeyError | IndexError
| AttributeError | ParseError | BadZipFile | TimeoutExpired
| UnidentifiedImageError.

#[global] Instance ExnClass_eq_dec : EqDecision ExnClass.
Proof. solve_decision. Defined.

(** An exception object: its class and [str(e)].  Every class above derives
    from [Exception], so [except Exception] and a bare [except] catch all. *)
Record Exn := mkExn { exn_class : ExnClass; exn_msg : string }.

(** The name of the class as a traceback prints it. *)
Definition class_name (c : ExnClass) : string :=
  match c with
  | FileNotFoundError => "FileNotFoundError"
  | FileExistsError => "FileExistsError"
  | IsADirectoryError => "IsADirectoryError"
  | NotADirectoryError => "NotADirectoryError"
  | OSError => "OSError"
  | RuntimeError => "RuntimeError"
  | ValueError => "ValueError"
  | TypeError => "TypeError"
  | KeyError => "KeyError"
  | IndexError => "IndexError"
  | AttributeError => "AttributeError"
  | ParseError => "xml.etree.ElementTree.ParseError"
  | BadZipFile => "zipfile.BadZipFile"
  | TimeoutExpired => "subprocess.TimeoutExpired"
  | UnidentifiedImageError => "PIL.UnidentifiedImageError"
  end.

(** The last line of a traceback: the class, and [str(e)] when it is not
    empty. *)
Definition exception_line (e : Exn) : string :=
  if String.eqb (exn_msg e) "" then class_name (exn_class e)
  else class_name (exn_class e) +:+ ": " +:+ exn_msg e.

Inductive Outcome (A : Type) :=
| Return (a : A)
| Raise (e : Exn).
Arguments Return {A} a.
Arguments Raise {A} e.

(** ** ElementTree *)

(** An [xml.etree.ElementTree.Element]: the tag (with its [{uri}] prefix when
    the element is in a namespace), the attribute dict, [.text] ([None] when
    the element has no text) and the child elements in document order. *)
Inductive Element := Elem {
  tag : string;
  attrib : gmap string string;
  text : option string;
  children : list Element
}.

Inductive PyVal :=
| VNone
| VBool (b : bool)
| VInt (z : Z)
| VStr (s : string)
| VTuple (items : list PyVal)
| VElem (e : Element).

(** A symbol record is a Python dict with string keys. *)
Notation Dict := (gmap string PyVal).

(** Python truthiness ([if v:] / [not v]). *)
Definition truthy (v : PyVal) : bool :=
  match v with
  | VNone => false
  | VBool b => b
  | VInt z => negb (z =? 0)
  | VStr s => negb (String.eqb s "")
  | VTuple items => match items with [] => false | _ => true end
  | VElem e => match children e with [] => false | _ => true end
  end.

Module ET.

(** [elem.iter()]: the element and all its descendants, in document order. *)
Fixpoint iter (e : Element) : list Element :=
  match e with
  | Elem _ _ _ cs =>
      e :: (fix over (l : list Element) : list Element :=
              match l with
              | [] => []
              | c :: l' => iter c ++ over l'
              end) cs
  end.

Definition has_tag (t : string) (e : Element) : bool := String.eqb (tag e) t.

(** The path [.//t]: proper descendants with tag [t], in document order. *)
Definition descendants (t : string) (e : Element) : list Element :=
  List.filter (has_tag t) (List.flat_map iter (children e)).

(** The path [t]: children with tag [t]. *)
Definition children_tagged (t : string) (e : Element) : list Element :=
  List.filter (has_tag t) (children e).

(** [elem.find(t)]: the first child with tag [t], or [None]. *)
Definition find (t : string) (e : Element) : option Element :=
  head (children_tagged t e).

(** [elem.find('.//a/b')]. *)
Definition find_desc_child (a b : string) (e : Element) : option Element :=
  head (List.flat_map (children_tagged b) (descendants a e)).

(** A tag name looked up with [namespaces = {'': uri}]: ElementPath qualifies
    an unprefixed name with the default namespace. *)
Definition qualified (uri t : string) : string := "{" +:+ uri +:+ "}" +:+ t.

(** [elem.get(key, default)] with a string default. *)
Definition get (key dflt : string) (e : Element) : string :=
  default dflt (attrib e !! key).

End ET.

(** ** Paths *)

(** A [pathlib.Path] is its list of components; an absolute path starts with
    the component ["/"], or ["//"] when the string starts with exactly two
    slashes, and [Path('.')] is the empty list. *)
Notation Path := (list string).

Module PurePath.

Definition components (s : string) : Path :=
  List.filter (fun c => negb (String.eqb c "" || String.eqb c "."))
              (Str.split_on "/" s).

(** The root a path string starts with: two leading slashes are kept, one
    slash or three and more are the root ["/"]. *)
Definition root_of (s : string) : option string :=
  if (String.prefix "//" s && negb (String.prefix "///" s))%bool then Some "//"
  else if String.prefix "/" s then Some "/"
  else None.

(** [Path(s)]. *)
Definition of_string (s : string) : Path :=
  match root_of s with
  | Some root => root :: components s
  | None => components s
  end.

(** A first component that is a root. *)
Definition is_root_name (c : string) : bool :=
  (String.eqb c "/" || String.eqb c "//")%bool.

(** [str(p)]. *)
Definition str (p : Path) : string :=
  match p with
  | [] => "."
  | c :: rest =>
      if is_root_name c then c +:+ Str.join "/" rest else Str.join "/" p
  end.

(** The path is a root directory. *)
Definition is_root (p : Path) : bool :=
  match p with
  | [c] => is_root_name c
  | _ => false
  end.

(** [p.name]: the last component, the empty string for the root. *)
Definition name (p : Path) : string :=
  if is_root p then "" else List.last p "".

(** [p.parent]: the path without its last component; the root is its own
    parent. *)
Definition parent (p : Path) : Path :=
  if is_root p then p else List.removelast p.

(** The index at which [.suffix] starts: the last dot of the name, unless it
    is the first or the last character. *)
Definition suffix_start (n : string) : option nat :=
  match Str.rfind "." n with
  | Some i =>
      if (Nat.ltb 0 i && Nat.ltb i (String.length n - 1))%bool then Some i
      else None
  | None => None
  end.

Definition suffix (p : Path) : string :=
  let n := name p in
  match suffix_start n with
  | Some i => String.substring i (String.length n - i) n
  | None => ""
  end.

Definition stem (p : Path) : string :=
  let n := name p in
  match suffix_start n with
  | Some i => String.substring 0 i n
  | None => n
  end.

(** [p / s]. *)
Definition joinpath (p : Path) (s : string) : Path :=
  if String.prefix "/" s then of_string s else p ++ components s.

End PurePath.

Notation "p </> s" := (PurePath.joinpath p s) (at level 40, left associativity).

(** A path argument as a caller writes it: a [Path] object or a string. *)
Inductive PathArg :=
| AsPath (p : Path)
| AsStr (s : string).

(** [Path(a)]: the path the argument names. *)
Definition path_of (a : PathArg) : Path :=
  match a with
  | AsPath p => p
  | AsStr s => PurePath.of_string s
  end.

(** [str(a)], as an f-string shows the argument. *)
Definition shown (a : PathArg) : string :=
  match a with
  | AsPath p => PurePath.str p
  | AsStr s => s
  end.

(** ** Images, files, the world *)

Inductive Font :=
| TrueType (file : string) (size : Z)
| DefaultFont.

(** The box given to [ImageDraw.rectangle]: a Python value, or the result of
    [ImageDraw.textbbox(xy, label, font=font)]. *)
Inductive Box :=
| BoxOf (v : PyVal)
| TextBBox (x y : PyVal) (label : string) (font : Font).

(** A call made on an [ImageDraw] object.  The model records the call; what
    the graphics library paints for it is the library's business. *)
Inductive DrawCmd :=
| DrawRectangle (box : Box) (outline fill : option string) (width : Z)
| DrawText (x y : PyVal) (label : string) (fill : string) (font : Font).

Inductive Pixels :=
| Source (id : string)
| Drawn (under : Pixels) (c : DrawCmd)
| Resampled (src : Pixels) (w h : Z) (filter : string).

Record Image := mkImage { width : Z; height : Z; pixels : Pixels }.

Inductive ZipMember :=
| ZDir
| ZXml (root : Element)
| ZOther.

Inductive FileData :=
| XmlDoc (root : Element)
| ImageData (img : Image) (dpi : option (Z * Z))
| ZipData (members : list (Path * ZipMember)) (damage : option Exn)
| FontData
| OtherData (bytes : string).

Inductive Node :=
| Dir
| File (d : FileData).

Notation FS := (gmap Path Node).

(** The world: the file system, [os.environ], what was written to the
    standard output and to the standard error stream (oldest line first), and
    the commands handed to [subprocess.run] so far. *)
Record World := mkWorld {
  fs : FS;
  environ : gmap string string;
  console : list string;
  errors : list string;
  spawned : list (list string)
}.

Definition with_fs (f : FS) (w : World) : World :=
  mkWorld f (environ w) (console w) (errors w) (spawned w).

Definition with_console (lines : list string) (w : World) : World :=
  mkWorld (fs w) (environ w) lines (errors w) (spawned w).

Definition with_errors (lines : list string) (w : World) : World :=
  mkWorld (fs w) (environ w) (console w) lines (spawned w).

Definition with_spawned (cmds : list (list string)) (w : World) : World :=
  mkWorld (fs w) (environ w) (console w) (errors w) cmds.

(** What [subprocess.run] did: the child ran to completion, ran into the
    timeout, or could not be started. *)
Inductive ProcOutcome :=
| Completed (returncode : Z) (out err : string) (fs' : FS)
| Expired (fs' : FS)
| NotStarted (e : Exn).

Class Platform := {
  (** [int(s)] on a string: [None] is [ValueError]. *)
  py_int : string -> option Z;
  (** [float(s)] on a string: [None] is [ValueError]. *)
  py_float : string -> option float;
  (** [subprocess.run(cmd, env=env, timeout=timeout)] on a file system. *)
  subprocess_run :
    list string -> gmap string string -> option Z -> FS -> ProcOutcome;
  (** The exception [Image.save(path)] raises, if any. *)
  save_error : Path -> FS -> option Exn;
  (** The home directory of the password database, used by
      [os.path.expanduser] when [HOME] is not set. *)
  pw_home : option string;
  (** The lines [traceback] prints for the stack of an exception that is
      being handled: they name the files of the program and their lines. *)
  stack_lines : Exn -> list string
}.

(** ** The monad of a function body *)

(** The state of a running function: its local list [symbols] and the
    world.  Both survive a raised exception. *)
Record Frame := mkFrame { symbols : list Dict; world : World }.

Definition M (A : Type) : Type := Frame -> Frame * Outcome A.

Definition ret {A} (a : A) : M A := fun fr => (fr, Return a).

Definition bind {A B} (m : M A) (k : A -> M B) : M B :=
  fun fr =>
    match m fr with
    | (fr', Return a) => k a fr'
    | (fr', Raise e) => (fr', Raise e)
    end.

Definition raise {A} (c : ExnClass) (msg : string) : M A :=
  fun fr => (fr, Raise (mkExn c msg)).

Definition lift {A} (o : Outcome A) : M A := fun fr => (fr, o).

(** [try: body / except Exception as e: handler e]. *)
Definition try_except {A} (body : M A) (handler : Exn -> M A) : M A :=
  fun fr =>
    match body fr with
    | (fr', Return a) => (fr', Return a)
    | (fr', Raise e) => handler e fr'
    end.

(** [try: body / except C: handler]: only class [C] is caught. *)
Definition try_except_class {A} (c : ExnClass) (body : M A) (handler : M A) : M A :=
  fun fr =>
    match body fr with
    | (fr', Return a) => (fr', Return a)
    | (fr', Raise e) =>
        match e with
        | mkExn c' _ =>
            if decide (c' = c) then handler fr' else (fr', Raise e)
        end
    end.

Declare Scope py_scope.
Delimit Scope py_scope with py.
Notation "x <- m ;; k" := (bind m (fun x => k))
  (at level 100, m at next level, right associativity) : py_scope.
Notation "m ;; k" := (bind m (fun _ => k))
  (at level 100, right associativity) : py_scope.
Local Open Scope py_scope.

Definition get_symbols : M (list Dict) := fun fr => (fr, Return (symbols fr)).

Definition set_symbols (l : list Dict) : M unit :=
  fun fr => (mkFrame l (world fr), Return tt).

(** [symbols.append(d)]. *)
Definition append (d : Dict) : M unit :=
  fun fr => (mkFrame (symbols fr ++ [d]) (world fr), Return tt).

(** [symbols.extend(l)]. *)
Definition extend (l : list Dict) : M unit :=
  fun fr => (mkFrame (symbols fr ++ l) (world fr), Return tt).

Definition get_world : M World := fun fr => (fr, Return (world fr)).

Definition set_fs (f : FS) : M unit :=
  fun fr => (mkFrame (symbols fr) (with_fs f (world fr)), Return tt).

(** [print(line)]. *)
Definition print (line : string) : M unit :=
  fun fr =>
    let w := world fr in
    (mkFrame (symbols fr) (with_console (console w ++ [line]) w), Return tt).

(** [print(line, file=sys.stderr)]. *)
Definition eprint (line : string) : M unit :=
  fun fr =>
    let w := world fr in
    (mkFrame (symbols fr) (with_errors (errors w ++ [line]) w), Return tt).

(** A command is handed to [subprocess.run]. *)
Definition spawn (cmd : list string) : M unit :=
  fun fr =>
    let w := world fr in
    (mkFrame (symbols fr) (with_spawned (spawned w ++ [cmd]) w), Return tt).

(** [for x in l: body x]. *)
Fixpoint for_each {A} (l : list A) (body : A -> M unit) : M unit :=
  match l with
  | [] => ret tt
  | x :: l' => body x ;; for_each l' body
  end.

(** A call: the callee runs on the caller's world with locals of its own. *)
Definition call {A} (callee : M A) : M A :=
  fun fr =>
    match callee (mkFrame [] (world fr)) with
    | (fr', r) => (mkFrame (symbols fr) (world fr'), r)
    end.

(** A top-level call on a world. *)
Definition run {A} (m : M A) (w : World) : World * Outcome A :=
  match m (mkFrame [] w) with
  | (fr, r) => (world fr, r)
  end.

(** ** Operating system and library calls *)

Section Calls.
Context `{Platform}.

(** The lines [traceback.print_exc()] writes while [e] is handled: the
    header, the stack and the exception. *)
Definition traceback_lines (e : Exn) : list string :=
  "Traceback (most recent call last):" :: stack_lines e ++ [exception_line e].

(** [traceback.print_exc()] while [e] is handled. *)
Definition print_exc (e : Exn) : M unit :=
  fun fr =>
    let w := world fr in
    (mkFrame (symbols fr) (with_errors (errors w ++ traceback_lines e) w),
     Return tt).

(** [Path.exists()]. *)
Definition path_exists (p : Path) : M bool :=
  w <- get_world ;;
  ret (match fs w !! p with Some _ => true | None => false end).

(** [Path.mkdir(exist_ok=True)], for a directory whose parent exists. *)
Definition mkdir_exist_ok (p : Path) : M unit :=
  w <- get_world ;;
  match fs w !! p with
  | Some Dir => ret tt
  | Some (File _) =>
      raise FileExistsError ("File exists: '" +:+ PurePath.str p +:+ "'")
  | None => set_fs (<[p := Dir]> (fs w))
  end.

(** [subprocess.run(cmd, capture_output=True, text=True, ...)]: the return
    code, the captured output and the captured error stream. *)
Definition run_process (cmd : list string) (env : gmap string string)
    (timeout : option Z) : M (Z * string * string) :=
  w <- get_world ;;
  spawn cmd ;;
  match subprocess_run cmd env timeout (fs w) with
  | Completed rc out err fs' => set_fs fs' ;; ret (rc, out, err)
  | Expired fs' =>
      set_fs fs' ;;
      raise TimeoutExpired ("Command '" +:+ Str.join " " cmd +:+ "' timed out")
  | NotStarted e => lift (Raise e)
  end.

(** [ET.parse(p).getroot()]. *)
Definition ET_parse (p : Path) : M Element :=
  w <- get_world ;;
  match fs w !! p with
  | None =>
      raise FileNotFoundError
        ("No such file or directory: '" +:+ PurePath.str p +:+ "'")
  | Some Dir =>
      raise IsADirectoryError ("Is a directory: '" +:+ PurePath.str p +:+ "'")
  | Some (File (XmlDoc root)) => ret root
  | Some (File _) => raise ParseError "syntax error: line 1, column 0"
  end.

(** [int(elem.get(key, dflt))] for an integer default [dflt]. *)
Definition int_attr (e : Element) (key : string) (dflt : Z) : M Z :=
  match attrib e !! key with
  | None => ret dflt
  | Some s =>
      match py_int s with
      | Some z => ret z
      | None =>
          raise ValueError
            ("invalid literal for int() with base 10: '" +:+ s +:+ "'")
      end
  end.

(** [float(elem.text)]. *)
Definition float_text (e : Element) : M float :=
  match text e with
  | None =>
      raise TypeError
        "float() argument must be a string or a real number, not 'NoneType'"
  | Some s =>
      match py_float s with
      | Some v => ret v
      | None =>
          raise ValueError ("could not convert string to float: '" +:+ s +:+ "'")
      end
  end.

(** [elem.text.lower()]. *)
Definition lower_text (e : Element) : M string :=
  match text e with
  | None => raise AttributeError "'NoneType' object has no attribute 'lower'"
  | Some s => ret (Str.lower s)
  end.

(** [Image.open(p)]. *)
Definition Image_open (p : Path) : M Image :=
  w <- get_world ;;
  match fs w !! p with
  | None =>
      raise FileNotFoundError
        ("No such file or directory: '" +:+ PurePath.str p +:+ "'")
  | Some Dir =>
      raise IsADirectoryError ("Is a directory: '" +:+ PurePath.str p +:+ "'")
  | Some (File (ImageData img _)) => ret img
  | Some (File _) =>
      raise UnidentifiedImageError
        ("cannot identify image file '" +:+ PurePath.str p +:+ "'")
  end.

(** [img.save(p)] and [img.save(p, dpi=...)]. *)
Definition Image_save (img : Image) (p : Path) (dpi : option (Z * Z)) : M unit :=
  w <- get_world ;;
  match save_error p (fs w) with
  | Some e => lift (Raise e)
  | None => set_fs (<[p := File (ImageData img dpi)]> (fs w))
  end.

Definition node_of_member (m : ZipMember) : Node :=
  match m with
  | ZDir => Dir
  | ZXml root => File (XmlDoc root)
  | ZOther => File (OtherData "")
  end.

Fixpoint proper_prefixes (p : Path) : list Path :=
  match p with
  | [] => []
  | c :: rest =>
      match rest with
      | [] => []
      | _ => [c] :: List.map (cons c) (proper_prefixes rest)
      end
  end.

(** The name of a member as [extractall] uses it: empty components, [.] and
    [..] are dropped, so that nothing is unpacked outside the directory. *)
Definition sanitized (name : Path) : Path :=
  List.filter
    (fun c => negb (String.eqb c "" || String.eqb c "." || String.eqb c "..")%bool)
    name.

(** What is at a path below the directory unpacked into; the empty path is
    the directory itself. *)
Definition node_at (tree : FS) (p : Path) : option Node :=
  match p with
  | [] => Some Dir
  | _ => tree !! p
  end.

(** [os.makedirs] on the upper directories of a member: a missing directory
    is made, a file in the way is an error. *)
Definition make_dir (tree : Outcome FS) (d : Path) : Outcome FS :=
  match tree with
  | Raise e => Raise e
  | Return tree =>
      match tree !! d with
      | None => Return (<[d := Dir]> tree)
      | Some Dir => Return tree
      | Some (File _) =>
          Raise (mkExn NotADirectoryError
                   ("Not a directory: '" +:+ PurePath.str d +:+ "'"))
      end
  end.

(** One member is unpacked: its directories are made, then the directory is
    made or the file written.  A directory where the file goes, and a file
    where the directory goes, are errors. *)
Definition extract_member (tree : Outcome FS) (member : Path * ZipMember)
    : Outcome FS :=
  let target := sanitized (fst member) in
  match List.fold_left make_dir (proper_prefixes target) tree with
  | Raise e => Raise e
  | Return tree =>
      match snd member, node_at tree target with
      | ZDir, Some Dir => Return tree
      | ZDir, Some (File _) =>
          Raise (mkExn FileExistsError
                   ("File exists: '" +:+ PurePath.str target +:+ "'"))
      | ZDir, None => Return (<[target := Dir]> tree)
      | _, Some Dir =>
          Raise (mkExn IsADirectoryError
                   ("Is a directory: '" +:+ PurePath.str target +:+ "'"))
      | m, _ => Return (<[target := node_of_member m]> tree)
      end
  end.

(** The content of a directory after [extractall] into it, by path relative
    to the directory; the first member that cannot be unpacked ends it with
    its error. *)
Definition extractall (members : list (Path * ZipMember)) : Outcome FS :=
  List.fold_left extract_member members (Return ∅).

(** [zipfile.ZipFile(p, 'r')] followed by [extractall]: the members. *)
Definition ZipFile_read (p : Path) : M (list (Path * ZipMember)) :=
  w <- get_world ;;
  match fs w !! p with
  | None =>
      raise FileNotFoundError
        ("No such file or directory: '" +:+ PurePath.str p +:+ "'")
  | Some Dir =>
      raise IsADirectoryError ("Is a directory: '" +:+ PurePath.str p +:+ "'")
  | Some (File (ZipData members None)) => ret members
  | Some (File (ZipData _ (Some e))) => lift (Raise e)
  | Some (File _) => raise BadZipFile "File is not a zip file"
  end.

(** The block of a [with tempfile.TemporaryDirectory() as temp_dir] whose
    directory holds [content]: inside the block a path is relative to
    [temp_dir] and names what the directory holds; when the block is left,
    by its end or by an exception, the directory is removed and the file
    system is the one from before. *)
Definition in_temporary_directory {A : Type} (content : FS) (block : M A) : M A :=
  fun fr =>
    let w := world fr in
    match block (mkFrame (symbols fr) (with_fs content w)) with
    | (fr', r) => (mkFrame (symbols fr') (with_fs (fs w) (world fr')), r)
    end.

(** [temp_path.glob(prefix + '*')]: the entries of the directory whose name
    starts with [prefix], in the order the directory lists them. *)
Definition glob_prefix (prefix : string) : M (list Path) :=
  w <- get_world ;;
  ret (List.filter
         (fun p => match p with
                   | [n] => String.prefix prefix n
                   | _ => false
                   end)
         (List.map fst (map_to_list (fs w)))).

Definition HELVETICA : string := "/System/Library/Fonts/Helvetica.ttc".

(** [ImageFont.truetype(HELVETICA, size)]. *)
Definition truetype (size : Z) : M Font :=
  w <- get_world ;;
  match fs w !! PurePath.of_string HELVETICA with
  | Some (File FontData) => ret (TrueType HELVETICA size)
  | _ => raise OSError "cannot open resource"
  end.

End Calls.

(** [v[i]] for a constant index. *)
Definition subscript (v : PyVal) (i : nat) : Outcome PyVal :=
  match v with
  | VTuple items =>
      match items !! i with
      | Some x => Return x
      | None => Raise (mkExn IndexError "tuple index out of range")
      end
  | VStr s =>
      match String.get i s with
      | Some c => Return (VStr (String c EmptyString))
      | None => Raise (mkExn IndexError "string index out of range")
      end
  | _ => Raise (mkExn TypeError "object is not subscriptable")
  end.

(** [v - k] for an integer constant [k]. *)
Definition minus (v : PyVal) (k : Z) : Outcome Z :=
  match v with
  | VInt z => Return (z - k)
  | VBool b => Return ((if b then 1 else 0) - k)
  | _ => Raise (mkExn TypeError "unsupported operand type(s) for -")
  end.

(** A Python integer: an [int], or a [bool] as the number it is. *)
Definition int_of (v : PyVal) : option Z :=
  match v with
  | VInt z => Some z
  | VBool b => Some (if b then 1 else 0)
  | _ => None
  end.

(** The check of [ImageDraw.rectangle] on corners of integers: the second
    corner is not left of or above the first (Pillow 9.5 and later). *)
Definition ordered_corners (x0 y0 x1 y1 : option Z) : Outcome unit :=
  match x0, y0, x1, y1 with
  | Some x0, Some y0, Some x1, Some y1 =>
      if x1 <? x0 then
        Raise (mkExn ValueError "x1 must be greater than or equal to x0")
      else if y1 <? y0 then
        Raise (mkExn ValueError "y1 must be greater than or equal to y0")
      else Return tt
  | _, _, _, _ => Raise (mkExn TypeError "a float is required")
  end.

(** [draw.rectangle(xy, ...)] on a Python value: whether the library takes
    the box.  It takes four numbers or two pairs of numbers; the model covers
    integers. *)
Definition rectangle (xy : PyVal) : Outcome unit :=
  match xy with
  | VTuple [VTuple [a; b]; VTuple [c; d]] =>
      ordered_corners (int_of a) (int_of b) (int_of c) (int_of d)
  | VTuple [a; b; c; d] =>
      ordered_corners (int_of a) (int_of b) (int_of c) (int_of d)
  | VTuple _ =>
      Raise (mkExn ValueError "coordinate list must contain exactly 2 coordinates")
  | _ => Raise (mkExn TypeError "argument must be sequence")
  end.

Definition newline : string := String (ascii_of_nat 10) EmptyString.

(** [sorted(counts.items())] for string keys: insertion into a list sorted by
    key. *)
Fixpoint insert_sorted (kv : string * Z) (l : list (string * Z)) : list (string * Z) :=
  match l with
  | [] => [kv]
  | kv' :: l' =>
      if String.leb (fst kv) (fst kv') then kv :: l
      else kv' :: insert_sorted kv l'
  end.

Definition sorted_items (l : list (string * Z)) : list (string * Z) :=
  List.fold_right insert_sorted [] l.

(** [counts[k] = counts.get(k, 0) + 1] on a dict kept in insertion order. *)
Fixpoint count_up (k : string) (counts : list (string * Z)) : list (string * Z) :=
  match counts with
  | [] => [(k, 1)]
  | (k', n) :: rest =>
      if String.eqb k' k then (k', n + 1) :: rest else (k', n) :: count_up k rest
  end.

(** ** music_symbol_detector.py *)

Module V1.
Section Detector.
Context `{Platform}.

(** Symbol types we're interested in. *)
Definition TARGET_SYMBOLS : gmap string string :=
  <["sharp" := "#"]> (<["flat" := "b"]> (<["natural" := "n"]>
    (<["notehead" := "o"]> ∅))).

(** Colors for bounding boxes. *)
Definition COLORS : gmap string string :=
  <["sharp" := "#FF0000"]> (<["flat" := "#00FF00"]>
    (<["natural" := "#0000FF"]> (<["notehead" := "#FF00FF"]> ∅))).

(** [os.path.expanduser('~' + rest)] for [rest] starting with a slash. *)
Definition expanduser (rest : string) (w : World) : string :=
  match environ w !! "HOME" with
  | Some home => Str.rstrip_by (Ascii.eqb "/") home +:+ rest
  | None =>
      match pw_home with
      | Some home => Str.rstrip_by (Ascii.eqb "/") home +:+ rest
      | None => "~" +:+ rest
      end
  end.

Definition possible_paths (w : World) : list string :=
  [ "/Applications/Audiveris.app/Contents/MacOS/Audiveris";
    "/usr/local/bin/audiveris";
    "audiveris";
    expanduser "/Audiveris/build/libs/Audiveris-*.jar" w ].

(** [os.path.exists(s)]. *)
Definition os_path_exists (s : string) (w : World) : bool :=
  match fs w !! PurePath.of_string s with Some _ => true | None => false end.

(** Try to find Audiveris installation. *)
Definition _find_audiveris : M (option string) :=
  call (
    w <- get_world ;;
    match List.find (fun p => os_path_exists p w) (possible_paths w) with
    | Some path => ret (Some path)
    | None =>
        try_except
          (r <- run_process ["which"; "audiveris"] (environ w) None ;;
           match r with
           | (returncode, out, _) =>
               if returncode =? 0 then ret (Some (Str.strip out)) else ret None
           end)
          (fun _ => ret None)
    end).

(** The detector object is its attribute [audiveris_path]. *)
Definition __init__ (audiveris_path : option string) : M (option string) :=
  call (
    match audiveris_path with
    | Some p => if String.eqb p "" then _find_audiveris else ret (Some p)
    | None => _find_audiveris
    end).

Definition NOT_FOUND : string :=
  "Audiveris not found. Please install Audiveris or provide path." +:+ newline
  +:+ "Download from: https://github.com/Audiveris/audiveris/releases".

(** Run Audiveris on the image to extract symbols. *)
Definition _run_audiveris (self : option string) (image_path : Path) : M Path :=
  call (
    match self with
    | None => raise RuntimeError NOT_FOUND
    | Some audiveris_path =>
        if String.eqb audiveris_path "" then raise RuntimeError NOT_FOUND else
        let output_dir := PurePath.parent image_path </> "audiveris_output" in
        mkdir_exist_ok output_dir ;;
        let cmd :=
          if Str.endswith audiveris_path ".jar" then
            [ "java"; "-jar"; audiveris_path; "-batch"; "-export"; "-output";
              PurePath.str output_dir; PurePath.str image_path ]
          else
            [ audiveris_path; "-batch"; "-export"; "-output";
              PurePath.str output_dir; PurePath.str image_path ] in
        w <- get_world ;;
        try_except_class TimeoutExpired
          (r <- run_process cmd (environ w) (Some 300) ;;
           match r with
           | (returncode, _, err) =>
               if negb (returncode =? 0) then
                 print ("Audiveris stderr: " +:+ err) ;;
                 raise RuntimeError
                   ("Audiveris failed with code " +:+ pretty returncode)
               else ret tt
           end)
          (raise RuntimeError "Audiveris timed out (5 minutes)") ;;
        let project_name := PurePath.stem image_path in
        let omr_file := output_dir </> project_name </> (project_name +:+ ".mxl") in
        found <- path_exists omr_file ;;
        let omr_file :=
          if found then omr_file
          else output_dir </> project_name </> (project_name +:+ ".xml") in
        found <- path_exists omr_file ;;
        if found then ret omr_file
        else raise RuntimeError
               ("OMR output not found in " +:+ PurePath.str output_dir)
    end).

(** The [symbol_type] the loop of [_parse_omr_book] computes for a shape. *)
Definition book_symbol_type (shape : string) : option string :=
  let symbol_type := None in
  let shape_lower := Str.lower shape in
  if Str.contains "sharp" shape_lower then Some "sharp"
  else if Str.contains "flat" shape_lower then Some "flat"
  else if Str.contains "natural" shape_lower then Some "natural"
  else if (Str.contains "notehead" shape_lower
           || Str.contains "head" shape_lower)%bool then Some "notehead"
  else symbol_type.

Definition box (x y w h : Z) : PyVal :=
  VTuple [VInt x; VInt y; VInt (x + w); VInt (y + h)].

(** The body of the loop over the [inter] elements. *)
Definition book_inter (inter : Element) : M unit :=
  let shape := ET.get "shape" "" inter in
  match book_symbol_type shape with
  | Some symbol_type =>
      (* a non-empty string is true *)
      if String.eqb symbol_type "" then ret tt else
      match ET.find "bounds" inter with
      | Some bounds =>
          x <- int_attr bounds "x" 0 ;;
          y <- int_attr bounds "y" 0 ;;
          w <- int_attr bounds "w" 20 ;;
          h <- int_attr bounds "h" 20 ;;
          append (<["type" := VStr symbol_type]> (<["bbox" := box x y w h]>
                    (<["shape" := VStr shape]> ∅)))
      | None => ret tt
      end
  | None => ret tt
  end.

(** The [try] block of [_parse_omr_book]. *)
Definition book_try (book_file : Path) : M unit :=
  root <- ET_parse book_file ;;
  for_each (ET.descendants "inter" root) book_inter ;;
  found <- get_symbols ;;
  print ("Found " +:+ pretty (Z.of_nat (length found))
         +:+ " symbols in OMR book file").

(** Its [except Exception as e] block. *)
Definition book_except (e : Exn) : M unit :=
  print ("Error parsing OMR book file: " +:+ exn_msg e).

(** Parse Audiveris .omr book file for pixel coordinates. *)
Definition _parse_omr_book (book_file : Path) : M (list Dict) :=
  call (
    set_symbols [] ;;
    try_except (book_try book_file) book_except ;;
    get_symbols).

(** Alternative parsing method. *)
Definition _parse_alternative (omr_file : Path) : M (list Dict) :=
  call (print "Using fallback parsing method" ;; ret []).

Definition estimated_box (i : Z) : PyVal :=
  VTuple [VInt (100 + i * 50); VInt 100; VInt (120 + i * 50); VInt 120].

(** The record built for the [i]-th symbol. *)
Definition estimate_one (i : Z) (symbol : Dict) : Outcome Dict :=
  match symbol !! "type" with
  | Some t =>
      Return (<["type" := t]> (<["bbox" := estimated_box i]>
                (<["estimated" := VBool true]> ∅)))
  | None => Raise (mkExn KeyError "'type'")
  end.

(** [for i, symbol in enumerate(symbols)], from index [i] on. *)
Fixpoint estimate_loop (i : Z) (symbols estimated : list Dict)
    : Outcome (list Dict) :=
  match symbols with
  | [] => Return estimated
  | symbol :: rest =>
      match estimate_one i symbol with
      | Return d => estimate_loop (i + 1) rest (estimated ++ [d])
      | Raise e => Raise e
      end
  end.

(** Estimate positions when coordinates are not available. *)
Definition _estimate_positions (symbols : list Dict) : M (list Dict) :=
  call (lift (estimate_loop 0 symbols [])).

Definition MUSICXML : string := "http://www.w3.org/2001/MUSICxml".

Definition pre_symbol (t : string) (note : Element) : Dict :=
  <["type" := VStr t]> (<["element" := VElem note]> ∅).

(** The body of the loop over the [note] elements. *)
Definition note_body (note : Element) : M unit :=
  match ET.find (ET.qualified MUSICXML "pitch") note with
  | Some pitch =>
      match ET.find (ET.qualified MUSICXML "alter") pitch with
      | Some alter =>
          alter_value <- float_text alter ;;
          if PrimFloat.eqb alter_value 1%float then
            append (pre_symbol "sharp" note)
          else if PrimFloat.eqb alter_value (-1)%float then
            append (pre_symbol "flat" note)
          else if PrimFloat.eqb alter_value 0%float then
            append (pre_symbol "natural" note)
          else ret tt
      | None => ret tt
      end ;;
      append (pre_symbol "notehead" note)
  | None => ret tt
  end ;;
  match ET.find (ET.qualified MUSICXML "accidental") note with
  | Some accidental =>
      acc_type <- lower_text accidental ;;
      if Str.contains "sharp" acc_type then append (pre_symbol "sharp" note)
      else if Str.contains "flat" acc_type then append (pre_symbol "flat" note)
      else if Str.contains "natural" acc_type then
        append (pre_symbol "natural" note)
      else ret tt
  | None => ret tt
  end.

(** The first part of the [try] block of [_parse_omr_output]: the MusicXML
    file is read and its notes are scanned. *)
Definition scan_musicxml (omr_file : Path) : M unit :=
  root <- ET_parse omr_file ;;
  for_each (ET.descendants (ET.qualified MUSICXML "note") root) note_body.

Definition book_file_of (omr_file : Path) : Path :=
  let omr_dir := PurePath.parent omr_file in
  omr_dir </> (PurePath.name omr_dir +:+ ".omr").

(** The [try] block of [_parse_omr_output]. *)
Definition output_try (omr_file : Path) : M unit :=
  scan_musicxml omr_file ;;
  print "Note: MusicXML doesn't contain pixel coordinates." ;;
  print "Attempting to parse Audiveris book file..." ;;
  let book_file := book_file_of omr_file in
  found <- path_exists book_file ;;
  if found then
    parsed <- _parse_omr_book book_file ;;
    set_symbols parsed
  else
    print "Warning: Could not find OMR book file with coordinates." ;;
    print "Generating estimated positions..." ;;
    symbols <- get_symbols ;;
    estimated <- _estimate_positions symbols ;;
    set_symbols estimated.

(** Its [except Exception as e] block. *)
Definition output_except (omr_file : Path) (e : Exn) : M unit :=
  print ("Error parsing OMR output: " +:+ exn_msg e) ;;
  print "Attempting alternative parsing method..." ;;
  fallback <- _parse_alternative omr_file ;;
  set_symbols fallback.

(** Parse Audiveris OMR output to extract symbol positions. *)
Definition _parse_omr_output (omr_file : Path) : M (list Dict) :=
  call (
    set_symbols [] ;;
    try_except (output_try omr_file) (output_except omr_file) ;;
    get_symbols).

(** [symbol_type in self.TARGET_SYMBOLS], with [TARGET_SYMBOLS[symbol_type]]
    when it is: only a string can equal one of the keys. *)
Definition target_label (symbol_type : PyVal) : option string :=
  match symbol_type with
  | VStr t => TARGET_SYMBOLS !! t
  | _ => None
  end.

(** [self.COLORS.get(symbol_type, '#FFFFFF')]. *)
Definition color_of (symbol_type : PyVal) : string :=
  match symbol_type with
  | VStr t => default "#FFFFFF" (COLORS !! t)
  | _ => "#FFFFFF"
  end.

(** The body of the drawing loop: the calls made on the [ImageDraw] object
    for one symbol ([[]] when the loop continues without drawing).  The
    library refuses a box whose corners are not in order; the exception ends
    the loop and the function. *)
Definition draw_symbol (font : Font) (symbol : Dict) : Outcome (list DrawCmd) :=
  match symbol !! "type" with
  | None => Raise (mkExn KeyError "'type'")
  | Some symbol_type =>
      match target_label symbol_type with
      | None => Return []
      | Some label =>
          let bbox := default VNone (symbol !! "bbox") in
          if negb (truthy bbox) then Return [] else
          let color := color_of symbol_type in
          match rectangle bbox with
          | Raise e => Raise e
          | Return _ =>
              match subscript bbox 0 with
              | Raise e => Raise e
              | Return x =>
                  match subscript bbox 1 with
                  | Raise e => Raise e
                  | Return y1 =>
                      match minus y1 25 with
                      | Raise e => Raise e
                      | Return y =>
                          Return
                            [ DrawRectangle (BoxOf bbox) (Some color) None 3;
                              DrawRectangle (TextBBox x (VInt y) label font)
                                            None (Some color) 1;
                              DrawText x (VInt y) label "white" font ]
                      end
                  end
              end
          end
      end
  end.

(** [for symbol in symbols]: the calls made, in order. *)
Fixpoint draw_loop (font : Font) (symbols : list Dict) : Outcome (list DrawCmd) :=
  match symbols with
  | [] => Return []
  | symbol :: rest =>
      match draw_symbol font symbol with
      | Raise e => Raise e
      | Return cmds =>
          match draw_loop font rest with
          | Raise e => Raise e
          | Return more => Return (cmds ++ more)
          end
      end
  end.

(** The image after the calls [cmds]. *)
Definition paint (img : Image) (cmds : list DrawCmd) : Image :=
  mkImage (width img) (height img) (List.fold_left Drawn cmds (pixels img)).

(** Draw bounding boxes on the image. *)
Definition _draw_bounding_boxes (image_path : Path) (symbols : list Dict)
    (output_path : Path) : M unit :=
  call (
    img <- Image_open image_path ;;
    font <- try_except (truetype 20) (fun _ => ret DefaultFont) ;;
    cmds <- lift (draw_loop font symbols) ;;
    Image_save (paint img cmds) output_path None).

(** The [counts] dict of [_print_summary], in insertion order.  The model
    covers records whose type is a string, as the parsers build them. *)
Fixpoint count_types (symbols : list Dict) (counts : list (string * Z))
    : Outcome (list (string * Z)) :=
  match symbols with
  | [] => Return counts
  | symbol :: rest =>
      match symbol !! "type" with
      | None => Raise (mkExn KeyError "'type'")
      | Some (VStr symbol_type) => count_types rest (count_up symbol_type counts)
      | Some _ => Raise (mkExn TypeError "symbol type is not a string")
      end
  end.

Definition summary_line (item : string * Z) : string :=
  let symbol_type := fst item in
  let label := default symbol_type (TARGET_SYMBOLS !! symbol_type) in
  "  " +:+ symbol_type +:+ " (" +:+ label +:+ "): " +:+ pretty (snd item).

(** Print summary of detected symbols. *)
Definition _print_summary (symbols : list Dict) : M unit :=
  call (
    counts <- lift (count_types symbols []) ;;
    print (newline +:+ "Detected symbols:") ;;
    for_each (sorted_items counts) (fun item => print (summary_line item))).

Definition default_output (image_path : Path) : Path :=
  PurePath.parent image_path
    </> (PurePath.stem image_path +:+ "_detected" +:+ PurePath.suffix image_path).

(** Process a sheet music image and draw bounding boxes. *)
Definition process_image (self : option string) (image_path : Path)
    (output_path : option Path) : M Path :=
  call (
    found <- path_exists image_path ;;
    if negb found then
      raise FileNotFoundError ("Image not found: " +:+ PurePath.str image_path)
    else
      let output_path :=
        match output_path with
        | None => default_output image_path
        | Some p => p
        end in
      print ("Processing: " +:+ PurePath.str image_path) ;;
      print "Running Audiveris..." ;;
      omr_file <- _run_audiveris self image_path ;;
      print "Parsing symbols..." ;;
      symbols <- _parse_omr_output omr_file ;;
      print "Drawing bounding boxes..." ;;
      _draw_bounding_boxes image_path symbols output_path ;;
      print ("Output saved to: " +:+ PurePath.str output_path) ;;
      print ("Total symbols detected: "
             +:+ pretty (Z.of_nat (length symbols))) ;;
      _print_summary symbols ;;
      ret output_path).

(** [process_image] for arguments of either kind: the image path becomes a
    [Path], a given output path stays what the caller passed. *)
Definition process_image_arg (self : option string) (image_path : PathArg)
    (output_path : option PathArg) : M PathArg :=
  call (
    let image_path := path_of image_path in
    found <- path_exists image_path ;;
    if negb found then
      raise FileNotFoundError ("Image not found: " +:+ PurePath.str image_path)
    else
      let output_path :=
        match output_path with
        | None => AsPath (default_output image_path)
        | Some a => a
        end in
      print ("Processing: " +:+ PurePath.str image_path) ;;
      print "Running Audiveris..." ;;
      omr_file <- _run_audiveris self image_path ;;
      print "Parsing symbols..." ;;
      symbols <- _parse_omr_output omr_file ;;
      print "Drawing bounding boxes..." ;;
      _draw_bounding_boxes image_path symbols (path_of output_path) ;;
      print ("Output saved to: " +:+ shown output_path) ;;
      print ("Total symbols detected: "
             +:+ pretty (Z.of_nat (length symbols))) ;;
      _print_summary symbols ;;
      ret output_path).

(** Main entry point, for the parsed arguments [image], [--output] and
    [--audiveris]; the value is the exit status of the script: 1 when
    [sys.exit(1)] is reached, 0 when [main] returns. *)
Definition main (image : string) (output audiveris : option string) : M Z :=
  call (
    try_except
      (detector <- __init__ audiveris ;;
       process_image_arg detector (AsStr image) (option_map AsStr output) ;;
       ret 0)
      (fun e => eprint ("Error: " +:+ exn_msg e) ;; ret 1)).

End Detector.
End V1.

(** ** music_symbol_detector_v2.py *)

Module V2.
Section Detector.
Context `{Platform}.

(** Symbol types we're interested in. *)
Definition TARGET_SYMBOLS : gmap string string :=
  <["sharp" := "#"]> (<["flat" := "b"]> (<["natural" := "n"]>
    (<["notehead" := "o"]> ∅))).

(** Colors for bounding boxes. *)
Definition COLORS : gmap string string :=
  <["sharp" := "#FF0000"]> (<["flat" := "#00FF00"]>
    (<["natural" := "#0000FF"]> (<["notehead" := "#FF00FF"]> ∅))).

(** The detector object is its attribute [audiveris_path]. *)
Definition __init__ (audiveris_path : option string) : M (option string) :=
  call (ret audiveris_path).

Definition child_env (w : World) : gmap string string :=
  <["PATH" := "/opt/homebrew/opt/openjdk/bin:" +:+ default "" (environ w !! "PATH")]>
    (<["JAVA_HOME" := "/opt/homebrew/opt/openjdk"]> (environ w)).

(** Run Audiveris on the image to extract symbols. *)
Definition _run_audiveris (self : option string) (image_path : Path) : M Path :=
  call (
    match self with
    | None => raise RuntimeError "Audiveris path not provided"
    | Some audiveris_path =>
        if String.eqb audiveris_path "" then
          raise RuntimeError "Audiveris path not provided"
        else
        let output_dir := PurePath.parent image_path </> "audiveris_output" in
        mkdir_exist_ok output_dir ;;
        let cmd :=
          [ audiveris_path; "-batch"; "-export"; "-output";
            PurePath.str output_dir; PurePath.str image_path ] in
        w <- get_world ;;
        try_except_class TimeoutExpired
          (r <- run_process cmd (child_env w) (Some 300) ;;
           match r with
           | (returncode, _, err) =>
               if negb (returncode =? 0) then
                 print ("Audiveris stderr: " +:+ err)
               else ret tt
           end)
          (raise RuntimeError "Audiveris timed out (5 minutes)") ;;
        let omr_file := output_dir </> (PurePath.stem image_path +:+ ".omr") in
        found <- path_exists omr_file ;;
        if found then ret omr_file
        else raise RuntimeError
               ("OMR output not found: " +:+ PurePath.str omr_file)
    end).

(** Classify a shape into our target symbol types. *)
Definition _classify_symbol (shape : string) : option string :=
  let shape_lower := Str.lower shape in
  if Str.contains "sharp" shape_lower then Some "sharp"
  else if Str.contains "flat" shape_lower then Some "flat"
  else if Str.contains "natural" shape_lower then Some "natural"
  else if (Str.contains "notehead" shape_lower
           || Str.contains "head" shape_lower)%bool then Some "notehead"
  else None.

Definition box (x y w h : Z) : PyVal :=
  VTuple [VInt x; VInt y; VInt (x + w); VInt (y + h)].

Definition record (symbol_type : string) (bbox : PyVal) (shape : string) : Dict :=
  <["type" := VStr symbol_type]> (<["bbox" := bbox]>
    (<["shape" := VStr shape]> ∅)).

(** The body of the loop over the [head] elements. *)
Definition sheet_head (head : Element) : M unit :=
  match ET.find "bounds" head with
  | Some bounds =>
      x <- int_attr bounds "x" 0 ;;
      y <- int_attr bounds "y" 0 ;;
      w <- int_attr bounds "w" 20 ;;
      h <- int_attr bounds "h" 20 ;;
      append (record "notehead" (box x y w h) (ET.get "shape" "NOTEHEAD" head))
  | None => ret tt
  end.

(** What both accidental loops do once [bounds] is found. *)
Definition classified (shape : string) (bounds : Element) : M unit :=
  match _classify_symbol shape with
  | Some symbol_type =>
      if String.eqb symbol_type "" then ret tt else
      x <- int_attr bounds "x" 0 ;;
      y <- int_attr bounds "y" 0 ;;
      w <- int_attr bounds "w" 20 ;;
      h <- int_attr bounds "h" 20 ;;
      append (record symbol_type (box x y w h) shape)
  | None => ret tt
  end.

(** The body of the loop over the [key-alter] elements. *)
Definition sheet_key_alter (accidental : Element) : M unit :=
  let shape := ET.get "shape" "" accidental in
  match ET.find "bounds" accidental with
  | Some bounds => classified shape bounds
  | None => ret tt
  end.

Definition accidental_shape (shape : string) : bool :=
  (Str.contains "SHARP" shape || Str.contains "FLAT" shape
   || Str.contains "NATURAL" shape)%bool.

(** The body of the loop over the [inter] elements. *)
Definition sheet_inter (inter : Element) : M unit :=
  let shape := ET.get "shape" "" inter in
  if accidental_shape shape then
    match ET.find "bounds" inter with
    | Some bounds => classified shape bounds
    | None => ret tt
    end
  else ret tt.

(** The [try] block of [_parse_sheet_xml]. *)
Definition sheet_try (sheet_xml : Path) : M unit :=
  root <- ET_parse sheet_xml ;;
  match ET.find_desc_child "sig" "inters" root with
  | None => print "No inters section found in sheet XML"
  | Some inters =>
      for_each (ET.descendants "head" inters) sheet_head ;;
      for_each (ET.descendants "key-alter" inters) sheet_key_alter ;;
      for_each (ET.descendants "inter" inters) sheet_inter
  end.

(** Its [except Exception as e] block. *)
Definition sheet_except (e : Exn) : M unit :=
  print ("Error parsing sheet XML: " +:+ exn_msg e) ;;
  print_exc e.

(** Parse a sheet XML file to extract symbol positions. *)
Definition _parse_sheet_xml (sheet_xml : Path) : M (list Dict) :=
  call (
    set_symbols [] ;;
    try_except (sheet_try sheet_xml) sheet_except ;;
    get_symbols).

(** The body of the loop over the sheet directories. *)
Definition sheet_dir_body (sheet_dir : Path) : M unit :=
  let sheet_xml := sheet_dir </> (PurePath.name sheet_dir +:+ ".xml") in
  found <- path_exists sheet_xml ;;
  if found then
    parsed <- _parse_sheet_xml sheet_xml ;;
    extend parsed
  else ret tt.

(** The [try] block of [_parse_omr_file]. *)
Definition file_try (omr_file : Path) : M unit :=
  members <- ZipFile_read omr_file ;;
  content <- lift (extractall members) ;;
  in_temporary_directory content
    (sheet_dirs <- glob_prefix "sheet#" ;;
     for_each sheet_dirs sheet_dir_body).

(** Its [except Exception as e] block. *)
Definition file_except (e : Exn) : M unit :=
  print ("Error parsing OMR file: " +:+ exn_msg e).

(** Parse Audiveris .omr file (ZIP archive) to extract symbol positions. *)
Definition _parse_omr_file (omr_file : Path) : M (list Dict) :=
  call (
    set_symbols [] ;;
    try_except (file_try omr_file) file_except ;;
    get_symbols).

Definition target_label (symbol_type : PyVal) : option string :=
  match symbol_type with
  | VStr t => TARGET_SYMBOLS !! t
  | _ => None
  end.

Definition color_of (symbol_type : PyVal) : string :=
  match symbol_type with
  | VStr t => default "#FFFFFF" (COLORS !! t)
  | _ => "#FFFFFF"
  end.

(** The body of the drawing loop: the calls made on the [ImageDraw] object
    for one symbol ([[]] when the loop continues without drawing).  The
    library refuses a box whose corners are not in order; the exception ends
    the loop and the function. *)
Definition draw_symbol (font : Font) (symbol : Dict) : Outcome (list DrawCmd) :=
  match symbol !! "type" with
  | None => Raise (mkExn KeyError "'type'")
  | Some symbol_type =>
      match target_label symbol_type with
      | None => Return []
      | Some label =>
          let bbox := default VNone (symbol !! "bbox") in
          if negb (truthy bbox) then Return [] else
          let color := color_of symbol_type in
          match rectangle bbox with
          | Raise e => Raise e
          | Return _ =>
              match subscript bbox 1 with
              | Raise e => Raise e
              | Return y1 =>
                  match minus y1 30 with
                  | Raise e => Raise e
                  | Return y =>
                      let text_y := Z.max y 0 in
                      match subscript bbox 0 with
                      | Raise e => Raise e
                      | Return x =>
                          Return
                            [ DrawRectangle (BoxOf bbox) (Some color) None 3;
                              DrawRectangle (TextBBox x (VInt text_y) label font)
                                            None (Some color) 1;
                              DrawText x (VInt text_y) label "white" font ]
                      end
                  end
              end
          end
      end
  end.

Fixpoint draw_loop (font : Font) (symbols : list Dict) : Outcome (list DrawCmd) :=
  match symbols with
  | [] => Return []
  | symbol :: rest =>
      match draw_symbol font symbol with
      | Raise e => Raise e
      | Return cmds =>
          match draw_loop font rest with
          | Raise e => Raise e
          | Return more => Return (cmds ++ more)
          end
      end
  end.

(** The info banner drawn after the loop. *)
Definition banner (small_font : Font) (symbols : list Dict) : list DrawCmd :=
  let info_text :=
    "Detected: " +:+ pretty (Z.of_nat (length symbols)) +:+ " symbols" in
  [ DrawRectangle (TextBBox (VInt 10) (VInt 10) info_text small_font)
                  None (Some "yellow") 1;
    DrawText (VInt 10) (VInt 10) info_text "black" small_font ].

Definition paint (img : Image) (cmds : list DrawCmd) : Image :=
  mkImage (width img) (height img) (List.fold_left Drawn cmds (pixels img)).

(** Draw bounding boxes on the image. *)
Definition _draw_bounding_boxes (image_path : Path) (symbols : list Dict)
    (output_path : Path) : M unit :=
  call (
    img <- Image_open image_path ;;
    fonts <- try_except
               (font <- truetype 24 ;;
                small_font <- truetype 16 ;;
                ret (font, small_font))
               (fun _ => ret (DefaultFont, DefaultFont)) ;;
    cmds <- lift (draw_loop (fst fonts) symbols) ;;
    Image_save (paint img (cmds ++ banner (snd fonts) symbols)) output_path None).

Fixpoint count_types (symbols : list Dict) (counts : list (string * Z))
    : Outcome (list (string * Z)) :=
  match symbols with
  | [] => Return counts
  | symbol :: rest =>
      match symbol !! "type" with
      | None => Raise (mkExn KeyError "'type'")
      | Some (VStr symbol_type) => count_types rest (count_up symbol_type counts)
      | Some _ => Raise (mkExn TypeError "symbol type is not a string")
      end
  end.

Definition summary_line (item : string * Z) : string :=
  let symbol_type := fst item in
  let label := default symbol_type (TARGET_SYMBOLS !! symbol_type) in
  let color := default "#FFFFFF" (COLORS !! symbol_type) in
  "  " +:+ symbol_type +:+ " (" +:+ label +:+ "): " +:+ pretty (snd item)
  +:+ " [" +:+ color +:+ "]".

(** Print summary of detected symbols. *)
Definition _print_summary (symbols : list Dict) : M unit :=
  call (
    counts <- lift (count_types symbols []) ;;
    print (newline +:+ "Detected symbols:") ;;
    for_each (sorted_items counts) (fun item => print (summary_line item))).

Definition default_output (image_path : Path) : Path :=
  PurePath.parent image_path
    </> (PurePath.stem image_path +:+ "_detected" +:+ PurePath.suffix image_path).

(** Process a sheet music image and draw bounding boxes. *)
Definition process_image (self : option string) (image_path : Path)
    (output_path : option Path) : M Path :=
  call (
    found <- path_exists image_path ;;
    if negb found then
      raise FileNotFoundError ("Image not found: " +:+ PurePath.str image_path)
    else
      let output_path :=
        match output_path with
        | None => default_output image_path
        | Some p => p
        end in
      print ("Processing: " +:+ PurePath.str image_path) ;;
      print "Running Audiveris..." ;;
      omr_file <- _run_audiveris self image_path ;;
      print "Parsing symbols..." ;;
      symbols <- _parse_omr_file omr_file ;;
      print "Drawing bounding boxes..." ;;
      _draw_bounding_boxes image_path symbols output_path ;;
      print ("Output saved to: " +:+ PurePath.str output_path) ;;
      print ("Total symbols detected: "
             +:+ pretty (Z.of_nat (length symbols))) ;;
      _print_summary symbols ;;
      ret output_path).

(** [process_image] for arguments of either kind: the image path becomes a
    [Path], a given output path stays what the caller passed. *)
Definition process_image_arg (self : option string) (image_path : PathArg)
    (output_path : option PathArg) : M PathArg :=
  call (
    let image_path := path_of image_path in
    found <- path_exists image_path ;;
    if negb found then
      raise FileNotFoundError ("Image not found: " +:+ PurePath.str image_path)
    else
      let output_path :=
        match output_path with
        | None => AsPath (default_output image_path)
        | Some a => a
        end in
      print ("Processing: " +:+ PurePath.str image_path) ;;
      print "Running Audiveris..." ;;
      omr_file <- _run_audiveris self image_path ;;
      print "Parsing symbols..." ;;
      symbols <- _parse_omr_file omr_file ;;
      print "Drawing bounding boxes..." ;;
      _draw_bounding_boxes image_path symbols (path_of output_path) ;;
      print ("Output saved to: " +:+ shown output_path) ;;
      print ("Total symbols detected: "
             +:+ pretty (Z.of_nat (length symbols))) ;;
      _print_summary symbols ;;
      ret output_path).

(** Main entry point, for the parsed arguments [image], [--output] and the
    required [--audiveris]; the value is the exit status of the script: 1
    when [sys.exit(1)] is reached, 0 when [main] returns. *)
Definition main (image : string) (output : option string) (audiveris : string)
    : M Z :=
  call (
    try_except
      (detector <- __init__ (Some audiveris) ;;
       process_image_arg detector (AsStr image) (option_map AsStr output) ;;
       ret 0)
      (fun e =>
         eprint ("Error: " +:+ exn_msg e) ;;
         print_exc e ;;
         ret 1)).

End Detector.
End V2.

(** ** upscale_and_process.py *)

Section Upscale.
Context `{Platform}.

(** [img.resize(new_size, Image.Resampling.LANCZOS)]: a copy when the size
    does not change, else a new image of the requested size; a side below
    one is a [ValueError]. *)
Definition resize (img : Image) (w h : Z) : M Image :=
  if ((w =? width img) && (h =? height img))%bool then ret img
  else if ((w <? 1) || (h <? 1))%bool then
    raise ValueError "height and width must be > 0"
  else ret (mkImage w h (Resampled (pixels img) w h "LANCZOS")).

Definition size_str (img : Image) : string :=
  "(" +:+ pretty (width img) +:+ ", " +:+ pretty (height img) +:+ ")".

(** Upscale image for better Audiveris processing. *)
Definition upscale_image (input_path output_path : Path) (scale_factor : Z)
    : M Path :=
  call (
    img <- Image_open input_path ;;
    print ("Original size: " +:+ size_str img) ;;
    let new_size := (width img * scale_factor, height img * scale_factor) in
    img_upscaled <- resize img (fst new_size) (snd new_size) ;;
    print ("New size: " +:+ size_str img_upscaled) ;;
    Image_save img_upscaled output_path (Some (300, 300)) ;;
    print ("Saved to: " +:+ PurePath.str output_path) ;;
    ret output_path).

(** The default of the parameter [scale_factor]. *)
Definition default_scale_factor : Z := 4.

(** [upscale_image] for arguments of either kind. *)
Definition upscale_image_arg (input_path output_path : PathArg) (scale_factor : Z)
    : M PathArg :=
  call (
    img <- Image_open (path_of input_path) ;;
    print ("Original size: " +:+ size_str img) ;;
    let new_size := (width img * scale_factor, height img * scale_factor) in
    img_upscaled <- resize img (fst new_size) (snd new_size) ;;
    print ("New size: " +:+ size_str img_upscaled) ;;
    Image_save img_upscaled (path_of output_path) (Some (300, 300)) ;;
    print ("Saved to: " +:+ shown output_path) ;;
    ret output_path).

(** [int(s)] on a string. *)
Definition int_of_str (s : string) : M Z :=
  match py_int s with
  | Some z => ret z
  | None =>
      raise ValueError ("invalid literal for int() with base 10: '" +:+ s +:+ "'")
  end.

(** The script run as a program on [sys.argv]; the value is its exit status
    when it ends by itself, an exception it raises is not caught. *)
Definition upscale_script (argv : list string) : M Z :=
  call (
    if Nat.ltb (length argv) 3 then
      print "Usage: python upscale_and_process.py input.png output.png [scale_factor]" ;;
      ret 1
    else
      scale <- (if Nat.ltb 3 (length argv)
                then int_of_str (List.nth 3 argv "")
                else ret 4) ;;
      upscale_image_arg (AsStr (List.nth 1 argv "")) (AsStr (List.nth 2 argv ""))
                        scale ;;
      ret 0).

End Upscale.

(** ** test_without_audiveris.py *)

Module Mock.
Section Script.
Context `{Platform}.

(** Mock symbol data: [(type, x, y, width, height, label, color)]. *)
Definition mock_symbols : list (string * Z * Z * Z * Z * string * string) :=
  [ ("notehead", 55, 180, 15, 15, "o", "#FF00FF");
    ("notehead", 95, 175, 15, 15, "o", "#FF00FF");
    ("notehead", 130, 172, 15, 15, "o", "#FF00FF");
    ("notehead", 165, 170, 15, 15, "o", "#FF00FF");
    ("notehead", 205, 168, 15, 15, "o", "#FF00FF");
    ("notehead", 230, 168, 15, 15, "o", "#FF00FF");
    ("notehead", 265, 165, 15, 15, "o", "#FF00FF");
    ("notehead", 310, 163, 15, 15, "o", "#FF00FF");
    ("notehead", 340, 163, 15, 15, "o", "#FF00FF");
    ("notehead", 370, 163, 15, 15, "o", "#FF00FF");
    ("notehead", 405, 160, 15, 15, "o", "#FF00FF");
    ("flat", 390, 155, 12, 25, "b", "#00FF00");
    ("notehead", 430, 160, 15, 15, "o", "#FF00FF");
    ("notehead", 465, 158, 15, 15, "o", "#FF00FF");
    ("notehead", 520, 153, 15, 15, "o", "#FF00FF");
    ("notehead", 540, 153, 15, 15, "o", "#FF00FF");
    ("notehead", 525, 178, 15, 15, "o", "#FF00FF") ].

(** The body of the drawing loop: the calls made for one mock symbol. *)
Definition mock_draw (font : Font)
    (symbol : string * Z * Z * Z * Z * string * string) : list DrawCmd :=
  match symbol with
  | (symbol_type, x, y, w, h, label, color) =>
      let bbox := VTuple [VInt x; VInt y; VInt (x + w); VInt (y + h)] in
      [ DrawRectangle (BoxOf bbox) (Some color) None 2;
        DrawRectangle (TextBBox (VInt x) (VInt (y - 25)) label font)
                      None (Some color) 1;
        DrawText (VInt x) (VInt (y - 25)) label "white" font ]
  end.

Definition watermark_text : string :=
  "MOCK DATA - Install Audiveris for real detection".

(** The watermark drawn after the loop. *)
Definition watermark (font : Font) : list DrawCmd :=
  [ DrawRectangle (TextBBox (VInt 10) (VInt 10) watermark_text font)
                  None (Some "yellow") 1;
    DrawText (VInt 10) (VInt 10) watermark_text "red" font ].

(** [sum(1 for s in mock_symbols if s[0] == t)]. *)
Definition count_of (t : string) : Z :=
  Z.of_nat (length (List.filter
                      (fun s => match s with
                                | (symbol_type, _, _, _, _, _, _) =>
                                    String.eqb symbol_type t
                                end)
                      mock_symbols)).

(** [image_path.replace('.png', '_test_output.png')]. *)
Definition default_output (image_path : string) : string :=
  Str.replace ".png" "_test_output.png" image_path.

(** Test bounding box drawing with mock data. *)
Definition test_bounding_boxes (image_path : string) (output_path : option string)
    : M string :=
  call (
    let output_path :=
      match output_path with
      | None => default_output image_path
      | Some given => given
      end in
    img <- Image_open (PurePath.of_string image_path) ;;
    font <- try_except (truetype 20) (fun _ => ret DefaultFont) ;;
    let cmds := List.flat_map (mock_draw font) mock_symbols ++ watermark font in
    Image_save
      (mkImage (width img) (height img) (List.fold_left Drawn cmds (pixels img)))
      (PurePath.of_string output_path) None ;;
    print ("Test output saved to: " +:+ output_path) ;;
    print (newline +:+ "This is MOCK DATA to demonstrate the concept.") ;;
    print "Install Audiveris (see INSTALL_AUDIVERIS.md) for real symbol detection." ;;
    print (newline +:+ "Mock symbols drawn: "
           +:+ pretty (Z.of_nat (length mock_symbols))) ;;
    print ("  - Noteheads: " +:+ pretty (count_of "notehead")) ;;
    print ("  - Flats: " +:+ pretty (count_of "flat")) ;;
    print ("  - Sharps: " +:+ pretty (count_of "sharp")) ;;
    print ("  - Naturals: " +:+ pretty (count_of "natural")) ;;
    ret output_path).

(** The script run as a program on [sys.argv]. *)
Definition script (argv : list string) : M Z :=
  call (
    if Nat.ltb (length argv) 2 then
      print "Usage: python test_without_audiveris.py <image.png>" ;;
      ret 1
    else
      test_bounding_boxes (List.nth 1 argv "") None ;;
      ret 0).

End Script.
End Mock.

(** ** A platform and a world for examples *)

Module Demo.

Fixpoint digits (s : string) (acc : Z) : option Z :=
  match s with
  | EmptyString => Some acc
  | String c rest =>
      let n := Z.of_nat (nat_of_ascii c) in
      if ((48 <=? n) && (n <=? 57))%bool then digits rest (10 * acc + (n - 48))
      else None
  end.

(** Plain decimal literals with an optional sign: [int] accepts these (and
    more). *)
Definition decimal (s : string) : option Z :=
  match s with
  | EmptyString => None
  | String c rest =>
      if Ascii.eqb c "-" then
        match rest with
        | EmptyString => None
        | _ => option_map Z.opp (digits rest 0)
        end
      else digits s 0
  end.

Definition float_of_digit (z : Z) : option float :=
  if z =? 0 then Some 0%float
  else if z =? 1 then Some 1%float
  else if z =? -1 then Some (-1)%float
  else if z =? 2 then Some 2%float
  else if z =? -2 then Some (-2)%float
  else None.

Definition attrs (l : list (string * string)) : gmap string string :=
  list_to_map l.

Definition bounds (l : list (string * string)) : Element :=
  Elem "bounds" (attrs l) None [].

Definition sharp_inter : Element :=
  Elem "inter" (attrs [("shape", "SHARP")]) None
    [bounds [("x", "10"); ("y", "20"); ("w", "5"); ("h", "8")]].

Definition unsized_bounds : Element := bounds [("x", "30"); ("y", "40")].

Definition notehead_inter : Element :=
  Elem "inter" (attrs [("shape", "NOTEHEAD_BLACK")]) None [unsized_bounds].

(** The book file of the examples: a sharp, a notehead without size, a
    stem. *)
Definition book : Element :=
  Elem "book" ∅ None
    [ sharp_inter;
      notehead_inter;
      Elem "inter" (attrs [("shape", "STEM")]) None
        [bounds [("x", "1"); ("y", "2"); ("w", "3"); ("h", "4")]] ].

(** A book file whose first symbol has a malformed coordinate. *)
Definition bad_book : Element :=
  Elem "book" ∅ None
    [ Elem "inter" (attrs [("shape", "FLAT")]) None
        [bounds [("x", "ten"); ("y", "20"); ("w", "5"); ("h", "8")]];
      Elem "inter" (attrs [("shape", "SHARP")]) None
        [bounds [("x", "10"); ("y", "20"); ("w", "5"); ("h", "8")]] ].

(** A book file whose second symbol has a malformed coordinate. *)
Definition half_book : Element :=
  Elem "book" ∅ None
    [ sharp_inter;
      Elem "inter" (attrs [("shape", "FLAT")]) None
        [bounds [("x", "ten"); ("y", "20"); ("w", "5"); ("h", "8")]];
      notehead_inter ].

Definition q (t : string) : string :=
  ET.qualified "http://www.w3.org/2001/MUSICxml" t.

(** A MusicXML file in the namespace the parser looks for: a raised note and
    a note with a written flat. *)
Definition musicxml : Element :=
  Elem (q "score-partwise") ∅ None
    [ Elem (q "part") ∅ None
        [ Elem (q "note") ∅ None
            [ Elem (q "pitch") ∅ None
                [ Elem (q "step") ∅ (Some "F") [];
                  Elem (q "alter") ∅ (Some "1") [] ] ];
          Elem (q "note") ∅ None
            [ Elem (q "pitch") ∅ None [ Elem (q "step") ∅ (Some "B") [] ];
              Elem (q "accidental") ∅ (Some "flat") [] ] ] ].

Definition sheet : Element :=
  Elem "sheet" ∅ None
    [ Elem "page" ∅ None
        [ Elem "system" ∅ None
            [ Elem "sig" ∅ None
                [ Elem "inters" ∅ None
                    [ Elem "head" (attrs [("shape", "NOTEHEAD_BLACK")]) None
                        [bounds [("x", "30"); ("y", "40"); ("w", "12"); ("h", "10")]];
                      Elem "key-alter" (attrs [("shape", "FLAT")]) None
                        [bounds [("x", "5"); ("y", "6")]];
                      Elem "inter" (attrs [("shape", "SHARP")]) None
                        [bounds [("x", "10"); ("y", "20"); ("w", "5"); ("h", "8")]];
                      Elem "inter" (attrs [("shape", "sharp")]) None
                        [bounds [("x", "1"); ("y", "2"); ("w", "3"); ("h", "4")]] ] ] ] ] ].

Definition archive : list (Path * ZipMember) :=
  [ (["book.xml"], ZOther);
    (["sheet#1"; "sheet#1.xml"], ZXml sheet);
    (["sheet#1"; "BINARY.png"], ZOther) ].

(** A recogniser that writes fixed results into the directory named after
    [-output]; any other command exits with code 1. *)
Definition recognizer (cmd : list string) (env : gmap string string)
    (timeout : option Z) (files : FS) : ProcOutcome :=
  match cmd with
  | [_; "-batch"; "-export"; "-output"; out; img] =>
      let output_dir := PurePath.of_string out in
      let project := PurePath.stem (PurePath.of_string img) in
      Completed 0 "" ""
        (<[output_dir </> project </> (project +:+ ".xml") := File (XmlDoc musicxml)]>
           (<[output_dir </> project </> (project +:+ ".omr") := File (XmlDoc book)]>
              (<[output_dir </> (project +:+ ".omr") := File (ZipData archive None)]>
                 files)))
  | _ => Completed 1 "" "" files
  end.

Definition platform : Platform := {|
  py_int := decimal;
  py_float := fun s => z ← decimal s; float_of_digit z;
  subprocess_run := recognizer;
  save_error := fun _ _ => None;
  pw_home := None;
  stack_lines := fun _ => ["  File music_symbol_detector_v2.py, in main"]
|}.

(** A platform whose child processes never finish in time. *)
Definition stalled : Platform := {|
  py_int := decimal;
  py_float := fun s => z ← decimal s; float_of_digit z;
  subprocess_run := fun _ _ _ files => Expired files;
  save_error := fun _ _ => None;
  pw_home := None;
  stack_lines := fun _ => ["  File music_symbol_detector_v2.py, in main"]
|}.

(** A platform whose child processes exit with code 2 and change nothing. *)
Definition failing : Platform := {|
  py_int := decimal;
  py_float := fun s => z ← decimal s; float_of_digit z;
  subprocess_run := fun _ _ _ files => Completed 2 "" "no java" files;
  save_error := fun _ _ => None;
  pw_home := None;
  stack_lines := fun _ => ["  File music_symbol_detector_v2.py, in main"]
|}.

(** A recogniser that writes its results for [scan.png] whatever it is asked,
    and touches nothing else. *)
Definition tidy : Platform := {|
  py_int := decimal;
  py_float := fun s => z ← decimal s; float_of_digit z;
  subprocess_run := fun _ _ _ files =>
    Completed 0 "" ""
      (<[["audiveris_output"; "scan"; "scan.xml"] := File (XmlDoc musicxml)]>
         (<[["audiveris_output"; "scan"; "scan.omr"] := File (XmlDoc book)]>
            (<[["audiveris_output"; "scan.omr"] := File (ZipData archive None)]>
               files)));
  save_error := fun _ _ => None;
  pw_home := None;
  stack_lines := fun _ => ["  File music_symbol_detector_v2.py, in main"]
|}.

Definition page : Image := mkImage 600 400 (Source "page").

(** Two sharps and a flat, without boxes. *)
Definition three_records : list Dict :=
  [ <["type" := VStr "sharp"]> ∅; <["type" := VStr "flat"]> ∅;
    <["type" := VStr "sharp"]> ∅ ].

(** A world with one image. *)
Definition world0 : World :=
  mkWorld (<[["scan.png"] := File (ImageData page None)]> ∅) ∅ [] [] [].

(** A world with a MusicXML file and no book file beside it. *)
Definition world_xml : World :=
  mkWorld (<[["out"; "score"; "score.xml"] := File (XmlDoc musicxml)]> ∅)
          ∅ [] [] [].

(** A world whose book file is [bad_book]. *)
Definition world_bad : World :=
  mkWorld (<[["out"; "score"; "score.omr"] := File (XmlDoc bad_book)]> ∅)
          ∅ [] [] [].

(** A world whose book file is [half_book]. *)
Definition world_half : World :=
  mkWorld (<[["out"; "score"; "score.omr"] := File (XmlDoc half_book)]> ∅)
          ∅ [] [] [].

End Demo.

(** ** Vocabulary of the statements *)

(** The four symbol types. *)
Definition target_types : list string := ["sharp"; "flat"; "natural"; "notehead"].

(** A 4-tuple of integers. *)
Definition box4 (a b c d : Z) : PyVal := VTuple [VInt a; VInt b; VInt c; VInt d].

(** A uniform symbol record: a target type and a box of four integers. *)
Definition uniform (d : Dict) : Prop :=
  (∃ t, d !! "type" = Some (VStr t) ∧ t ∈ target_types)
  ∧ ∃ x0 y0 x1 y1, d !! "bbox" = Some (box4 x0 y0 x1 y1).

(** The integer that [int(elem.get(key, dflt))] stands for: the attribute read
    as an integer, or [dflt] when the attribute is absent. *)
Definition int_value `{Platform} (e : Element) (key : string) (dflt z : Z) : Prop :=
  match attrib e !! key with
  | Some s => py_int s = Some z
  | None => z = dflt
  end.

(** The coordinate attributes of the [bounds] child of [e] that are present
    are integers: no loop body raises on [e]. *)
Definition readable `{Platform} (e : Element) : Prop :=
  ∀ bounds key s,
    ET.find "bounds" e = Some bounds →
    key ∈ ["x"; "y"; "w"; "h"] →
    attrib bounds !! key = Some s →
    is_Some (py_int s).

(** The frame after [symbols.append(d)]. *)
Definition appended (fr : Frame) (d : Dict) : Frame :=
  mkFrame (symbols fr ++ [d]) (world fr).

(** Colour and label of a symbol type as the specification lists them. *)
Definition claimed_style (t : string) : option (string * string) :=
  if String.eqb t "sharp" then Some ("#FF0000", "#")
  else if String.eqb t "flat" then Some ("#00FF00", "b")
  else if String.eqb t "natural" then Some ("#0000FF", "n")
  else if String.eqb t "notehead" then Some ("#FF00FF", "o")
  else None.

(** The [bbox] field of a symbol record, when present, is [None], empty or a
    box of four integers. *)
Definition bbox_field_ok (d : Dict) : Prop :=
  match d !! "bbox" with
  | None => True
  | Some v => v = VNone ∨ v = VTuple [] ∨ ∃ a b c e, v = box4 a b c e
  end.

(** The record is one for which the specification expects a drawing: a target
    type and a non-empty box. *)
Definition to_draw (d : Dict) (t : string) (a b c e : Z) : Prop :=
  d !! "type" = Some (VStr t) ∧ t ∈ target_types
  ∧ d !! "bbox" = Some (box4 a b c e).

(** The image [img] with the calls [cmds] drawn over it, in order. *)
Definition annotated (img : Image) (cmds : list DrawCmd) : Image :=
  mkImage (width img) (height img) (List.fold_left Drawn cmds (pixels img)).

(** The output path [process_image] works with. *)
Definition chosen_output (image_path : Path) (output_path : option Path) : Path :=
  match output_path with
  | Some p => p
  | None => V1.default_output image_path
  end.

(** A symbol record as the drawing loop takes it: it has a type, and its
    [bbox] field is of the kinds above. *)
Definition drawable (d : Dict) : Prop := is_Some (d !! "type") ∧ bbox_field_ok d.

(** The corners of the box of a record, when it has four, are in order. *)
Definition ordered_box (d : Dict) : Prop :=
  ∀ a b c e, d !! "bbox" = Some (box4 a b c e) → a ≤ c ∧ b ≤ e.

(** The three calls for a symbol: the rectangle around the box, the filled
    rectangle behind the label and the label, the last two at [(x, y)]. *)
Definition label_calls (box : PyVal) (x y : Z) (color label : string) (font : Font)
    : list DrawCmd :=
  [ DrawRectangle (BoxOf box) (Some color) None 3;
    DrawRectangle (TextBBox (VInt x) (VInt y) label font) None (Some color) 1;
    DrawText (VInt x) (VInt y) label "white" font ].

(** The row of the label for a box whose upper edge is at [y], in v1 and in
    v2. *)
Definition row_v1 (y : Z) : Z := y - 25.
Definition row_v2 (y : Z) : Z := Z.max (y - 30) 0.

(** The calls [g] are what the specification has drawn for the record [d]:
    the three calls in the colour and with the label of its type when it is
    one to draw, nothing otherwise. *)
Definition drawn (row : Z → Z) (font : Font) (d : Dict) (g : list DrawCmd) : Prop :=
  (∀ t a b c e, to_draw d t a b c e →
     ∃ color label,
       claimed_style t = Some (color, label)
       ∧ g = label_calls (box4 a b c e) a (row b) color label font)
  ∧ ((¬ ∃ t a b c e, to_draw d t a b c e) → g = []).

(** The PATH lookup of [_find_audiveris] fails: [which] does not exit with
    code 0. *)
Definition which_fails `{Platform} (w : World) : Prop :=
  match subprocess_run ["which"; "audiveris"] (environ w) None (fs w) with
  | Completed returncode _ _ _ => returncode ≠ 0
  | Expired _ => True
  | NotStarted _ => True
  end.

(** The file system a child process leaves behind. *)
Definition fs_after (o : ProcOutcome) (before : FS) : FS :=
  match o with
  | Completed _ _ _ fs' => fs'
  | Expired fs' => fs'
  | NotStarted _ => before
  end.

(** No child process touches the file at [p]. *)
Definition children_preserve `{Platform} (p : Path) : Prop :=
  ∀ cmd env timeout files,
    fs_after (subprocess_run cmd env timeout files) files !! p = files !! p.

(** The three accidentals among the symbol types. *)
Definition accidental_types : list string := ["sharp"; "flat"; "natural"].

(** [adds k m]: whatever [m] does and however it ends, it appends at most
    [k] records to the local list and removes none. *)
Definition adds (k : nat) {A} (m : M A) : Prop :=
  ∀ fr, ∃ l, symbols (fst (m fr)) = symbols fr ++ l ∧ (length l ≤ k)%nat.

(** The number of elements the loop of [_parse_omr_book] visits in the file
    at [p]: the [inter] elements of an XML file, none of any other file. *)
Definition book_elements (files : FS) (p : Path) : nat :=
  match files !! p with
  | Some (File (XmlDoc root)) => length (ET.descendants "inter" root)
  | _ => 0%nat
  end.

(** The number of elements the three loops of [_parse_sheet_xml] visit. *)
Definition sheet_elements (files : FS) (p : Path) : nat :=
  match files !! p with
  | Some (File (XmlDoc root)) =>
      match ET.find_desc_child "sig" "inters" root with
      | Some inters =>
          (length (ET.descendants "head" inters)
           + length (ET.descendants "key-alter" inters)
           + length (ET.descendants "inter" inters))%nat
      | None => 0%nat
      end
  | _ => 0%nat
  end.

(** A record whose [type] is a string. *)
Definition has_str_type (d : Dict) : Prop := ∃ t, d !! "type" = Some (VStr t).

(** The label of a drawing call, when it has one, starts at or below the top
    edge of the image. *)
Definition label_on_canvas (c : DrawCmd) : Prop :=
  match c with
  | DrawRectangle (TextBBox _ y _ _) _ _ _ => ∃ z, y = VInt z ∧ 0 ≤ z
  | DrawRectangle (BoxOf _) _ _ _ => True
  | DrawText _ y _ _ _ => ∃ z, y = VInt z ∧ 0 ≤ z
  end.

(** The file system after [Path.mkdir(exist_ok=True)] went through. *)
Definition made_dir (p : Path) (files : FS) : FS :=
  match files !! p with
  | None => <[p := Dir]> files
  | Some _ => files
  end.

(** Nothing was written to the standard error stream. *)
Definition same_errors : relation World := λ w w', errors w' = errors w.

(** The number of drawing calls and resamplings a picture went through. *)
Fixpoint layers (px : Pixels) : nat :=
  match px with
  | Source _ => 0%nat
  | Drawn under _ => S (layers under)
  | Resampled src _ _ _ => S (layers src)
  end.

(** The sum of the counts of a [counts] dict. *)
Definition total_count (counts : list (string * Z)) : Z :=
  List.fold_right (λ kv acc, snd kv + acc) 0 counts.

(** The order of [sorted(counts.items())] on items with different keys. *)
Definition by_key (a b : string * Z) : Prop := String.leb (fst a) (fst b) = true.

(** The first component of a path does not start with [sheet#]. *)
Definition not_sheet (k : Path) : Prop :=
  match k with
  | n :: _ => String.prefix "sheet#" n = false
  | [] => True
  end.

(** No member of the archive is unpacked into, or as, a top-level entry
    whose name starts with [sheet#]. *)
Definition no_sheet_entry (members : list (Path * ZipMember)) : Prop :=
  Forall (λ member, not_sheet (sanitized (fst member))) members.

(** The directory the recogniser is told to write to. *)
Definition output_dir (image_path : Path) : Path :=
  PurePath.parent image_path </> "audiveris_output".

(** The command line of the recogniser, without the interpreter. *)
Definition recognizer_args (exe : string) (image_path : Path) : list string :=
  [ exe; "-batch"; "-export"; "-output";
    PurePath.str (output_dir image_path); PurePath.str image_path ].

(** The command line of v1: a [.jar] file is handed to [java -jar]. *)
Definition command_v1 (exe : string) (image_path : Path) : list string :=
  if Str.endswith exe ".jar" then "java" :: "-jar" :: recognizer_args exe image_path
  else recognizer_args exe image_path.

(** [Path.mkdir(exist_ok=True)] goes through at [p]: no file is in the way. *)
Definition can_mkdir (files : FS) (p : Path) : Prop :=
  match files !! p with
  | Some (File _) => False
  | _ => True
  end.

(** The file v2 expects from the recogniser. *)
Definition omr_file_v2 (image_path : Path) : Path :=
  output_dir image_path </> (PurePath.stem image_path +:+ ".omr").

(** The two files v1 looks for, in this order. *)
Definition mxl_file (image_path : Path) : Path :=
  output_dir image_path </> PurePath.stem image_path
    </> (PurePath.stem image_path +:+ ".mxl").

Definition xml_file (image_path : Path) : Path :=
  output_dir image_path </> PurePath.stem image_path
    </> (PurePath.stem image_path +:+ ".xml").

(** ** Frame relations kept by a computation *)

(** [keeps R m]: whatever [m] does and however it ends, the frame it leaves is
    related by [R] to the frame it started from. *)
Definition keeps {A} (R : relation Frame) (m : M A) : Prop :=
  ∀ fr, R fr (fst (m fr)).

(** [reads m]: [m] leaves the frame as it is. *)
Definition reads {A} (m : M A) : Prop := ∀ fr, fst (m fr) = fr.

(** A relation on worlds, as a relation on frames. *)
Definition world_rel (Rw : relation World) : relation Frame :=
  λ fr fr', Rw (world fr) (world fr').

(** The world is the same. *)
Definition same_world : relation World := λ w w', w' = w.

(** The node [n] at path [p], if there, is still there. *)
Definition stays (p : Path) (n : Node) : relation World :=
  λ w w', fs w !! p = Some n → fs w' !! p = Some n.

(** The local list [symbols] grew by records that satisfy [P]. *)
Definition grew (P : Dict → Prop) : relation Frame :=
  λ fr fr', ∃ l, symbols fr' = symbols fr ++ l ∧ Forall P l.

(** A record as the MusicXML scan builds it: a target type and the note. *)
Definition scanned (d : Dict) : Prop :=
  ∃ t, d !! "type" = Some (VStr t) ∧ t ∈ target_types.

Section Keeps.
Context (R : relation Frame) `{!PreOrder R}.

Lemma reads_keeps {A} (m : M A) : reads m → keeps R m.
Proof. intros Hm fr. rewrite Hm. reflexivity. Qed.

Lemma keeps_ret {A} (a : A) : keeps R (ret a).
Proof. intros fr. reflexivity. Qed.

Lemma keeps_raise {A} c msg : keeps R (@raise A c msg).
Proof. intros fr. reflexivity. Qed.

Lemma keeps_lift {A} (o : Outcome A) : keeps R (lift o).
Proof. intros fr. reflexivity. Qed.

Lemma keeps_bind {A B} (m : M A) (k : A → M B) :
  keeps R m → (∀ a, keeps R (k a)) → keeps R (bind m k).
Proof.
  intros Hm Hk fr. unfold bind. specialize (Hm fr).
  destruct (m fr) as [fr' [a|e]]; simpl in *; [|done].
  etransitivity; [exact Hm | apply Hk].
Qed.

Lemma keeps_try_except {A} (m : M A) (h : Exn → M A) :
  keeps R m → (∀ e, keeps R (h e)) → keeps R (try_except m h).
Proof.
  intros Hm Hh fr. unfold try_except. specialize (Hm fr).
  destruct (m fr) as [fr' [a|e]]; simpl in *; [done|].
  etransitivity; [exact Hm | apply Hh].
Qed.

Lemma keeps_try_except_class {A} c (m h : M A) :
  keeps R m → keeps R h → keeps R (try_except_class c m h).
Proof.
  intros Hm Hh fr. unfold try_except_class. specialize (Hm fr).
  destruct (m fr) as [fr' [a|[c' msg]]]; simpl in *; [done|].
  destruct (decide (c' = c)); simpl; [|done].
  etransitivity; [exact Hm | apply Hh].
Qed.

Lemma keeps_for_each {A} (l : list A) (body : A → M unit) :
  (∀ x, keeps R (body x)) → keeps R (for_each l body).
Proof.
  intros Hb. induction l as [|x l IH]; simpl.
  - apply keeps_ret.
  - apply keeps_bind; [apply Hb | intros _; exact IH].
Qed.

End Keeps.

Lemma reads_ret {A} (a : A) : reads (ret a).
Proof. intros fr. reflexivity. Qed.

Lemma reads_raise {A} c msg : reads (@raise A c msg).
Proof. intros fr. reflexivity. Qed.

Lemma reads_lift {A} (o : Outcome A) : reads (lift o).
Proof. intros fr. reflexivity. Qed.

Lemma reads_get_world : reads get_world.
Proof. intros fr. reflexivity. Qed.

Lemma reads_get_symbols : reads get_symbols.
Proof. intros fr. reflexivity. Qed.

Lemma reads_bind {A B} (m : M A) (k : A → M B) :
  reads m → (∀ a, reads (k a)) → reads (bind m k).
Proof.
  intros Hm Hk fr. unfold bind. specialize (Hm fr).
  destruct (m fr) as [fr' [a|e]]; simpl in *; subst; [apply Hk | done].
Qed.

(** Unfolds the monadic structure of a goal [reads m] and decides it. *)
Ltac reads_tac :=
  repeat first
    [ apply reads_ret | apply reads_raise | apply reads_lift
    | apply reads_get_world | apply reads_get_symbols
    | apply reads_bind; [|intro]
    | match goal with
      | |- reads (match ?x with _ => _ end) => destruct x
      end ].

Section Reads.
Context `{Platform}.

Lemma reads_path_exists p : reads (path_exists p).
Proof. unfold path_exists. reads_tac. Qed.

Lemma reads_ET_parse p : reads (ET_parse p).
Proof. unfold ET_parse. reads_tac. Qed.

Lemma reads_int_attr e key dflt : reads (int_attr e key dflt).
Proof. unfold int_attr. reads_tac. Qed.

Lemma reads_float_text e : reads (float_text e).
Proof. unfold float_text. reads_tac. Qed.

Lemma reads_lower_text e : reads (lower_text e).
Proof. unfold lower_text. reads_tac. Qed.

Lemma reads_Image_open p : reads (Image_open p).
Proof. unfold Image_open. reads_tac. Qed.

Lemma reads_ZipFile_read p : reads (ZipFile_read p).
Proof. unfold ZipFile_read. reads_tac. Qed.

Lemma reads_glob_prefix prefix : reads (glob_prefix prefix).
Proof. unfold glob_prefix. reads_tac. Qed.

Lemma reads_truetype size : reads (truetype size).
Proof. unfold truetype. reads_tac. Qed.

End Reads.

(** Unfolds the monadic structure of a goal [keeps R m]. *)
Ltac keeps_tac :=
  repeat first
    [ apply keeps_ret | apply keeps_raise | apply keeps_lift
    | apply keeps_bind; [|intro]
    | apply keeps_try_except; [|intro]
    | apply keeps_try_except_class
    | apply keeps_for_each; intro
    | match goal with
      | |- keeps _ (match ?x with _ => _ end) => destruct x
      | |- keeps _ (let '(_, _) := ?x in _) => destruct x
      end ].

#[global] Instance same_world_preorder : PreOrder same_world.
Proof.
  split; [intros w; reflexivity |].
  intros a b c Hab Hbc. unfold same_world in *. congruence.
Qed.

#[global] Instance stays_preorder p n : PreOrder (stays p n).
Proof.
  split; [intros w Hw; exact Hw |].
  intros a b c Hab Hbc Ha. apply Hbc, Hab, Ha.
Qed.

#[global] Instance world_rel_preorder Rw `{!PreOrder Rw} : PreOrder (world_rel Rw).
Proof.
  split; [intros fr; unfold world_rel; reflexivity |].
  intros a b c Hab Hbc. unfold world_rel in *. by etransitivity.
Qed.

#[global] Instance grew_preorder P : PreOrder (grew P).
Proof.
  split.
  - intros fr. exists []. by rewrite app_nil_r.
  - intros a b c [l1 [H1 F1]] [l2 [H2 F2]]. exists (l1 ++ l2).
    rewrite H2, H1, app_assoc. split; [done | by apply Forall_app].
Qed.

Section KeepsPrimitives.
Context `{Platform}.

(** What touches only the local list keeps every relation on worlds. *)
Lemma world_rel_same_world Rw `{!PreOrder Rw} {A} (m : M A) :
  (∀ fr, world (fst (m fr)) = world fr) → keeps (world_rel Rw) m.
Proof. intros Hm fr. unfold world_rel. rewrite Hm. reflexivity. Qed.

Lemma keeps_call_world Rw {A} (callee : M A) :
  keeps (world_rel Rw) callee → keeps (world_rel Rw) (call callee).
Proof.
  intros Hc fr. unfold call, world_rel. specialize (Hc (mkFrame [] (world fr))).
  unfold world_rel in Hc. by destruct (callee _) as [fr' r].
Qed.

Lemma keeps_call_grew P {A} (callee : M A) : keeps (grew P) (call callee).
Proof.
  intros fr. unfold call. destruct (callee _) as [fr' r]. simpl.
  exists []. by rewrite app_nil_r.
Qed.

Lemma keeps_append_grew (P : Dict → Prop) d : P d → keeps (grew P) (append d).
Proof. intros Hd fr. exists [d]. simpl. by repeat constructor. Qed.

Lemma keeps_extend_grew (P : Dict → Prop) l : Forall P l → keeps (grew P) (extend l).
Proof. intros Hl fr. by exists l. Qed.

Lemma keeps_print_grew P line : keeps (grew P) (print line).
Proof. intros fr. exists []. simpl. by rewrite app_nil_r. Qed.

Lemma keeps_print_exc_grew P e : keeps (grew P) (print_exc e).
Proof. intros fr. exists []. simpl. by rewrite app_nil_r. Qed.

Lemma keeps_print_stays p n line : keeps (world_rel (stays p n)) (print line).
Proof. intros fr Hp. exact Hp. Qed.

Lemma keeps_print_exc_stays p n e : keeps (world_rel (stays p n)) (print_exc e).
Proof. intros fr Hp. exact Hp. Qed.

Lemma keeps_in_temporary_directory_grew P {A} content (block : M A) :
  keeps (grew P) block → keeps (grew P) (in_temporary_directory content block).
Proof.
  intros Hb fr. unfold in_temporary_directory.
  specialize (Hb (mkFrame (symbols fr) (with_fs content (world fr)))).
  by destruct (block _) as [fr' r].
Qed.

Lemma keeps_in_temporary_directory_stays p n {A} content (block : M A) :
  keeps (world_rel (stays p n)) (in_temporary_directory content block).
Proof.
  intros fr. unfold in_temporary_directory.
  destruct (block _) as [fr' r]. intros Hp. exact Hp.
Qed.

End KeepsPrimitives.

(** ** Classification of shapes *)

(** C8.  For every shape string, the classification written inline in the
    loop of [_parse_omr_book] (v1) gives the same symbol type, or the same
    absence of one, as [_classify_symbol] (v2). *)
Theorem classification_agrees (shape : string) :
  V1.book_symbol_type shape = V2._classify_symbol shape.
Proof.
  unfold V1.book_symbol_type, V2._classify_symbol.
  destruct (Str.contains "sharp" (Str.lower shape)); [reflexivity|].
  destruct (Str.contains "flat" (Str.lower shape)); [reflexivity|].
  destruct (Str.contains "natural" (Str.lower shape)); [reflexivity|].
  destruct (Str.contains "notehead" (Str.lower shape) || Str.contains "head" (Str.lower shape));
    reflexivity.
Qed.

Lemma classified_is_target shape t :
  V2._classify_symbol shape = Some t → t ∈ target_types.
Proof.
  unfold V2._classify_symbol, target_types.
  repeat match goal with
         | |- context [if ?b then _ else _] => destruct b
         end; intros [= <-]; set_solver.
Qed.

Lemma target_nonempty t : t ∈ target_types → String.eqb t "" = false.
Proof.
  unfold target_types. rewrite !elem_of_cons, elem_of_nil.
  intros [->|[->|[->|[->|[]]]]]; reflexivity.
Qed.

(** ** Errors raised before anything is done *)

(** C9.  For an input path at which nothing exists, [process_image] (v1 and
    v2) raises [FileNotFoundError] and leaves the world as it was: no output
    path was computed, nothing was printed, no directory made, no process
    started, no file written. *)
Theorem process_image_missing_input `{Platform}
    (self : option string) (image_path : Path) (output_path : option Path)
    (w : World) :
  fs w !! image_path = None →
  let missing :=
    mkExn FileNotFoundError ("Image not found: " +:+ PurePath.str image_path) in
  run (V1.process_image self image_path output_path) w = (w, Raise missing)
  ∧ run (V2.process_image self image_path output_path) w = (w, Raise missing).
Proof.
  intros Hmissing missing.
  unfold run, V1.process_image, V2.process_image, call, bind, path_exists,
    get_world, ret, raise.
  simpl. rewrite Hmissing. simpl. split; reflexivity.
Qed.

Lemma process_image_missing_input_witness :
  fs Demo.world0 !! ["nope.png"] = None
  ∧ run (@V1.process_image Demo.platform (Some "audiveris") ["nope.png"] None)
        Demo.world0
    = (Demo.world0,
       Raise (mkExn FileNotFoundError "Image not found: nope.png")).
Proof.
  split; [reflexivity |].
  apply (@process_image_missing_input Demo.platform (Some "audiveris")
           ["nope.png"] None Demo.world0).
  reflexivity.
Defined.

(** C7.  When no Audiveris path is supplied and none is found (v1: none of
    the candidate paths exists and the [which] lookup fails; v2: the
    constructor received [None]), the detector's path is [None], and
    [_run_audiveris] on such a detector raises [RuntimeError] and leaves the
    world as it was: no output directory was made and no process started. *)
Theorem no_audiveris_raises `{Platform} (w : World) (image_path : Path) :
  List.find (λ p, V1.os_path_exists p w) (V1.possible_paths w) = None →
  which_fails w →
  (∃ w1, run (V1.__init__ None) w = (w1, Return None))
  ∧ (∀ w2, run (V1._run_audiveris None image_path) w2
           = (w2, Raise (mkExn RuntimeError V1.NOT_FOUND)))
  ∧ run (V2.__init__ None) w = (w, Return None)
  ∧ (∀ w2, run (V2._run_audiveris None image_path) w2
           = (w2, Raise (mkExn RuntimeError "Audiveris path not provided"))).
Proof.
  intros Hnone Hwhich. repeat split; try reflexivity.
  unfold which_fails in Hwhich.
  unfold run, V1.__init__, V1._find_audiveris, call, bind, get_world.
  cbn [world symbols]. rewrite Hnone.
  unfold try_except, bind, run_process, bind, get_world, spawn. simpl.
  destruct (subprocess_run _ _ _ _) as [rc out err fs'| fs' | e]; simpl.
  - destruct (rc =? 0) eqn:Hrc; [apply Z.eqb_eq in Hrc; done|].
    eexists. reflexivity.
  - eexists. reflexivity.
  - eexists. reflexivity.
Qed.

Lemma no_audiveris_raises_witness :
  List.find (λ p, @V1.os_path_exists p Demo.world0)
            (@V1.possible_paths Demo.platform Demo.world0) = None
  ∧ @which_fails Demo.platform Demo.world0
  ∧ run (@V1._run_audiveris Demo.platform None ["scan.png"]) Demo.world0
    = (Demo.world0, Raise (mkExn RuntimeError V1.NOT_FOUND)).
Proof.
  assert (Hfind : List.find (λ p, @V1.os_path_exists p Demo.world0)
            (@V1.possible_paths Demo.platform Demo.world0) = None)
    by reflexivity.
  assert (Hwhich : @which_fails Demo.platform Demo.world0)
    by (vm_compute; discriminate).
  split; [exact Hfind|]. split; [exact Hwhich|].
  apply (@no_audiveris_raises Demo.platform Demo.world0 ["scan.png"] Hfind Hwhich).
Defined.

(** ** Bounding boxes read from [bounds] elements *)

Lemma int_attr_value `{Platform} e key dflt z fr :
  int_value e key dflt z → int_attr e key dflt fr = (fr, Return z).
Proof.
  unfold int_value, int_attr. destruct (attrib e !! key) as [s|].
  - intros ->. reflexivity.
  - intros ->. reflexivity.
Qed.

Lemma book_symbol_type_target shape t :
  V1.book_symbol_type shape = Some t → t ∈ target_types.
Proof.
  unfold V1.book_symbol_type, target_types.
  repeat match goal with
         | |- context [if ?b then _ else _] => destruct b
         end; intros [= <-]; set_solver.
Qed.

(** Let [e] be an element with a [bounds] child whose attributes [x], [y],
    [w], [h] are integers, an absent [x] or [y] counting as 0 and an absent
    [w] or [h] as 20.  Then each loop body that recognises [e] appends one
    record, with the recognised type and the box [(x, y, x + w, y + h)]. *)
Lemma loop_body_appends `{Platform} (e bounds : Element) (x y w h : Z) (fr : Frame) :
  ET.find "bounds" e = Some bounds →
  int_value bounds "x" 0 x →
  int_value bounds "y" 0 y →
  int_value bounds "w" 20 w →
  int_value bounds "h" 20 h →
  let shape := ET.get "shape" "" e in
  let appends (step : Element → M unit) (t : string) :=
    ∃ d, step e fr = (appended fr d, Return tt)
         ∧ d !! "type" = Some (VStr t)
         ∧ d !! "bbox" = Some (box4 x y (x + w) (y + h)) in
  (∀ t, V1.book_symbol_type shape = Some t → appends V1.book_inter t)
  ∧ appends V2.sheet_head "notehead"
  ∧ (∀ t, V2._classify_symbol shape = Some t → appends V2.sheet_key_alter t)
  ∧ (∀ t, V2.accidental_shape shape = true →
          V2._classify_symbol shape = Some t → appends V2.sheet_inter t).
Proof.
  intros Hb Hx Hy Hw Hh shape appends. subst appends shape.
  repeat split.
  - intros t Ht. unfold V1.book_inter. rewrite Ht.
    rewrite (target_nonempty t (book_symbol_type_target _ _ Ht)), Hb.
    unfold bind.
    rewrite (int_attr_value _ _ _ _ _ Hx), (int_attr_value _ _ _ _ _ Hy),
      (int_attr_value _ _ _ _ _ Hw), (int_attr_value _ _ _ _ _ Hh).
    eexists. split; [reflexivity|]. split; reflexivity.
  - unfold V2.sheet_head. rewrite Hb. unfold bind.
    rewrite (int_attr_value _ _ _ _ _ Hx), (int_attr_value _ _ _ _ _ Hy),
      (int_attr_value _ _ _ _ _ Hw), (int_attr_value _ _ _ _ _ Hh).
    eexists. split; [reflexivity|]. split; reflexivity.
  - intros t Ht. unfold V2.sheet_key_alter, V2.classified. rewrite Hb, Ht.
    rewrite (target_nonempty t (classified_is_target _ _ Ht)).
    unfold bind.
    rewrite (int_attr_value _ _ _ _ _ Hx), (int_attr_value _ _ _ _ _ Hy),
      (int_attr_value _ _ _ _ _ Hw), (int_attr_value _ _ _ _ _ Hh).
    eexists. split; [reflexivity|]. split; reflexivity.
  - intros t Hacc Ht. unfold V2.sheet_inter, V2.classified. rewrite Hacc, Hb, Ht.
    rewrite (target_nonempty t (classified_is_target _ _ Ht)).
    unfold bind.
    rewrite (int_attr_value _ _ _ _ _ Hx), (int_attr_value _ _ _ _ _ Hy),
      (int_attr_value _ _ _ _ _ Hw), (int_attr_value _ _ _ _ _ Hh).
    eexists. split; [reflexivity|]. split; reflexivity.
Qed.

(** ** What is drawn for a symbol *)

Lemma claimed_style_target t :
  t ∈ target_types → ∃ color label, claimed_style t = Some (color, label).
Proof.
  unfold target_types. rewrite !elem_of_cons, elem_of_nil.
  intros [->|[->|[->|[->|[]]]]]; eexists _, _; reflexivity.
Qed.

(** The tables of both scripts are the table of the specification. *)
Lemma tables_are_claimed t :
  match claimed_style t with
  | Some (color, label) =>
      V1.TARGET_SYMBOLS !! t = Some label ∧ V1.COLORS !! t = Some color
      ∧ V2.TARGET_SYMBOLS !! t = Some label ∧ V2.COLORS !! t = Some color
  | None => V1.TARGET_SYMBOLS !! t = None ∧ V2.TARGET_SYMBOLS !! t = None
  end.
Proof.
  unfold claimed_style.
  destruct (String.eqb_spec t "sharp") as [->|H1]; [by vm_compute|].
  destruct (String.eqb_spec t "flat") as [->|H2]; [by vm_compute|].
  destruct (String.eqb_spec t "natural") as [->|H3]; [by vm_compute|].
  destruct (String.eqb_spec t "notehead") as [->|H4]; [by vm_compute|].
  unfold V1.TARGET_SYMBOLS, V2.TARGET_SYMBOLS.
  rewrite !lookup_insert_ne, lookup_empty by congruence. done.
Qed.

Lemma claimed_is_target t color label :
  claimed_style t = Some (color, label) → t ∈ target_types.
Proof.
  unfold claimed_style, target_types. intros Hstyle.
  repeat match type of Hstyle with
         | context [String.eqb ?x ?y] =>
             destruct (String.eqb_spec x y) as [->|?]; [set_solver|]
         end.
  discriminate.
Qed.

Lemma rectangle_ordered (a b c e : Z) :
  a ≤ c → b ≤ e → rectangle (box4 a b c e) = Return tt.
Proof.
  intros Hac Hbe. unfold box4, rectangle, int_of, ordered_corners.
  by rewrite (proj2 (Z.ltb_ge c a) Hac), (proj2 (Z.ltb_ge e b) Hbe).
Qed.

Lemma rectangle_inverted (a b c e : Z) :
  c < a ∨ e < b → ∃ msg, rectangle (box4 a b c e) = Raise (mkExn ValueError msg).
Proof.
  intros Hinv. unfold box4, rectangle, int_of, ordered_corners.
  destruct (Z.ltb_spec c a); [by eexists|].
  destruct (Z.ltb_spec e b); [by eexists | lia].
Qed.

Lemma drawn_nothing row font d :
  (¬ ∃ t a b c e, to_draw d t a b c e) → drawn row font d [].
Proof.
  intros Hno. split; [|done].
  intros t a b c e Hdraw. exfalso. apply Hno. by exists t, a, b, c, e.
Qed.

(** The drawing step of either script on a record whose box is in order. *)
Lemma draw_symbol_drawn (font : Font) (d : Dict) :
  drawable d → ordered_box d →
  ∃ g1 g2,
    V1.draw_symbol font d = Return g1 ∧ V2.draw_symbol font d = Return g2
    ∧ drawn row_v1 font d g1 ∧ drawn row_v2 font d g2.
Proof.
  intros [[ty Hty] Hok] Hord.
  unfold V1.draw_symbol, V2.draw_symbol, V1.target_label, V2.target_label,
    V1.color_of, V2.color_of.
  rewrite Hty.
  assert (Hother : (∀ t, ty ≠ VStr t) →
            ∃ g1 g2, Return [] = Return g1 ∧ Return [] = Return g2
                     ∧ drawn row_v1 font d g1 ∧ drawn row_v2 font d g2).
  { intros Hty'. exists [], []. split; [done|]. split; [done|].
    split; apply drawn_nothing; intros (t & a & b & c & e & Ht & _);
      rewrite Hty in Ht; injection Ht as ->; by eapply Hty'. }
  destruct ty as [| | |t| |]; try (apply Hother; discriminate). clear Hother.
  pose proof (tables_are_claimed t) as Htab.
  destruct (claimed_style t) as [[color label]|] eqn:Hstyle.
  - destruct Htab as (T1 & C1 & T2 & C2). rewrite T1, T2, C1, C2.
    unfold bbox_field_ok in Hok.
    destruct (d !! "bbox") as [v|] eqn:Hbox.
    + destruct Hok as [->|[->|(a & b & c & e & ->)]].
      * exists [], []. split; [done|]. split; [done|].
        split; apply drawn_nothing; intros (t' & a & b & c & e & _ & _ & Hb);
          rewrite Hbox in Hb; discriminate.
      * exists [], []. split; [done|]. split; [done|].
        split; apply drawn_nothing; intros (t' & a & b & c & e & _ & _ & Hb);
          rewrite Hbox in Hb; discriminate.
      * destruct (Hord a b c e Hbox) as [Hac Hbe].
        cbn [from_option id]. rewrite (rectangle_ordered a b c e Hac Hbe).
        eexists _, _. split; [reflexivity|]. split; [reflexivity|].
        split; (split; [|intros Hno; exfalso; apply Hno;
                         exists t, a, b, c, e; split; [done|];
                         split; [by eapply claimed_is_target | done]]);
          intros t' a' b' c' e' (Ht' & _ & Hb');
          rewrite Hty in Ht'; injection Ht' as <-;
          rewrite Hbox in Hb'; injection Hb' as <- <- <- <-;
          exists color, label; split; done.
    + exists [], []. split; [done|]. split; [done|].
      split; apply drawn_nothing; intros (t' & a & b & c & e & _ & _ & Hb);
        rewrite Hbox in Hb; discriminate.
  - destruct Htab as (T1 & T2). rewrite T1, T2.
    exists [], []. split; [done|]. split; [done|].
    split; apply drawn_nothing; intros (t' & a & b & c & e & Ht' & Htarget & _);
      rewrite Hty in Ht'; injection Ht' as <-;
      destruct (claimed_style_target t Htarget) as (? & ? & Hsome); congruence.
Qed.

(** The drawing loop of either script on records whose boxes are in order:
    the calls are those of the records, one after the other. *)
Lemma draw_loop_drawn (font : Font) (records : list Dict) :
  Forall drawable records → Forall ordered_box records →
  ∃ groups1 groups2,
    Forall2 (drawn row_v1 font) records groups1
    ∧ Forall2 (drawn row_v2 font) records groups2
    ∧ V1.draw_loop font records = Return (concat groups1)
    ∧ V2.draw_loop font records = Return (concat groups2).
Proof.
  induction 1 as [|d records Hd _ IH]; intros Hord.
  - exists [], []. by repeat split; constructor.
  - inversion Hord as [|? ? Hd_ord Hrest]; subst.
    destruct (IH Hrest) as (gs1 & gs2 & F1 & F2 & L1 & L2).
    destruct (draw_symbol_drawn font d Hd Hd_ord) as (g1 & g2 & D1 & D2 & S1 & S2).
    exists (g1 :: gs1), (g2 :: gs2).
    split; [by constructor|]. split; [by constructor|].
    cbn [V1.draw_loop V2.draw_loop concat]. by rewrite D1, D2, L1, L2.
Qed.

(** ** What the parsers collect *)

(** Decides a goal [reads m] for one of the library calls. *)
Ltac reads_leaf :=
  first [ apply reads_path_exists | apply reads_ET_parse | apply reads_int_attr
        | apply reads_float_text | apply reads_lower_text | apply reads_Image_open
        | apply reads_ZipFile_read | apply reads_glob_prefix | apply reads_truetype
        | apply reads_get_world | apply reads_get_symbols ].

(** Decides a goal [keeps (grew P) m] by the structure of [m]; goals [P d] for
    the appended records are left. *)
Create HintDb grew.

Ltac grew_tac :=
  repeat first
    [ match goal with |- PreOrder _ => typeclasses eauto end
    | solve [auto with grew nocore]
    | apply keeps_ret | apply keeps_raise | apply keeps_lift
    | apply keeps_print_grew | apply keeps_print_exc_grew
    | apply keeps_call_grew
    | apply keeps_append_grew
    | apply reads_keeps; [| reads_leaf]
    | apply keeps_bind; [| |intro]
    | apply keeps_try_except; [| |intro]
    | apply keeps_for_each; [|intro]
    | match goal with
      | |- keeps _ (match ?x with _ => _ end) => destruct x eqn:?
      end ].

Lemma uniform_record t (x y w h : Z) (rest : Dict) :
  t ∈ target_types →
  uniform (<["type" := VStr t]> (<["bbox" := box4 x y (x + w) (y + h)]> rest)).
Proof.
  intros Ht. split.
  - exists t. by rewrite lookup_insert_eq.
  - exists x, y, (x + w), (y + h).
    by rewrite lookup_insert_ne, lookup_insert_eq.
Qed.

Section Collected.
Context `{Platform}.

Lemma book_inter_grew e : keeps (grew uniform) (V1.book_inter e).
Proof.
  unfold V1.book_inter. grew_tac.
  apply uniform_record. eapply book_symbol_type_target. eassumption.
Qed.

#[local] Hint Resolve book_inter_grew : grew.

Lemma book_try_grew p : keeps (grew uniform) (V1.book_try p).
Proof. unfold V1.book_try. grew_tac. Qed.

Lemma sheet_head_grew e : keeps (grew uniform) (V2.sheet_head e).
Proof.
  unfold V2.sheet_head. grew_tac.
  apply uniform_record. unfold target_types. set_solver.
Qed.

Lemma classified_grew shape bounds : keeps (grew uniform) (V2.classified shape bounds).
Proof.
  unfold V2.classified. grew_tac.
  apply uniform_record. eapply classified_is_target. eassumption.
Qed.

#[local] Hint Resolve sheet_head_grew classified_grew : grew.

Lemma sheet_key_alter_grew e : keeps (grew uniform) (V2.sheet_key_alter e).
Proof. unfold V2.sheet_key_alter. grew_tac. Qed.

Lemma sheet_inter_grew e : keeps (grew uniform) (V2.sheet_inter e).
Proof. unfold V2.sheet_inter. grew_tac. Qed.

#[local] Hint Resolve sheet_key_alter_grew sheet_inter_grew : grew.

Lemma sheet_try_grew p : keeps (grew uniform) (V2.sheet_try p).
Proof. unfold V2.sheet_try. grew_tac. Qed.

Lemma pre_symbol_scanned t note : t ∈ target_types → scanned (V1.pre_symbol t note).
Proof. intros Ht. exists t. split; [reflexivity | exact Ht]. Qed.

Lemma note_body_grew note : keeps (grew scanned) (V1.note_body note).
Proof.
  unfold V1.note_body. grew_tac;
    apply pre_symbol_scanned; unfold target_types; set_solver.
Qed.

#[local] Hint Resolve note_body_grew : grew.

Lemma scan_musicxml_grew p : keeps (grew scanned) (V1.scan_musicxml p).
Proof. unfold V1.scan_musicxml. grew_tac. Qed.

End Collected.

(** ** Appended records are returned *)

Lemma for_each_app {A} (l1 l2 : list A) (body : A → M unit) fr :
  for_each (l1 ++ l2) body fr
  = match for_each l1 body fr with
    | (fr1, Return _) => for_each l2 body fr1
    | (fr1, Raise e) => (fr1, Raise e)
    end.
Proof.
  revert fr. induction l1 as [|x l1 IH]; intros fr; simpl; [reflexivity|].
  unfold bind. destruct (body x fr) as [fr' [[]|e]]; [apply IH | done].
Qed.

(** A record appended for an element the loop reaches stays in the list,
    however the loop goes on. *)
Lemma appended_record_kept P {A} (body : A → M unit) pre e post fr fr1 d :
  (∀ x, keeps (grew P) (body x)) →
  for_each pre body fr = (fr1, Return tt) →
  body e fr1 = (appended fr1 d, Return tt) →
  ∃ rest,
    symbols (fst (for_each (pre ++ e :: post) body fr)) = symbols fr1 ++ d :: rest.
Proof.
  intros Hb Hpre He. rewrite for_each_app, Hpre. simpl. unfold bind. rewrite He.
  destruct (keeps_for_each (grew P) post body Hb (appended fr1 d)) as (l & Hl & _).
  exists l. rewrite Hl. simpl. by rewrite <- app_assoc.
Qed.

(** The book parser returns the record of every [inter] element its loop
    reaches, also when a later element makes the loop raise. *)
Lemma book_record_returned `{Platform} w p root pre e post fr1 d :
  fs w !! p = Some (File (XmlDoc root)) →
  ET.descendants "inter" root = pre ++ e :: post →
  for_each pre V1.book_inter (mkFrame [] w) = (fr1, Return tt) →
  V1.book_inter e fr1 = (appended fr1 d, Return tt) →
  ∃ w' rest,
    run (V1._parse_omr_book p) w = (w', Return (symbols fr1 ++ d :: rest)).
Proof.
  intros Hfile Hinters Hpre He.
  destruct (appended_record_kept uniform V1.book_inter pre e post _ _ _
              book_inter_grew Hpre He) as (rest & Hrest).
  assert (Hparse : ET_parse p (mkFrame [] w) = (mkFrame [] w, Return root)).
  { unfold ET_parse, bind, get_world. cbn [world]. by rewrite Hfile. }
  unfold run, V1._parse_omr_book, call, bind, set_symbols, try_except,
    get_symbols, V1.book_try, V1.book_except.
  cbn [world symbols]. unfold bind. rewrite Hparse, Hinters.
  destruct (for_each (pre ++ e :: post) V1.book_inter _) as [fr2 [[]|err]];
    simpl in Hrest; simpl; rewrite Hrest; by eexists _, _.
Qed.

(** ** What the parsers leave alone *)

Section WorldKept.
Context `{Platform} (Rw : relation World) `{!PreOrder Rw}.

Lemma keeps_append_world d : keeps (world_rel Rw) (append d).
Proof. by apply world_rel_same_world. Qed.

Lemma keeps_extend_world l : keeps (world_rel Rw) (extend l).
Proof. by apply world_rel_same_world. Qed.

Lemma keeps_set_symbols_world l : keeps (world_rel Rw) (set_symbols l).
Proof. by apply world_rel_same_world. Qed.

End WorldKept.

Create HintDb world.

(** Decides a goal [keeps (world_rel Rw) m] by the structure of [m]. *)
Ltac world_tac :=
  repeat first
    [ match goal with |- PreOrder _ => typeclasses eauto end
    | solve [auto with world nocore]
    | apply keeps_ret | apply keeps_raise | apply keeps_lift
    | apply keeps_append_world | apply keeps_extend_world
    | apply keeps_set_symbols_world
    | apply keeps_print_stays | apply keeps_print_exc_stays
    | apply keeps_in_temporary_directory_stays
    | apply reads_keeps; [| reads_leaf]
    | apply keeps_call_world
    | apply keeps_bind; [| |intro]
    | apply keeps_try_except_class
    | apply keeps_try_except; [| |intro]
    | apply keeps_for_each; [|intro]
    | match goal with
      | |- keeps _ (match ?x with _ => _ end) => destruct x eqn:?
      end ].

Section ParsersKeep.
Context `{Platform}.

Lemma note_body_same_world note :
  keeps (world_rel same_world) (V1.note_body note).
Proof. unfold V1.note_body. world_tac. Qed.

#[local] Hint Resolve note_body_same_world : world.

Lemma scan_musicxml_same_world p :
  keeps (world_rel same_world) (V1.scan_musicxml p).
Proof. unfold V1.scan_musicxml. world_tac. Qed.

Context (q : Path) (n : Node).

Lemma book_inter_stays e : keeps (world_rel (stays q n)) (V1.book_inter e).
Proof. unfold V1.book_inter. world_tac. Qed.

#[local] Hint Resolve book_inter_stays : world.

Lemma parse_omr_book_stays p : keeps (world_rel (stays q n)) (V1._parse_omr_book p).
Proof. unfold V1._parse_omr_book, V1.book_try, V1.book_except. world_tac. Qed.

Lemma note_body_stays note : keeps (world_rel (stays q n)) (V1.note_body note).
Proof. unfold V1.note_body. world_tac. Qed.

#[local] Hint Resolve parse_omr_book_stays note_body_stays : world.

Lemma parse_omr_output_stays p :
  keeps (world_rel (stays q n)) (V1._parse_omr_output p).
Proof.
  unfold V1._parse_omr_output, V1.output_try, V1.output_except,
    V1.scan_musicxml, V1._estimate_positions, V1._parse_alternative.
  world_tac.
Qed.

Lemma sheet_head_stays e : keeps (world_rel (stays q n)) (V2.sheet_head e).
Proof. unfold V2.sheet_head. world_tac. Qed.

Lemma classified_stays shape b : keeps (world_rel (stays q n)) (V2.classified shape b).
Proof. unfold V2.classified. world_tac. Qed.

#[local] Hint Resolve sheet_head_stays classified_stays : world.

Lemma sheet_key_alter_stays e : keeps (world_rel (stays q n)) (V2.sheet_key_alter e).
Proof. unfold V2.sheet_key_alter. world_tac. Qed.

Lemma sheet_inter_stays e : keeps (world_rel (stays q n)) (V2.sheet_inter e).
Proof. unfold V2.sheet_inter. world_tac. Qed.

#[local] Hint Resolve sheet_key_alter_stays sheet_inter_stays : world.

Lemma parse_omr_file_stays p :
  keeps (world_rel (stays q n)) (V2._parse_omr_file p).
Proof. unfold V2._parse_omr_file, V2.file_try, V2.file_except. world_tac. Qed.

Lemma print_summary_stays_v1 l : keeps (world_rel (stays q n)) (V1._print_summary l).
Proof. unfold V1._print_summary. world_tac. Qed.

Lemma print_summary_stays_v2 l : keeps (world_rel (stays q n)) (V2._print_summary l).
Proof. unfold V2._print_summary. world_tac. Qed.

End ParsersKeep.

(** ** Estimated positions *)

Lemma box4_eq a b c d a' b' c' d' :
  a = a' → b = b' → c = c' → d = d' → box4 a b c d = box4 a' b' c' d'.
Proof. by intros -> -> -> ->. Qed.

Lemma estimate_loop_spec (symbols : list Dict) :
  Forall scanned symbols →
  ∀ (i : Z) (estimated : list Dict),
  ∃ out,
    V1.estimate_loop i symbols estimated = Return (estimated ++ out)
    ∧ length out = length symbols
    ∧ ∀ (k : nat) (s : Dict), symbols !! k = Some s →
        ∃ o, out !! k = Some o
             ∧ o !! "type" = s !! "type"
             ∧ o !! "bbox"
               = Some (box4 (100 + 50 * (i + Z.of_nat k)) 100
                            (120 + 50 * (i + Z.of_nat k)) 120)
             ∧ o !! "estimated" = Some (VBool true).
Proof.
  induction 1 as [|s symbols Hs _ IH]; intros i estimated.
  - exists []. rewrite app_nil_r. repeat split; [done..|].
    intros k s Hk. by rewrite lookup_nil in Hk.
  - destruct Hs as (t & Hty & _). simpl. unfold V1.estimate_one. rewrite Hty.
    destruct (IH (i + 1)
                 (estimated ++ [<["type" := VStr t]>
                     (<["bbox" := V1.estimated_box i]>
                        (<["estimated" := VBool true]> ∅))]))
      as (out & Hloop & Hlen & Hout).
    exists (<["type" := VStr t]> (<["bbox" := V1.estimated_box i]>
              (<["estimated" := VBool true]> ∅)) :: out).
    split; [by rewrite Hloop, <- app_assoc|].
    split; [simpl; by rewrite Hlen|].
    intros [|k] s' Hk; simpl in Hk.
    + injection Hk as <-. eexists. split; [reflexivity|].
      rewrite Hty, lookup_insert_eq.
      split; [done|]. split; [|done].
      rewrite lookup_insert_ne, lookup_insert_eq by done.
      f_equal. apply box4_eq; lia.
    + destruct (Hout k s' Hk) as (o & Ho & Oty & Obox & Oest).
      exists o. split; [exact Ho|]. split; [exact Oty|]. split; [|exact Oest].
      rewrite Obox. f_equal. apply box4_eq; lia.
Qed.

Lemma scan_musicxml_result `{Platform} (p : Path) (w : World) (fr1 : Frame) r :
  V1.scan_musicxml p (mkFrame [] w) = (fr1, r) →
  world fr1 = w ∧ Forall scanned (symbols fr1).
Proof.
  intros Hscan.
  pose proof (scan_musicxml_same_world p (mkFrame [] w)) as Hw.
  pose proof (scan_musicxml_grew p (mkFrame [] w)) as (l & Hl & Hall).
  rewrite Hscan in Hw, Hl. simpl in *. split; [exact Hw|].
  by rewrite Hl.
Qed.

(** C4.  When the scan of the MusicXML file succeeds and no book file lies
    beside it, [_parse_omr_output] returns one estimated record for each of the
    [n] scanned symbols: the [i]-th record has the type of the [i]-th symbol,
    the box [(100 + 50 i, 100, 120 + 50 i, 120)] and [estimated] set. *)
Theorem estimated_when_no_book `{Platform} (w : World) (omr_file : Path) (fr1 : Frame) :
  V1.scan_musicxml omr_file (mkFrame [] w) = (fr1, Return tt) →
  fs w !! V1.book_file_of omr_file = None →
  ∃ w' out,
    run (V1._parse_omr_output omr_file) w = (w', Return out)
    ∧ length out = length (symbols fr1)
    ∧ ∀ (i : nat) (s : Dict), symbols fr1 !! i = Some s →
        ∃ o, out !! i = Some o
             ∧ is_Some (s !! "type")
             ∧ o !! "type" = s !! "type"
             ∧ o !! "bbox"
               = Some (box4 (100 + 50 * Z.of_nat i) 100 (120 + 50 * Z.of_nat i) 120)
             ∧ o !! "estimated" = Some (VBool true).
Proof.
  intros Hscan Hbook.
  destruct (scan_musicxml_result _ _ _ _ Hscan) as [Hw Hall].
  destruct fr1 as [syms w1]. simpl in Hw, Hall |- *. subst w1.
  destruct (estimate_loop_spec syms Hall 0 []) as (out & Hloop & Hlen & Hout).
  exists (with_console
            (console w ++ ["Note: MusicXML doesn't contain pixel coordinates."]
             ++ ["Attempting to parse Audiveris book file..."]
             ++ ["Warning: Could not find OMR book file with coordinates."]
             ++ ["Generating estimated positions..."]) w), out.
  split.
  - unfold run, V1._parse_omr_output, call, bind, set_symbols, try_except,
      V1.output_try, bind.
    cbn [world symbols]. rewrite Hscan.
    unfold print, path_exists, bind, get_world, ret, get_symbols,
      V1._estimate_positions, call, lift, set_symbols.
    cbn [world symbols fs with_console]. rewrite Hbook.
    cbn [world symbols fs with_console]. rewrite Hloop.
    cbn [world symbols fs with_console app].
    unfold with_console. cbn. rewrite <- !app_assoc. reflexivity.
  - split; [exact Hlen|].
    intros i s Hi. destruct (Hout i s Hi) as (o & Ho & Oty & Obox & Oest).
    exists o. split; [exact Ho|].
    split.
    { rewrite Forall_forall in Hall.
      destruct (Hall s) as (t & Hty & _); [eapply list_elem_of_lookup_2; eauto|].
      by rewrite Hty. }
    split; [exact Oty|]. split; [|exact Oest].
    rewrite Obox. reflexivity.
Qed.

Lemma estimated_when_no_book_witness :
  let p := ["out"; "score"; "score.xml"] in
  fs Demo.world_xml !! V1.book_file_of p = None
  ∧ ∃ w' out,
      run (@V1._parse_omr_output Demo.platform p) Demo.world_xml = (w', Return out)
      ∧ length out = 4%nat.
Proof.
  intros p.
  assert (Hscan :
    @V1.scan_musicxml Demo.platform p (mkFrame [] Demo.world_xml)
    = (fst (@V1.scan_musicxml Demo.platform p (mkFrame [] Demo.world_xml)),
       Return tt)) by (vm_compute; reflexivity).
  assert (Hbook : fs Demo.world_xml !! V1.book_file_of p = None) by reflexivity.
  split; [exact Hbook|].
  destruct (@estimated_when_no_book Demo.platform _ _ _ Hscan Hbook)
    as (w' & out & Hrun & Hlen & _).
  exists w', out. split; [exact Hrun|]. rewrite Hlen. vm_compute. reflexivity.
Defined.

(** ** Uniform records *)

(** A function of the shape
    [symbols = []; try: T; except Exception as e: E; return symbols]
    returns a list of records satisfying [P] when [T] and [E] only append
    such records and [E] does not raise. *)
Lemma collector_returns (P : Dict → Prop) (T : M unit) (E : Exn → M unit) :
  keeps (grew P) T →
  (∀ e, keeps (grew P) (E e)) →
  (∀ e fr, ∃ fr', E e fr = (fr', Return tt)) →
  ∀ fr, ∃ w' l,
    call (set_symbols [] ;; try_except T E ;; get_symbols) fr
    = (mkFrame (symbols fr) w', Return l)
    ∧ Forall P l.
Proof.
  intros HT HE Htotal fr.
  unfold call, bind, set_symbols, try_except, get_symbols. cbn [world symbols].
  pose proof (HT (mkFrame [] (world fr))) as (l1 & Hl1 & F1).
  destruct (T _) as [fr1 [[]|e]]; simpl in Hl1.
  - exists (world fr1), (symbols fr1). split; [reflexivity|]. by rewrite Hl1.
  - pose proof (HE e fr1) as (l2 & Hl2 & F2).
    destruct (Htotal e fr1) as (fr2 & Hfr2). rewrite Hfr2 in Hl2 |- *.
    simpl in Hl2. exists (world fr2), (symbols fr2). split; [reflexivity|].
    rewrite Hl2, Hl1. simpl. by apply Forall_app.
Qed.

Lemma estimated_uniform (symbols : list Dict) :
  Forall scanned symbols →
  ∃ out, V1.estimate_loop 0 symbols [] = Return out ∧ Forall uniform out.
Proof.
  intros Hall.
  destruct (estimate_loop_spec symbols Hall 0 []) as (out & Hloop & Hlen & Hout).
  exists out. split; [exact Hloop|].
  apply Forall_lookup. intros k o Ho.
  destruct (lookup_lt_is_Some_2 symbols k) as [s Hs].
  { rewrite <- Hlen. by eapply lookup_lt_Some. }
  destruct (Hout k s Hs) as (o' & Ho' & Oty & Obox & _).
  rewrite Ho in Ho'. injection Ho' as <-.
  rewrite Forall_lookup in Hall. destruct (Hall k s Hs) as (t & Hty & Ht).
  split.
  - exists t. by rewrite Oty.
  - eexists _, _, _, _. exact Obox.
Qed.

Section Uniform.
Context `{Platform}.

Lemma parse_omr_book_uniform p fr :
  ∃ w' l, V1._parse_omr_book p fr = (mkFrame (symbols fr) w', Return l)
          ∧ Forall uniform l.
Proof.
  apply collector_returns.
  - apply book_try_grew.
  - intros e. unfold V1.book_except. grew_tac.
  - intros e fr0. eexists. reflexivity.
Qed.

Lemma parse_sheet_xml_uniform p fr :
  ∃ w' l, V2._parse_sheet_xml p fr = (mkFrame (symbols fr) w', Return l)
          ∧ Forall uniform l.
Proof.
  apply collector_returns.
  - apply sheet_try_grew.
  - intros e. unfold V2.sheet_except. grew_tac.
  - intros e fr0. eexists. reflexivity.
Qed.

Lemma sheet_dir_body_grew d : keeps (grew uniform) (V2.sheet_dir_body d).
Proof.
  intros fr. unfold V2.sheet_dir_body, path_exists.
  unfold bind, get_world, ret. cbn [world symbols].
  destruct (fs (world fr) !! (d </> (PurePath.name d +:+ ".xml")));
    [|reflexivity].
  destruct (parse_sheet_xml_uniform (d </> (PurePath.name d +:+ ".xml")) fr)
    as (w' & l & Hparse & Hl).
  rewrite Hparse. simpl. by exists l.
Qed.

#[local] Hint Resolve sheet_dir_body_grew : grew.

Lemma file_try_grew p : keeps (grew uniform) (V2.file_try p).
Proof.
  unfold V2.file_try. grew_tac.
  apply keeps_in_temporary_directory_grew. grew_tac.
Qed.

Lemma parse_omr_file_uniform p fr :
  ∃ w' l, V2._parse_omr_file p fr = (mkFrame (symbols fr) w', Return l)
          ∧ Forall uniform l.
Proof.
  apply collector_returns.
  - apply file_try_grew.
  - intros e. unfold V2.file_except. grew_tac.
  - intros e fr0. eexists. reflexivity.
Qed.

Lemma parse_omr_output_uniform p fr :
  ∃ w' l, V1._parse_omr_output p fr = (mkFrame (symbols fr) w', Return l)
          ∧ Forall uniform l.
Proof.
  unfold V1._parse_omr_output, call, bind, set_symbols, try_except, get_symbols.
  cbn [world symbols].
  destruct (V1.output_try p _) as [fr1 [[]|e]] eqn:Htry.
  - exists (world fr1), (symbols fr1). split; [reflexivity|].
    revert Htry. unfold V1.output_try, bind.
    destruct (V1.scan_musicxml p _) as [fr2 [[]|e]] eqn:Hscan; [|done].
    destruct (scan_musicxml_result _ _ _ _ Hscan) as [_ Hall].
    unfold print, path_exists, bind, get_world, ret, get_symbols, set_symbols.
    cbn [world symbols fs with_console].
    destruct (fs (world fr2) !! V1.book_file_of p).
    + destruct (parse_omr_book_uniform (V1.book_file_of p)
                  (mkFrame (symbols fr2)
                     (with_console
                        (console
                           (with_console
                              (console (world fr2) ++
                               ["Note: MusicXML doesn't contain pixel coordinates."])
                              (world fr2)) ++
                         ["Attempting to parse Audiveris book file..."])
                        (with_console
                           (console (world fr2) ++
                            ["Note: MusicXML doesn't contain pixel coordinates."])
                           (world fr2)))))
        as (w' & l & Hbook & Hl).
      rewrite Hbook. intros [= <-]. exact Hl.
    + destruct (estimated_uniform (symbols fr2) Hall) as (out & Hloop & Hout).
      unfold V1._estimate_positions, call, lift. cbn [world symbols].
      rewrite Hloop. intros [= <-]. exact Hout.
  - eexists _, _. split; [reflexivity|]. constructor.
Qed.

End Uniform.

(** C1.  [_parse_omr_output] (v1) and [_parse_omr_file] (v2) return, on every
    world and for every path, a list in which each record has a [type] among
    the four target types and a [bbox] that is a tuple of four integers. *)
Theorem parsed_records_uniform `{Platform} (w : World) (omr_file : Path) :
  (∃ w' l, run (V1._parse_omr_output omr_file) w = (w', Return l)
           ∧ Forall uniform l)
  ∧ (∃ w' l, run (V2._parse_omr_file omr_file) w = (w', Return l)
             ∧ Forall uniform l).
Proof.
  unfold run. split.
  - destruct (parse_omr_output_uniform omr_file (mkFrame [] w)) as (w' & l & Hrun & Hl).
    rewrite Hrun. by exists w', l.
  - destruct (parse_omr_file_uniform omr_file (mkFrame [] w)) as (w' & l & Hrun & Hl).
    rewrite Hrun. by exists w', l.
Qed.

(** ** Exceptions are caught *)

(** C3.  On every world and for every path the three parsing functions
    return a list and raise nothing.  When the [try] block of
    [_parse_omr_output] (v1) raises, the diagnostic and the messages of the
    fallback are printed and the empty list of [_parse_alternative] is
    returned; when the [try] block of [_parse_omr_book] (v1) or of
    [_parse_omr_file] (v2) raises, the diagnostic is printed and the records
    appended before the exception are returned.  When the block does not
    raise, the list it built is returned and nothing more is printed. *)
Theorem parsers_catch `{Platform} (w : World) (p : Path) :
  (∃ w' l,
     run (V1._parse_omr_output p) w = (w', Return l)
     ∧ match V1.output_try p (mkFrame [] w) with
       | (fr, Return _) => l = symbols fr ∧ w' = world fr
       | (fr, Raise e) =>
           l = []
           ∧ w' = with_console
                    (console (world fr)
                     ++ [ "Error parsing OMR output: " +:+ exn_msg e;
                          "Attempting alternative parsing method...";
                          "Using fallback parsing method" ])
                    (world fr)
       end)
  ∧ (∃ w' l,
       run (V1._parse_omr_book p) w = (w', Return l)
       ∧ match V1.book_try p (mkFrame [] w) with
         | (fr, Return _) => l = symbols fr ∧ w' = world fr
         | (fr, Raise e) =>
             l = symbols fr
             ∧ w' = with_console
                      (console (world fr)
                       ++ ["Error parsing OMR book file: " +:+ exn_msg e])
                      (world fr)
         end)
  ∧ (∃ w' l,
       run (V2._parse_omr_file p) w = (w', Return l)
       ∧ match V2.file_try p (mkFrame [] w) with
         | (fr, Return _) => l = symbols fr ∧ w' = world fr
         | (fr, Raise e) =>
             l = symbols fr
             ∧ w' = with_console
                      (console (world fr)
                       ++ ["Error parsing OMR file: " +:+ exn_msg e])
                      (world fr)
         end).
Proof.
  unfold run, V1._parse_omr_output, V1._parse_omr_book, V2._parse_omr_file,
    call, bind, set_symbols, try_except, get_symbols.
  cbn [world symbols].
  repeat split.
  - destruct (V1.output_try p _) as [fr [[]|e]]; [by eexists _, _|].
    unfold V1.output_except, V1._parse_alternative, call, bind, print, ret,
      set_symbols.
    destruct fr as [syms [files env out err cmds]].
    cbn. eexists _, _. split; [reflexivity|]. split; [reflexivity|].
    unfold with_console. cbn. by rewrite <- !app_assoc.
  - destruct (V1.book_try p _) as [fr [[]|e]]; by eexists _, _.
  - destruct (V2.file_try p _) as [fr [[]|e]]; by eexists _, _.
Qed.

(** Three runs of the book parser: a missing file, a book whose first symbol
    is malformed, a book whose second symbol is. *)
Example book_file_missing :
  run (@V1._parse_omr_book Demo.platform ["nowhere.omr"]) Demo.world0
  = (with_console
       ["Error parsing OMR book file: No such file or directory: 'nowhere.omr'"]
       Demo.world0,
     Return []).
Proof. vm_compute. reflexivity. Qed.

Example book_first_symbol_malformed :
  snd (run (@V1._parse_omr_book Demo.platform ["out"; "score"; "score.omr"])
           Demo.world_bad)
  = Return [].
Proof. vm_compute. reflexivity. Qed.

Example book_second_symbol_malformed :
  snd (run (@V1._parse_omr_book Demo.platform ["out"; "score"; "score.omr"])
           Demo.world_half)
  = Return [ <["type" := VStr "sharp"]> (<["bbox" := box4 10 20 15 28]>
               (<["shape" := VStr "SHARP"]> ∅)) ].
Proof. vm_compute. reflexivity. Qed.

(** ** Files written by [process_image] and [upscale_image] *)

Section FilesKept.
Context `{Platform} (q : Path) (n : Node).

Lemma keeps_mkdir_stays p : keeps (world_rel (stays q n)) (mkdir_exist_ok p).
Proof.
  intros fr Hq. unfold mkdir_exist_ok, bind, get_world, set_fs, raise, ret.
  cbn [world symbols].
  destruct (fs (world fr) !! p) as [[|d]|] eqn:Hp; cbn; [done..|].
  rewrite lookup_insert_ne; [done|]. intros ->. congruence.
Qed.

Lemma keeps_spawn_stays cmd : keeps (world_rel (stays q n)) (spawn cmd).
Proof. intros fr Hq. exact Hq. Qed.

Lemma keeps_run_process_stays cmd env timeout :
  children_preserve q →
  keeps (world_rel (stays q n)) (run_process cmd env timeout).
Proof.
  intros Hchildren fr Hq.
  specialize (Hchildren cmd env timeout (fs (world fr))).
  unfold run_process, bind, get_world, spawn, set_fs, raise, lift.
  cbn [world symbols fs with_spawned].
  destruct (subprocess_run cmd env timeout (fs (world fr)));
    cbn in *; congruence.
Qed.

Lemma keeps_Image_save_stays img p dpi :
  p ≠ q → keeps (world_rel (stays q n)) (Image_save img p dpi).
Proof.
  intros Hne fr Hq. unfold Image_save, bind, get_world, set_fs, lift.
  cbn [world symbols].
  destruct (save_error p (fs (world fr))); cbn; [done|].
  by rewrite lookup_insert_ne.
Qed.

#[local] Hint Resolve keeps_mkdir_stays keeps_spawn_stays
  keeps_run_process_stays keeps_Image_save_stays : world.

Lemma run_audiveris_stays_v1 self image_path :
  children_preserve q →
  keeps (world_rel (stays q n)) (V1._run_audiveris self image_path).
Proof. intros Hc. unfold V1._run_audiveris. world_tac. Qed.

Lemma run_audiveris_stays_v2 self image_path :
  children_preserve q →
  keeps (world_rel (stays q n)) (V2._run_audiveris self image_path).
Proof. intros Hc. unfold V2._run_audiveris. world_tac. Qed.

End FilesKept.

(** Steps of a computation. *)
Lemma bind_Return {A B} (m : M A) (k : A → M B) fr fr' a :
  m fr = (fr', Return a) → bind m k fr = k a fr'.
Proof. intros Hm. unfold bind. by rewrite Hm. Qed.

Lemma bind_Raise {A B} (m : M A) (k : A → M B) fr fr' e :
  m fr = (fr', Raise e) → bind m k fr = (fr', Raise e).
Proof. intros Hm. unfold bind. by rewrite Hm. Qed.

Lemma Image_open_ok `{Platform} p img dpi fr :
  fs (world fr) !! p = Some (File (ImageData img dpi)) →
  Image_open p fr = (fr, Return img).
Proof. intros Hp. unfold Image_open, bind, get_world. by rewrite Hp. Qed.

Lemma Image_save_ok `{Platform} img p dpi fr :
  save_error p (fs (world fr)) = None →
  Image_save img p dpi fr
  = (mkFrame (symbols fr)
             (with_fs (<[p := File (ImageData img dpi)]> (fs (world fr))) (world fr)),
     Return tt).
Proof. intros Hp. unfold Image_save, bind, get_world. by rewrite Hp. Qed.

Lemma resize_ok `{Platform} img scale_factor fr :
  0 < width img → 0 < height img → 0 < scale_factor →
  ∃ out,
    resize img (width img * scale_factor) (height img * scale_factor) fr
    = (fr, Return out)
    ∧ width out = width img * scale_factor
    ∧ height out = height img * scale_factor.
Proof.
  intros HW HH Hs. unfold resize.
  destruct ((width img * scale_factor =? width img)
            && (height img * scale_factor =? height img)) eqn:Hsame.
  - apply andb_prop in Hsame as [Hw1 Hh1].
    apply Z.eqb_eq in Hw1, Hh1. exists img. by rewrite Hw1, Hh1.
  - assert (Hsmall : (width img * scale_factor <? 1)
                     || (height img * scale_factor <? 1) = false).
    { apply orb_false_iff. split; apply Z.ltb_ge; nia. }
    rewrite Hsmall. eexists. split; [reflexivity|]. split; reflexivity.
Qed.

(** C10, the claim as stated fails: with the input path as output path the
    upscaled image is written over the input file. *)
Lemma upscale_overwrites_input :
  let before := Demo.world0 in
  let result :=
    run (@upscale_image Demo.platform ["scan.png"] ["scan.png"] 4) before in
  snd result = Return ["scan.png"]
  ∧ fs before !! ["scan.png"] = Some (File (ImageData Demo.page None))
  ∧ fs (fst result) !! ["scan.png"]
    = Some (File (ImageData
                    (mkImage 2400 1600
                       (Resampled (Source "page") 2400 1600 "LANCZOS"))
                    (Some (300, 300))))
  ∧ fs (fst result) !! ["scan.png"] ≠ fs before !! ["scan.png"].
Proof.
  repeat split; [reflexivity..|].
  vm_compute. discriminate.
Qed.

(** C10, amended.  For an input file holding an image of width [W > 0] and
    height [H > 0], a positive [scale_factor] (4 by default) and an output
    path the image library can write, [upscale_image] returns the output path
    and changes the file system in one place: the output path now holds an
    image of size [(W * scale_factor, H * scale_factor)].  The input file is
    unchanged when the output path is another path. *)
Theorem upscale_image_spec `{Platform} (w : World) (input_path output_path : Path)
    (scale_factor : Z) (img : Image) (dpi : option (Z * Z)) :
  fs w !! input_path = Some (File (ImageData img dpi)) →
  0 < width img →
  0 < height img →
  0 < scale_factor →
  save_error output_path (fs w) = None →
  default_scale_factor = 4
  ∧ ∃ w' out,
      run (upscale_image input_path output_path scale_factor) w
      = (w', Return output_path)
      ∧ fs w' = <[output_path := File (ImageData out (Some (300, 300)))]> (fs w)
      ∧ width out = width img * scale_factor
      ∧ height out = height img * scale_factor
      ∧ (output_path ≠ input_path → fs w' !! input_path = fs w !! input_path).
Proof.
  intros Hin HW HH Hs Hsave. split; [reflexivity|].
  destruct (resize_ok img scale_factor
              (mkFrame [] (with_console
                             (console w ++ ["Original size: " +:+ size_str img]) w))
              HW HH Hs) as (out & Hresize & Hwidth & Hheight).
  unfold run, upscale_image, call. cbn [world symbols].
  erewrite bind_Return by (eapply Image_open_ok; exact Hin).
  erewrite bind_Return by reflexivity.
  cbn [fst snd].
  erewrite bind_Return by exact Hresize.
  erewrite bind_Return by reflexivity.
  erewrite bind_Return by (apply Image_save_ok; exact Hsave).
  erewrite bind_Return by reflexivity.
  cbn. eexists _, out. split; [reflexivity|].
  split; [reflexivity|]. split; [exact Hwidth|]. split; [exact Hheight|].
  intros Hne. cbn. by rewrite lookup_insert_ne.
Qed.

Lemma upscale_image_spec_witness :
  fs Demo.world0 !! ["scan.png"] = Some (File (ImageData Demo.page None))
  ∧ 0 < width Demo.page
  ∧ 0 < 4
  ∧ ∃ w' out,
      run (@upscale_image Demo.platform ["scan.png"] ["big.png"] 4) Demo.world0
      = (w', Return ["big.png"])
      ∧ fs w' = <[["big.png"] := File (ImageData out (Some (300, 300)))]>
                  (fs Demo.world0)
      ∧ width out = width Demo.page * 4
      ∧ height out = height Demo.page * 4
      ∧ (["big.png"] ≠ ["scan.png"] →
         fs w' !! ["scan.png"] = fs Demo.world0 !! ["scan.png"]).
Proof.
  split; [reflexivity|]. split; [reflexivity|]. split; [reflexivity|].
  apply (@upscale_image_spec Demo.platform Demo.world0 ["scan.png"] ["big.png"] 4
           Demo.page None); reflexivity.
Defined.

(** One step of a computation that is known to return: the first statement
    is run, its outcome named, and a raising outcome dismissed. *)
Ltac step_in H :=
  match type of H with
  | context [bind ?m ?k ?fr] =>
      let E := fresh "Hstep" in
      let fr' := fresh "fr" in
      destruct (m fr) as [fr' [?|?]] eqn:E;
      [ rewrite (bind_Return m k fr _ _ E) in H
      | rewrite (bind_Raise m k fr _ _ E) in H; try discriminate H ]
  end.

(** The same, naming the frame and the value of the step. *)
Tactic Notation "named_step_in" hyp(H) "as" ident(fr') ident(v) ident(E) :=
  match type of H with
  | context [bind ?m ?k ?fr] =>
      destruct (m fr) as [fr' [v|?]] eqn:E;
      [ rewrite (bind_Return m k fr _ _ E) in H
      | rewrite (bind_Raise m k fr _ _ E) in H; try discriminate H ]
  end.

Section Drawing.
Context `{Platform}.

Lemma Image_open_inv p fr fr' img :
  Image_open p fr = (fr', Return img) →
  fr' = fr ∧ ∃ dpi, fs (world fr) !! p = Some (File (ImageData img dpi)).
Proof.
  unfold Image_open, bind, get_world, raise, ret.
  destruct (fs (world fr) !! p) as [[|[]]|]; try discriminate.
  intros [= <- <-]. split; [reflexivity | by eexists].
Qed.

Lemma Image_save_inv img p dpi fr fr' :
  Image_save img p dpi fr = (fr', Return tt) →
  fs (world fr') = <[p := File (ImageData img dpi)]> (fs (world fr)).
Proof.
  unfold Image_save, bind, get_world, set_fs, lift.
  destruct (save_error p (fs (world fr))); [discriminate|].
  by intros [= <-].
Qed.

Lemma font_try_same_frame {A} (m : M A) (h : Exn → M A) fr fr' a :
  reads m → (∀ e, reads (h e)) →
  try_except m h fr = (fr', Return a) → fr' = fr.
Proof.
  intros Hm Hh. unfold try_except. specialize (Hm fr).
  destruct (m fr) as [fr1 [x|e]]; simpl in Hm; subst fr1.
  - by intros [= <- _].
  - specialize (Hh e fr). destruct (h e fr) as [fr2 r]. simpl in Hh. subst fr2.
    by intros [= <- _].
Qed.

Lemma draw_bounding_boxes_result_v1 image_path symbols out fr fr' :
  V1._draw_bounding_boxes image_path symbols out fr = (fr', Return tt) →
  ∃ img dpi font cmds,
    fs (world fr) !! image_path = Some (File (ImageData img dpi))
    ∧ V1.draw_loop font symbols = Return cmds
    ∧ fs (world fr')
      = <[out := File (ImageData (V1.paint img cmds) None)]> (fs (world fr)).
Proof.
  unfold V1._draw_bounding_boxes, call. intros Hrun.
  step_in Hrun. apply Image_open_inv in Hstep as [-> [dpi Himg]].
  step_in Hrun.
  apply font_try_same_frame in Hstep;
    [subst | apply reads_truetype | intros; apply reads_ret].
  step_in Hrun. unfold lift in Hstep. injection Hstep as <- Hloop.
  destruct (Image_save _ out None _) as [fr3 [[]|e]] eqn:Hsave;
    [|discriminate].
  apply Image_save_inv in Hsave. injection Hrun as <-.
  cbn [world] in *. by eexists _, _, _, _.
Qed.

Lemma draw_bounding_boxes_result_v2 image_path symbols out fr fr' :
  V2._draw_bounding_boxes image_path symbols out fr = (fr', Return tt) →
  ∃ img dpi font cmds,
    fs (world fr) !! image_path = Some (File (ImageData img dpi))
    ∧ V2.draw_loop font symbols = Return cmds
    ∧ ∃ small_font,
        fs (world fr')
        = <[out := File (ImageData
                           (V2.paint img (cmds ++ V2.banner small_font symbols))
                           None)]> (fs (world fr)).
Proof.
  unfold V2._draw_bounding_boxes, call. intros Hrun.
  step_in Hrun. apply Image_open_inv in Hstep as [-> [dpi Himg]].
  step_in Hrun.
  apply font_try_same_frame in Hstep;
    [subst | reads_tac; apply reads_truetype | intros; apply reads_ret].
  step_in Hrun. unfold lift in Hstep. injection Hstep as <- Hloop.
  destruct (Image_save _ out None _) as [fr3 [[]|e]] eqn:Hsave;
    [|discriminate].
  apply Image_save_inv in Hsave. injection Hrun as <-.
  cbn [world] in *. eexists _, _, _, _. split; [done|]. split; [done|].
  by eexists.
Qed.

End Drawing.

Section ProcessImage.
Context `{Platform}.

Lemma path_exists_eq p fr :
  path_exists p fr
  = (fr, Return (match fs (world fr) !! p with Some _ => true | None => false end)).
Proof. reflexivity. Qed.

Lemma print_eq line fr :
  print line fr
  = (mkFrame (symbols fr) (with_console (console (world fr) ++ [line]) (world fr)),
     Return tt).
Proof. reflexivity. Qed.

(** How a keeps-fact about one step is used. *)
Lemma stays_step {A} (m : M A) q n fr fr' r :
  keeps (world_rel (stays q n)) m →
  m fr = (fr', r) →
  fs (world fr) !! q = Some n → fs (world fr') !! q = Some n.
Proof. intros Hk Hm. specialize (Hk fr). by rewrite Hm in Hk. Qed.

Lemma call_run {A} (callee : M A) fr fr' r :
  call callee fr = (fr', r) → run (call callee) (world fr) = (world fr', r).
Proof.
  unfold run, call. cbn [world]. destruct (callee _) as [fr1 r1].
  by intros [= <- <-].
Qed.

Lemma process_image_result_v1 self image_path output_path w w' p :
  run (V1.process_image self image_path output_path) w = (w', Return p) →
  p = chosen_output image_path output_path
  ∧ ∃ img dpi font records cmds w1 w2 omr_file,
      run (V1._parse_omr_output omr_file) w1 = (w2, Return records)
      ∧ Forall uniform records
      ∧ V1.draw_loop font records = Return cmds
      ∧ fs w' !! p = Some (File (ImageData (annotated img cmds) None))
      ∧ (children_preserve image_path →
         fs w !! image_path = Some (File (ImageData img dpi))).
Proof.
  unfold run, V1.process_image, call. cbn [world symbols]. intros Hrun.
  rewrite (bind_Return _ _ _ _ _ (path_exists_eq _ _)) in Hrun.
  cbn [world] in Hrun.
  destruct (fs w !! image_path) as [n|] eqn:Himg; [|discriminate].
  cbn [negb] in Hrun.
  change (match output_path with
          | Some p0 => p0
          | None => V1.default_output image_path
          end) with (chosen_output image_path output_path) in Hrun.
  set (out := chosen_output image_path output_path) in *.
  rewrite (bind_Return _ _ _ _ _ (print_eq _ _)) in Hrun.
  rewrite (bind_Return _ _ _ _ _ (print_eq _ _)) in Hrun.
  cbn [world symbols] in Hrun.
  named_step_in Hrun as fr1 omr_file Haud.
  rewrite (bind_Return _ _ _ _ _ (print_eq _ _)) in Hrun.
  named_step_in Hrun as fr2 found Hparse.
  rewrite (bind_Return _ _ _ _ _ (print_eq _ _)) in Hrun.
  named_step_in Hrun as fr3 drawn Hdraw.
  rewrite (bind_Return _ _ _ _ _ (print_eq _ _)) in Hrun.
  rewrite (bind_Return _ _ _ _ _ (print_eq _ _)) in Hrun.
  named_step_in Hrun as fr4 summed Hsum.
  unfold ret in Hrun. injection Hrun as <- <-.
  destruct drawn.
  apply draw_bounding_boxes_result_v1 in Hdraw
    as (img & dpi & font & cmds & Hopen & Hloop & Hsaved).
  cbn [world symbols fs with_console] in *.
  assert (Hout : fs (world fr4) !! out
                 = Some (File (ImageData (annotated img cmds) None))).
  { eapply (stays_step _ _ _ _ _ _ (print_summary_stays_v1 _ _ _) Hsum).
    cbn. by rewrite Hsaved, lookup_insert_eq. }
  assert (Huniform : Forall uniform found).
  { destruct (parse_omr_output_uniform omr_file
                (mkFrame (symbols fr1)
                   (with_console (console (world fr1) ++ ["Parsing symbols..."])
                      (world fr1))))
      as (w2 & l & Hl & Hall).
    rewrite Hparse in Hl. by injection Hl as _ ->. }
  split; [reflexivity|].
  exists img, dpi, font, found, cmds. eexists _, _, omr_file.
  split; [exact (call_run _ _ _ _ Hparse)|].
  split; [exact Huniform|]. split; [exact Hloop|]. split; [exact Hout|].
  intros Hc. rewrite <- Hopen. symmetry.
  eapply (stays_step _ _ _ _ _ _ (parse_omr_output_stays _ _ _) Hparse).
  cbn.
  by eapply (stays_step _ _ _ _ _ _ (run_audiveris_stays_v1 _ _ _ _ Hc) Haud).
Qed.

End ProcessImage.

(** ** The default output path *)

Lemma contains_slash_cons c rest :
  Str.contains "/" (String c rest) = Ascii.eqb c "/" || Str.contains "/" rest.
Proof.
  change (Str.contains "/" (String c rest))
    with (String.prefix "/" (String c rest) || Str.contains "/" rest).
  f_equal.
  change (String.prefix "/" (String c rest))
    with (match ascii_dec "/" c with
          | left _ => String.prefix "" rest
          | right _ => false
          end).
  destruct (ascii_dec "/" c) as [<-|Hne].
  - by destruct rest.
  - destruct (Ascii.eqb_spec c "/"); [congruence | reflexivity].
Qed.

Lemma contains_slash_app a b :
  Str.contains "/" (a +:+ b) = Str.contains "/" a || Str.contains "/" b.
Proof.
  induction a as [|c a IH].
  - simpl. by destruct b.
  - change (String c a +:+ b) with (String c (a +:+ b)).
    rewrite !contains_slash_cons, IH. by rewrite orb_assoc.
Qed.

Lemma contains_slash_substring s :
  Str.contains "/" s = false →
  ∀ a k, Str.contains "/" (String.substring a k s) = false.
Proof.
  induction s as [|c s IH]; intros Hs a k.
  - by destruct a, k.
  - rewrite contains_slash_cons in Hs. apply orb_false_iff in Hs as [Hc Hs].
    destruct a as [|a]; [destruct k as [|k]|]; simpl String.substring.
    + reflexivity.
    + rewrite contains_slash_cons, Hc. by apply IH.
    + by apply IH.
Qed.

Lemma split_on_no_slash s :
  Str.contains "/" s = false → Str.split_on "/" s = [s].
Proof.
  induction s as [|c s IH]; intros Hs; [reflexivity|].
  rewrite contains_slash_cons in Hs. apply orb_false_iff in Hs as [Hc Hs].
  simpl. rewrite Hc, (IH Hs). reflexivity.
Qed.

Lemma length_substring s :
  ∀ a k, (a + k ≤ String.length s)%nat →
         String.length (String.substring a k s) = k.
Proof.
  induction s as [|c s IH]; intros a k Hle; simpl in Hle.
  - by destruct a, k; simpl in *; try lia.
  - destruct a as [|a]; [destruct k as [|k]|]; simpl.
    + reflexivity.
    + f_equal. apply IH. lia.
    + apply IH. lia.
Qed.

Lemma length_append a b :
  String.length (a +:+ b) = (String.length a + String.length b)%nat.
Proof. induction a as [|c a IH]; simpl; [reflexivity | by rewrite IH]. Qed.

Lemma suffix_start_bounds n i :
  PurePath.suffix_start n = Some i → (0 < i < String.length n - 1)%nat.
Proof.
  unfold PurePath.suffix_start. destruct (Str.rfind "." n) as [j|]; [|done].
  destruct (Nat.ltb_spec 0 j); simpl; [|done].
  destruct (Nat.ltb_spec j (String.length n - 1)); simpl; [|done].
  intros [= <-]. lia.
Qed.

(** The name of the default output: [<stem>_detected<suffix>]. *)
Lemma detected_name_length p :
  String.length (PurePath.stem p +:+ "_detected" +:+ PurePath.suffix p)
  = (String.length (PurePath.name p) + 9)%nat.
Proof.
  unfold PurePath.stem, PurePath.suffix. rewrite !length_append.
  destruct (PurePath.suffix_start (PurePath.name p)) as [i|] eqn:Hi.
  - apply suffix_start_bounds in Hi.
    rewrite !length_substring by lia. simpl. lia.
  - simpl. lia.
Qed.

Lemma detected_name_no_slash p :
  Str.contains "/" (PurePath.name p) = false →
  Str.contains "/" (PurePath.stem p +:+ "_detected" +:+ PurePath.suffix p) = false.
Proof.
  intros Hn. rewrite !contains_slash_app.
  unfold PurePath.stem, PurePath.suffix.
  destruct (PurePath.suffix_start (PurePath.name p)) as [i|].
  - by rewrite !contains_slash_substring.
  - by rewrite Hn.
Qed.

(** For a path whose name has no slash in it, as every [pathlib] path, the
    default output path is the sibling [<stem>_detected<suffix>], and it is
    not the path itself. *)
Lemma default_output_sibling p :
  Str.contains "/" (PurePath.name p) = false →
  V1.default_output p
  = PurePath.parent p
    ++ [PurePath.stem p +:+ "_detected" +:+ PurePath.suffix p]
  ∧ V1.default_output p ≠ p.
Proof.
  intros Hn. pose proof (detected_name_no_slash p Hn) as Hs.
  pose proof (detected_name_length p) as Hlen.
  set (s := PurePath.stem p +:+ "_detected" +:+ PurePath.suffix p) in *.
  assert (Hjoin : V1.default_output p = PurePath.parent p ++ [s]).
  { unfold V1.default_output, PurePath.joinpath. fold s.
    assert (Hpre : String.prefix "/" s = false).
    { destruct s as [|c s']; [reflexivity|].
      change (Str.contains "/" (String c s'))
        with (String.prefix "/" (String c s') || Str.contains "/" s') in Hs.
      by apply orb_false_iff in Hs as [Hp _]. }
    rewrite Hpre. unfold PurePath.components. rewrite split_on_no_slash by done.
    simpl.
    destruct (String.eqb_spec s "") as [Hs0|_];
      [rewrite Hs0 in Hlen; simpl in Hlen; lia|].
    destruct (String.eqb_spec s ".") as [Hs1|_];
      [rewrite Hs1 in Hlen; simpl in Hlen; lia|].
    reflexivity. }
  split; [exact Hjoin|]. rewrite Hjoin.
  unfold PurePath.parent, PurePath.name in *.
  destruct (PurePath.is_root p) eqn:Hroot.
  - intros Heq. apply (f_equal length) in Heq.
    rewrite length_app in Heq. simpl in Heq. lia.
  - destruct p as [|c p']; [done|].
    rewrite (app_removelast_last "" (l := c :: p')) at 2 by done.
    intros Heq. apply app_inv_head in Heq. injection Heq as Heq.
    cbv beta iota in Hlen. rewrite Heq in Hlen. simpl in Hlen. lia.
Qed.

Section ProcessImageV2.
Context `{Platform}.

Lemma process_image_result_v2 self image_path output_path w w' p :
  run (V2.process_image self image_path output_path) w = (w', Return p) →
  p = chosen_output image_path output_path
  ∧ ∃ img dpi font small_font records cmds w1 w2 omr_file,
      run (V2._parse_omr_file omr_file) w1 = (w2, Return records)
      ∧ Forall uniform records
      ∧ V2.draw_loop font records = Return cmds
      ∧ fs w' !! p
        = Some (File (ImageData
                        (annotated img (cmds ++ V2.banner small_font records))
                        None))
      ∧ (children_preserve image_path →
         fs w !! image_path = Some (File (ImageData img dpi))).
Proof.
  unfold run, V2.process_image, call. cbn [world symbols]. intros Hrun.
  rewrite (bind_Return _ _ _ _ _ (path_exists_eq _ _)) in Hrun.
  cbn [world] in Hrun.
  destruct (fs w !! image_path) as [n|] eqn:Himg; [|discriminate].
  cbn [negb] in Hrun.
  change (match output_path with
          | Some p0 => p0
          | None => V2.default_output image_path
          end) with (chosen_output image_path output_path) in Hrun.
  set (out := chosen_output image_path output_path) in *.
  rewrite (bind_Return _ _ _ _ _ (print_eq _ _)) in Hrun.
  rewrite (bind_Return _ _ _ _ _ (print_eq _ _)) in Hrun.
  cbn [world symbols] in Hrun.
  named_step_in Hrun as fr1 omr_file Haud.
  rewrite (bind_Return _ _ _ _ _ (print_eq _ _)) in Hrun.
  named_step_in Hrun as fr2 found Hparse.
  rewrite (bind_Return _ _ _ _ _ (print_eq _ _)) in Hrun.
  named_step_in Hrun as fr3 drawn Hdraw.
  rewrite (bind_Return _ _ _ _ _ (print_eq _ _)) in Hrun.
  rewrite (bind_Return _ _ _ _ _ (print_eq _ _)) in Hrun.
  named_step_in Hrun as fr4 summed Hsum.
  unfold ret in Hrun. injection Hrun as <- <-.
  destruct drawn.
  apply draw_bounding_boxes_result_v2 in Hdraw
    as (img & dpi & font & cmds & Hopen & Hloop & small_font & Hsaved).
  cbn [world symbols fs with_console] in *.
  assert (Hout : fs (world fr4) !! out
                 = Some (File (ImageData
                                 (annotated img (cmds ++ V2.banner small_font found))
                                 None))).
  { eapply (stays_step _ _ _ _ _ _ (print_summary_stays_v2 _ _ _) Hsum).
    cbn. by rewrite Hsaved, lookup_insert_eq. }
  assert (Huniform : Forall uniform found).
  { destruct (parse_omr_file_uniform omr_file
                (mkFrame (symbols fr1)
                   (with_console (console (world fr1) ++ ["Parsing symbols..."])
                      (world fr1))))
      as (w2 & l & Hl & Hall).
    rewrite Hparse in Hl. by injection Hl as _ ->. }
  split; [reflexivity|].
  exists img, dpi, font, small_font, found, cmds. eexists _, _, omr_file.
  split; [exact (call_run _ _ _ _ Hparse)|].
  split; [exact Huniform|]. split; [exact Hloop|]. split; [exact Hout|].
  intros Hc. rewrite <- Hopen. symmetry.
  eapply (stays_step _ _ _ _ _ _ (parse_omr_file_stays _ _ _) Hparse).
  cbn.
  by eapply (stays_step _ _ _ _ _ _ (run_audiveris_stays_v2 _ _ _ _ Hc) Haud).
Qed.

End ProcessImageV2.


Section ProcessImageKeeps.
Context `{Platform} (q : Path) (n : Node).

#[local] Hint Resolve keeps_Image_save_stays run_audiveris_stays_v1
  run_audiveris_stays_v2 parse_omr_output_stays parse_omr_file_stays
  print_summary_stays_v1 print_summary_stays_v2 : world.

Lemma draw_bounding_boxes_stays_v1 image_path l out :
  out ≠ q → keeps (world_rel (stays q n)) (V1._draw_bounding_boxes image_path l out).
Proof. intros Hne. unfold V1._draw_bounding_boxes. world_tac. Qed.

Lemma draw_bounding_boxes_stays_v2 image_path l out :
  out ≠ q → keeps (world_rel (stays q n)) (V2._draw_bounding_boxes image_path l out).
Proof. intros Hne. unfold V2._draw_bounding_boxes. world_tac. Qed.

#[local] Hint Resolve draw_bounding_boxes_stays_v1 draw_bounding_boxes_stays_v2 : world.

Lemma process_image_stays_v1 self image_path output_path :
  children_preserve q →
  chosen_output image_path output_path ≠ q →
  keeps (world_rel (stays q n)) (V1.process_image self image_path output_path).
Proof.
  intros Hc Hne. unfold V1.process_image.
  change (match output_path with
          | Some p0 => p0
          | None => V1.default_output image_path
          end) with (chosen_output image_path output_path).
  world_tac.
Qed.

Lemma process_image_stays_v2 self image_path output_path :
  children_preserve q →
  chosen_output image_path output_path ≠ q →
  keeps (world_rel (stays q n)) (V2.process_image self image_path output_path).
Proof.
  intros Hc Hne. unfold V2.process_image.
  change (match output_path with
          | Some p0 => p0
          | None => V2.default_output image_path
          end) with (chosen_output image_path output_path).
  world_tac.
Qed.

End ProcessImageKeeps.

(** The input file of [process_image] is as before, however the call ends. *)
Lemma input_kept `{Platform} (m : M Path) (image_path : Path) (w w' : World)
    (r : Outcome Path) :
  (∀ n, keeps (world_rel (stays image_path n)) m) →
  (fs w !! image_path = None → run m w = (w', r) → fs w' = fs w) →
  run m w = (w', r) →
  fs w' !! image_path = fs w !! image_path.
Proof.
  intros Hkeeps Hmissing Hrun.
  destruct (fs w !! image_path) as [n|] eqn:Himg.
  - specialize (Hkeeps n (mkFrame [] w)). unfold run in Hrun.
    destruct (m (mkFrame [] w)) as [fr' r']. injection Hrun as <- <-.
    by apply Hkeeps.
  - by rewrite (Hmissing eq_refl Hrun).
Qed.



(** * Further properties of the code *)

(** ** The capital-letter filter of the v2 [inter] loop *)

Lemma prefix_lower a b :
  String.prefix a b = true → String.prefix (Str.lower a) (Str.lower b) = true.
Proof.
  revert b. induction a as [|c a IH]; intros b; [by destruct b|].
  destruct b as [|d b]; [done|].
  change (String.prefix (String c a) (String d b))
    with (match ascii_dec c d with
          | left _ => String.prefix a b
          | right _ => false
          end).
  destruct (ascii_dec c d) as [<-|]; [|done].
  intros Hab.
  change (String.prefix (Str.lower (String c a)) (Str.lower (String c b)))
    with (match ascii_dec (Str.lower_ascii c) (Str.lower_ascii c) with
          | left _ => String.prefix (Str.lower a) (Str.lower b)
          | right _ => false
          end).
  destruct (ascii_dec _ _); [by apply IH | done].
Qed.

Lemma contains_lower a b :
  Str.contains a b = true → Str.contains (Str.lower a) (Str.lower b) = true.
Proof.
  induction b as [|d b IH].
  - change (Str.contains a "") with (String.prefix a "" || false).
    change (Str.contains (Str.lower a) (Str.lower ""))
      with (String.prefix (Str.lower a) (Str.lower "") || false).
    rewrite !orb_false_r. apply prefix_lower.
  - change (Str.contains a (String d b))
      with (String.prefix a (String d b) || Str.contains a b).
    change (Str.contains (Str.lower a) (Str.lower (String d b)))
      with (String.prefix (Str.lower a) (Str.lower (String d b))
            || Str.contains (Str.lower a) (Str.lower b)).
    intros [Hp|Hc]%orb_prop.
    + by rewrite (prefix_lower _ _ Hp).
    + by rewrite (IH Hc), orb_true_r.
Qed.

(** X1.  A shape that passes the capital-letter filter of the v2 [inter]
    loop ([SHARP], [FLAT] or [NATURAL] occurs in it) is always classified,
    and as an accidental: the loop never records a notehead and its test
    [if symbol_type] never fails. *)
Theorem inter_filter_gives_accidental (shape : string) :
  V2.accidental_shape shape = true →
  ∃ t, V2._classify_symbol shape = Some t ∧ t ∈ accidental_types.
Proof.
  unfold V2.accidental_shape, V2._classify_symbol, accidental_types.
  intros Hshape.
  destruct (Str.contains "sharp" (Str.lower shape)) eqn:Hsharp;
    [eexists; split; [reflexivity | set_solver]|].
  destruct (Str.contains "flat" (Str.lower shape)) eqn:Hflat;
    [eexists; split; [reflexivity | set_solver]|].
  destruct (Str.contains "natural" (Str.lower shape)) eqn:Hnatural;
    [eexists; split; [reflexivity | set_solver]|].
  exfalso.
  apply orb_prop in Hshape as [[Hs|Hf]%orb_prop|Hn].
  - apply contains_lower in Hs. change (Str.lower "SHARP") with "sharp" in Hs.
    congruence.
  - apply contains_lower in Hf. change (Str.lower "FLAT") with "flat" in Hf.
    congruence.
  - apply contains_lower in Hn. change (Str.lower "NATURAL") with "natural" in Hn.
    congruence.
Qed.

Lemma inter_filter_gives_accidental_witness :
  V2.accidental_shape "FLAT_SHARP" = true
  ∧ ∃ t, V2._classify_symbol "FLAT_SHARP" = Some t ∧ t ∈ accidental_types.
Proof.
  split; [reflexivity|].
  apply (inter_filter_gives_accidental "FLAT_SHARP"). reflexivity.
Defined.

(** ** At most one record for each element *)

Lemma adds_weaken {A} (a b : nat) (m : M A) : adds a m → (a ≤ b)%nat → adds b m.
Proof. intros Hm Hab fr. destruct (Hm fr) as (l & Hl & Hlen). exists l. split; [done | lia]. Qed.

Lemma adds_reads {A} (k : nat) (m : M A) : reads m → adds k m.
Proof.
  intros Hm fr. rewrite Hm. exists []. rewrite app_nil_r. split; [done | simpl; lia].
Qed.

Lemma adds_ret {A} (k : nat) (a : A) : adds k (ret a).
Proof. apply adds_reads, reads_ret. Qed.

Lemma adds_raise {A} (k : nat) c msg : adds k (@raise A c msg).
Proof. apply adds_reads, reads_raise. Qed.

Lemma adds_print (k : nat) line : adds k (print line).
Proof. intros fr. exists []. simpl. rewrite app_nil_r. split; [done | lia]. Qed.

Lemma adds_append (k : nat) d : adds (S k) (append d).
Proof. intros fr. exists [d]. simpl. split; [done | lia]. Qed.

Lemma adds_bind {A B} (a b : nat) (m : M A) (k : A → M B) :
  adds a m → (∀ x, adds b (k x)) → adds (a + b) (bind m k).
Proof.
  intros Hm Hk fr. unfold bind. destruct (Hm fr) as (l1 & Hl1 & Hlen1).
  destruct (m fr) as [fr' [x|e]]; simpl in Hl1.
  - destruct (Hk x fr') as (l2 & Hl2 & Hlen2). exists (l1 ++ l2).
    rewrite Hl2, Hl1, app_assoc, length_app. split; [done | lia].
  - exists l1. simpl. split; [done | lia].
Qed.

Lemma adds_for_each {A} (k : nat) (l : list A) (body : A → M unit) :
  (∀ x, adds k (body x)) → adds (k * length l) (for_each l body).
Proof.
  intros Hb. induction l as [|x l IH]; simpl.
  - apply adds_ret.
  - eapply adds_weaken; [apply (adds_bind k (k * length l)); [apply Hb | intros _; exact IH]|].
    lia.
Qed.

(** A step that appends at most one record, at its end. *)
Ltac adds_one :=
  repeat first
    [ apply adds_ret | apply adds_raise | apply adds_append | apply adds_print
    | apply adds_reads; reads_leaf
    | apply (adds_bind 0%nat 1%nat); [|intro]
    | match goal with
      | |- adds _ (match ?x with _ => _ end) => destruct x
      end ].

(** A function of the shape
    [symbols = []; try: T; except Exception as e: print(...); return symbols]
    returns the list [T] leaves behind. *)
Lemma collector_value (T : M unit) (E : Exn → M unit) :
  (∀ e fr, ∃ w', E e fr = (mkFrame (symbols fr) w', Return tt)) →
  ∀ fr, ∃ w',
    call (set_symbols [] ;; try_except T E ;; get_symbols) fr
    = (mkFrame (symbols fr) w',
       Return (symbols (fst (T (mkFrame [] (world fr)))))).
Proof.
  intros HE fr.
  unfold call, bind, set_symbols, try_except, get_symbols. cbn [world symbols].
  destruct (T _) as [fr1 [[]|e]]; simpl; [by eexists|].
  destruct (HE e fr1) as (w' & ->). simpl. by eexists.
Qed.

Section Bounds.
Context `{Platform}.

Lemma book_inter_adds e : adds 1 (V1.book_inter e).
Proof. unfold V1.book_inter. adds_one. Qed.

Lemma sheet_head_adds e : adds 1 (V2.sheet_head e).
Proof. unfold V2.sheet_head. adds_one. Qed.

Lemma classified_adds shape bounds : adds 1 (V2.classified shape bounds).
Proof. unfold V2.classified. adds_one. Qed.

Lemma sheet_key_alter_adds e : adds 1 (V2.sheet_key_alter e).
Proof. unfold V2.sheet_key_alter. adds_one. apply classified_adds. Qed.

Lemma sheet_inter_adds e : adds 1 (V2.sheet_inter e).
Proof. unfold V2.sheet_inter. adds_one. apply classified_adds. Qed.

Lemma book_try_adds p fr :
  ∃ l, symbols (fst (V1.book_try p fr)) = symbols fr ++ l
       ∧ (length l ≤ book_elements (fs (world fr)) p)%nat.
Proof.
  unfold V1.book_try, book_elements.
  destruct (fs (world fr) !! p) as [[|[root| | | |]]|] eqn:Hp;
    try (unfold bind, ET_parse, bind, get_world; cbn [world]; rewrite Hp;
         exists []; simpl; rewrite app_nil_r; split; [done | lia]).
  assert (Hparse : ET_parse p fr = (fr, Return root)).
  { unfold ET_parse, bind, get_world. by rewrite Hp. }
  rewrite (bind_Return _ _ _ _ _ Hparse).
  assert (Hadds : adds (1 * length (ET.descendants "inter" root) + 0)
            (for_each (ET.descendants "inter" root) V1.book_inter ;;
             found <- get_symbols ;;
             print ("Found " +:+ pretty (Z.of_nat (length found))
                    +:+ " symbols in OMR book file"))).
  { apply adds_bind; [apply adds_for_each, book_inter_adds|].
    intros _. apply (adds_bind 0 0); [apply adds_reads, reads_get_symbols|].
    intros found. apply adds_print. }
  destruct (Hadds fr) as (l & Hl & Hlen). exists l. split; [exact Hl | lia].
Qed.

Lemma sheet_try_adds p fr :
  ∃ l, symbols (fst (V2.sheet_try p fr)) = symbols fr ++ l
       ∧ (length l ≤ sheet_elements (fs (world fr)) p)%nat.
Proof.
  unfold V2.sheet_try, sheet_elements.
  destruct (fs (world fr) !! p) as [[|[root| | | |]]|] eqn:Hp;
    try (unfold bind, ET_parse, bind, get_world; cbn [world]; rewrite Hp;
         exists []; simpl; rewrite app_nil_r; split; [done | lia]).
  assert (Hparse : ET_parse p fr = (fr, Return root)).
  { unfold ET_parse, bind, get_world. by rewrite Hp. }
  rewrite (bind_Return _ _ _ _ _ Hparse).
  destruct (ET.find_desc_child "sig" "inters" root) as [inters|].
  - assert (Hadds :
      adds (1 * length (ET.descendants "head" inters)
            + (1 * length (ET.descendants "key-alter" inters)
               + 1 * length (ET.descendants "inter" inters)))
        (for_each (ET.descendants "head" inters) V2.sheet_head ;;
         for_each (ET.descendants "key-alter" inters) V2.sheet_key_alter ;;
         for_each (ET.descendants "inter" inters) V2.sheet_inter)).
    { apply adds_bind; [apply adds_for_each, sheet_head_adds|]. intros _.
      apply adds_bind; [apply adds_for_each, sheet_key_alter_adds|]. intros _.
      apply adds_for_each, sheet_inter_adds. }
    destruct (Hadds fr) as (l & Hl & Hlen). exists l. split; [exact Hl | lia].
  - exists []. simpl. rewrite app_nil_r. split; [done | lia].
Qed.

End Bounds.

(** X2.  The book parser of v1 and the sheet parser of v2 return at most one
    record for each element their loops visit: the list returned for a file
    is no longer than the number of [inter] elements of the book, or of
    [head], [key-alter] and [inter] elements in the [sig/inters] section of
    the sheet, and it is empty for a file that is missing or not XML. *)
Theorem one_record_per_element `{Platform} (w : World) (p : Path) :
  (∃ w' l, run (V1._parse_omr_book p) w = (w', Return l)
           ∧ (length l ≤ book_elements (fs w) p)%nat)
  ∧ (∃ w' l, run (V2._parse_sheet_xml p) w = (w', Return l)
             ∧ (length l ≤ sheet_elements (fs w) p)%nat).
Proof.
  unfold run. split.
  - destruct (collector_value (V1.book_try p) V1.book_except) with (fr := mkFrame [] w)
      as (w' & Hrun); [intros e fr; by eexists|].
    unfold V1._parse_omr_book. rewrite Hrun. eexists _, _. split; [reflexivity|].
    cbn [world]. destruct (book_try_adds p (mkFrame [] w)) as (l & -> & Hlen). exact Hlen.
  - destruct (collector_value (V2.sheet_try p) V2.sheet_except) with (fr := mkFrame [] w)
      as (w' & Hrun); [intros e fr; by eexists|].
    unfold V2._parse_sheet_xml. rewrite Hrun. eexists _, _. split; [reflexivity|].
    cbn [world]. destruct (sheet_try_adds p (mkFrame [] w)) as (l & -> & Hlen). exact Hlen.
Qed.

(** ** An archive without sheet directories *)

Lemma proper_prefixes_head (p d : Path) :
  In d (proper_prefixes p) → not_sheet p → not_sheet d.
Proof.
  destruct p as [|c rest]; simpl; [tauto|].
  destruct rest as [|c' rest]; [simpl; tauto|].
  intros [<-|Hin] Hp; [exact Hp|].
  apply in_map_iff in Hin as (d' & <- & _). exact Hp.
Qed.

Lemma make_dirs_raise (dirs : list Path) (e : Exn) :
  List.fold_left make_dir dirs (Raise e) = Raise e.
Proof. induction dirs as [|d dirs IH]; simpl; [done | exact IH]. Qed.

Lemma extract_members_raise (members : list (Path * ZipMember)) (e : Exn) :
  List.fold_left extract_member members (Raise e) = Raise e.
Proof.
  induction members as [|member members IH]; simpl; [done|].
  unfold extract_member at 2. by rewrite make_dirs_raise.
Qed.

Lemma make_dirs_not_sheet (dirs : list Path) :
  (∀ d, In d dirs → not_sheet d) →
  ∀ tree tree',
    (∀ k, is_Some (tree !! k) → not_sheet k) →
    List.fold_left make_dir dirs (Return tree) = Return tree' →
    ∀ k, is_Some (tree' !! k) → not_sheet k.
Proof.
  induction dirs as [|d dirs IH]; simpl; intros Hd tree tree' Ht Hfold.
  - by injection Hfold as <-.
  - destruct (tree !! d) as [[|data]|] eqn:Hlook.
    + eapply IH; [intros; apply Hd; by right | exact Ht | exact Hfold].
    + by rewrite make_dirs_raise in Hfold.
    + eapply IH; [intros; apply Hd; by right | | exact Hfold].
      intros k. destruct (decide (d = k)) as [<-|Hne].
      * intros _. apply Hd. by left.
      * rewrite lookup_insert_ne by exact Hne. apply Ht.
Qed.

Lemma insert_not_sheet (tree : FS) (target : Path) (n : Node) :
  not_sheet target →
  (∀ k, is_Some (tree !! k) → not_sheet k) →
  ∀ k, is_Some (<[target := n]> tree !! k) → not_sheet k.
Proof.
  intros Htarget Ht k. destruct (decide (target = k)) as [<-|Hne]; [done|].
  rewrite lookup_insert_ne by exact Hne. apply Ht.
Qed.

Lemma extract_member_not_sheet (tree tree' : FS) (member : Path * ZipMember) :
  not_sheet (sanitized (fst member)) →
  (∀ k, is_Some (tree !! k) → not_sheet k) →
  extract_member (Return tree) member = Return tree' →
  ∀ k, is_Some (tree' !! k) → not_sheet k.
Proof.
  intros Hm Ht. unfold extract_member.
  destruct (List.fold_left make_dir _ (Return tree)) as [made|e] eqn:Hmade;
    [|discriminate].
  assert (Hmade' : ∀ k, is_Some (made !! k) → not_sheet k).
  { eapply make_dirs_not_sheet; [|exact Ht|exact Hmade].
    intros d Hd. by apply (proper_prefixes_head (sanitized (fst member))). }
  destruct (snd member), (node_at made (sanitized (fst member))) as [[|data]|];
    intros [= <-]; try exact Hmade'; by apply insert_not_sheet.
Qed.

Lemma extractall_not_sheet (members : list (Path * ZipMember)) (content : FS) :
  no_sheet_entry members →
  extractall members = Return content →
  ∀ k, is_Some (content !! k) → not_sheet k.
Proof.
  unfold extractall, no_sheet_entry.
  assert (Hgen : ∀ tree, Forall (λ member, not_sheet (sanitized (fst member))) members →
            (∀ k, is_Some (tree !! k) → not_sheet k) →
            List.fold_left extract_member members (Return tree) = Return content →
            ∀ k, is_Some (content !! k) → not_sheet k).
  { induction members as [|member members IH]; simpl; intros tree Hall Ht Hfold.
    - by injection Hfold as <-.
    - inversion Hall; subst.
      destruct (extract_member (Return tree) member) as [tree1|e] eqn:Hone.
      + eapply IH; [eassumption | | exact Hfold].
        by eapply extract_member_not_sheet.
      + by rewrite extract_members_raise in Hfold. }
  intros Hall. apply Hgen; [exact Hall|].
  intros k [x Hx]. by rewrite lookup_empty in Hx.
Qed.

Lemma filter_none {A} (f : A → bool) (l : list A) :
  (∀ x, In x l → f x = false) → List.filter f l = [].
Proof.
  induction l as [|x l IH]; simpl; intros Hf; [done|].
  rewrite (Hf x) by (by left). apply IH. intros; apply Hf; by right.
Qed.

(** X3.  An archive none of whose members is unpacked into, or as, a
    top-level entry [sheet#...] (member names taken as [extractall] takes
    them, without empty, [.] and [..] components) gives the v2 parser
    nothing to read.  When the archive unpacks, the parser returns the empty
    list, prints nothing and leaves the world as it was; when a member cannot
    be unpacked, it returns the empty list after one diagnostic line. *)
Theorem archive_without_sheets `{Platform} (w : World) (p : Path)
    (members : list (Path * ZipMember)) :
  fs w !! p = Some (File (ZipData members None)) →
  no_sheet_entry members →
  run (V2._parse_omr_file p) w
  = match extractall members with
    | Return _ => (w, Return [])
    | Raise e =>
        (with_console (console w ++ ["Error parsing OMR file: " +:+ exn_msg e]) w,
         Return [])
    end.
Proof.
  intros Hp Hnone.
  unfold run, V2._parse_omr_file, call, bind, set_symbols, try_except, V2.file_try,
    bind, ZipFile_read, bind, get_world, lift, ret.
  cbn [world symbols fs with_fs]. rewrite Hp. cbn [world symbols fs with_fs].
  destruct (extractall members) as [content|e] eqn:Hunpack; [|reflexivity].
  assert (Hglob : List.filter
            (fun q => match q with
                      | [n] => String.prefix "sheet#" n
                      | _ => false
                      end)
            (List.map fst (map_to_list content)) = []).
  { apply filter_none. intros q Hq.
    apply in_map_iff in Hq as ([q' x] & <- & Hin). simpl.
    apply list_elem_of_In, elem_of_map_to_list in Hin.
    pose proof (extractall_not_sheet members content Hnone Hunpack q'
                  (mk_is_Some _ _ Hin)) as Hq.
    destruct q' as [|n [|]]; try done. }
  unfold in_temporary_directory, glob_prefix, bind, get_world, ret.
  cbn [world symbols fs with_fs]. rewrite Hglob. simpl. by destruct w.
Qed.

Lemma archive_without_sheets_witness :
  let members := [(["book.xml"], ZOther); ([".."; "notes"; "sheet#1.xml"], ZOther)] in
  let w := with_fs (<[["empty.omr"] := File (ZipData members None)]> ∅) Demo.world0 in
  run (@V2._parse_omr_file Demo.platform ["empty.omr"]) w = (w, Return []).
Proof.
  intros members w.
  apply (@archive_without_sheets Demo.platform w ["empty.omr"] members).
  - reflexivity.
  - repeat constructor.
Defined.

(** ** Drawing a list of uniform records *)

(** What both drawing steps do with a uniform record: the three calls when
    the corners of its box are in order, the [ValueError] of the graphics
    library when they are not. *)
Lemma draw_symbol_uniform (font : Font) (d : Dict) :
  uniform d →
  ∃ a b c e color label,
    d !! "bbox" = Some (box4 a b c e)
    ∧ (a ≤ c ∧ b ≤ e →
       V1.draw_symbol font d
       = Return (label_calls (box4 a b c e) a (row_v1 b) color label font)
       ∧ V2.draw_symbol font d
         = Return (label_calls (box4 a b c e) a (row_v2 b) color label font))
    ∧ (c < a ∨ e < b →
       ∃ msg, V1.draw_symbol font d = Raise (mkExn ValueError msg)
              ∧ V2.draw_symbol font d = Raise (mkExn ValueError msg)).
Proof.
  intros [(t & Hty & Ht) (a & b & c & e & Hbox)].
  destruct (claimed_style_target t Ht) as (color & label & Hstyle).
  pose proof (tables_are_claimed t) as Htab. rewrite Hstyle in Htab.
  destruct Htab as (T1 & C1 & T2 & C2).
  exists a, b, c, e, color, label. split; [exact Hbox|].
  unfold V1.draw_symbol, V2.draw_symbol, V1.target_label, V2.target_label,
    V1.color_of, V2.color_of.
  rewrite Hty, Hbox, T1, T2, C1, C2. cbn [from_option id].
  split.
  - intros [Hac Hbe]. rewrite (rectangle_ordered a b c e Hac Hbe).
    split; reflexivity.
  - intros Hinv. destruct (rectangle_inverted a b c e Hinv) as (msg & ->).
    exists msg. split; reflexivity.
Qed.

Lemma uniform_ordered_dec (d : Dict) :
  uniform d → ordered_box d ∨ ∃ a b c e, d !! "bbox" = Some (box4 a b c e)
                                         ∧ (c < a ∨ e < b).
Proof.
  intros [_ (a & b & c & e & Hbox)].
  destruct (decide (a ≤ c ∧ b ≤ e)) as [Hyes|Hno].
  - left. intros a' b' c' e' Hbox'. rewrite Hbox in Hbox'.
    by injection Hbox' as <- <- <- <-.
  - right. exists a, b, c, e. split; [exact Hbox | lia].
Qed.

(** X4.  On a list of uniform records (a target type and a box of four
    integers, as the parsers return them) the drawing loop of either script
    goes through exactly when the corners of every box are in order, and then
    issues three drawing calls for each record; a box with [x1 < x0] or
    [y1 < y0], as the parsers build it from a negative [w] or [h], ends the
    loop of either script with the [ValueError] of the graphics library. *)
Theorem draw_loop_uniform (font : Font) (records : list Dict) :
  Forall uniform records →
  (Forall ordered_box records →
   ∃ cmds1 cmds2,
     V1.draw_loop font records = Return cmds1
     ∧ V2.draw_loop font records = Return cmds2
     ∧ length cmds1 = (3 * length records)%nat
     ∧ length cmds2 = (3 * length records)%nat)
  ∧ (¬ Forall ordered_box records →
     ∃ msg, V1.draw_loop font records = Raise (mkExn ValueError msg)
            ∧ V2.draw_loop font records = Raise (mkExn ValueError msg)).
Proof.
  induction 1 as [|d records Hd _ [IHyes IHno]].
  - split; [intros _; by exists [], [] | intros Hno; exfalso; apply Hno; constructor].
  - destruct (draw_symbol_uniform font d Hd)
      as (a & b & c & e & color & label & Hbox & Hyes & Hno).
    cbn [V1.draw_loop V2.draw_loop]. split.
    + intros Hord. inversion Hord as [|? ? Hd_ord Hrest]; subst.
      destruct (Hyes (Hd_ord a b c e Hbox)) as [D1 D2].
      destruct (IHyes Hrest) as (c1 & c2 & H1 & H2 & L1 & L2).
      rewrite D1, D2, H1, H2. eexists _, _.
      split; [reflexivity|]. split; [reflexivity|].
      rewrite !length_app, L1, L2. simpl. lia.
    + intros Hnot.
      destruct (uniform_ordered_dec d Hd)
        as [Hd_ord|(a' & b' & c' & e' & Hbox' & Hinv)].
      * destruct (Hyes (Hd_ord a b c e Hbox)) as [D1 D2].
        destruct IHno as (msg & H1 & H2).
        { intros Hrest. apply Hnot. by constructor. }
        rewrite D1, D2, H1, H2. by exists msg.
      * rewrite Hbox in Hbox'. injection Hbox' as <- <- <- <-.
        destruct (Hno Hinv) as (msg & D1 & D2). rewrite D1, D2. by exists msg.
Qed.

Lemma draw_loop_uniform_witness :
  (∃ cmds1 cmds2,
     V1.draw_loop DefaultFont
       [<["type" := VStr "flat"]> (<["bbox" := box4 10 20 15 28]> ∅)] = Return cmds1
     ∧ V2.draw_loop DefaultFont
         [<["type" := VStr "flat"]> (<["bbox" := box4 10 20 15 28]> ∅)] = Return cmds2
     ∧ length cmds1 = (3 * 1)%nat
     ∧ length cmds2 = (3 * 1)%nat)
  ∧ ∃ msg,
      V1.draw_loop DefaultFont
        [<["type" := VStr "flat"]> (<["bbox" := box4 10 20 5 28]> ∅)]
      = Raise (mkExn ValueError msg)
      ∧ V2.draw_loop DefaultFont
          [<["type" := VStr "flat"]> (<["bbox" := box4 10 20 5 28]> ∅)]
        = Raise (mkExn ValueError msg).
Proof.
  split.
  - apply (draw_loop_uniform DefaultFont
             [<["type" := VStr "flat"]> (<["bbox" := box4 10 20 15 28]> ∅)]).
    + constructor; [|constructor]. split.
      * exists "flat". split; [reflexivity|]. unfold target_types. set_solver.
      * by exists 10, 20, 15, 28.
    + constructor; [|constructor]. intros a b c e Hb. vm_compute in Hb.
      injection Hb as <- <- <- <-. lia.
  - apply (draw_loop_uniform DefaultFont
             [<["type" := VStr "flat"]> (<["bbox" := box4 10 20 5 28]> ∅)]).
    + constructor; [|constructor]. split.
      * exists "flat". split; [reflexivity|]. unfold target_types. set_solver.
      * by exists 10, 20, 5, 28.
    + intros Hord. inversion Hord as [|? ? Hd _]; subst.
      destruct (Hd 10 20 5 28 eq_refl). lia.
Defined.

(** X5.  The v2 script keeps every label on the canvas: for uniform records,
    each text call and each rectangle behind a text, the banner included,
    starts at a row that is not negative, however close to the top edge the
    boxes are. *)
Theorem labels_on_canvas_v2 (font small_font : Font) (symbols : list Dict)
    (cmds : list DrawCmd) :
  Forall uniform symbols →
  V2.draw_loop font symbols = Return cmds →
  Forall label_on_canvas (cmds ++ V2.banner small_font symbols).
Proof.
  intros Hall Hloop. apply Forall_app. split.
  - revert cmds Hloop. induction Hall as [|d symbols Hd _ IH]; intros cmds Hloop.
    + injection Hloop as <-. constructor.
    + destruct (draw_symbol_uniform font d Hd)
        as (a & b & c & e & color & label & Hbox & Hyes & Hno).
      cbn [V2.draw_loop] in Hloop.
      destruct (decide (a ≤ c ∧ b ≤ e)) as [Hord|Hinv].
      2:{ destruct (Hno ltac:(lia)) as (msg & _ & D2).
          rewrite D2 in Hloop. discriminate. }
      destruct (Hyes Hord) as [_ D2]. rewrite D2 in Hloop.
      destruct (V2.draw_loop font symbols) as [more|]; [|discriminate].
      injection Hloop as <-. unfold label_calls, row_v2.
      apply Forall_cons; split; [exact I|].
      apply Forall_cons; split; [eexists; split; [reflexivity | lia]|].
      apply Forall_cons; split; [eexists; split; [reflexivity | lia]|].
      by apply IH.
  - unfold V2.banner.
    apply Forall_cons; split; [eexists; split; [reflexivity | lia]|].
    apply Forall_cons; split; [eexists; split; [reflexivity | lia]|].
    constructor.
Qed.

Lemma labels_on_canvas_v2_witness :
  Forall label_on_canvas
    ([ DrawRectangle (BoxOf (box4 10 20 15 28)) (Some "#00FF00") None 3;
       DrawRectangle (TextBBox (VInt 10) (VInt 0) "b" DefaultFont)
                     None (Some "#00FF00") 1;
       DrawText (VInt 10) (VInt 0) "b" "white" DefaultFont ]
     ++ V2.banner DefaultFont
          [<["type" := VStr "flat"]> (<["bbox" := box4 10 20 15 28]> ∅)]).
Proof.
  apply (labels_on_canvas_v2 DefaultFont DefaultFont
           [<["type" := VStr "flat"]> (<["bbox" := box4 10 20 15 28]> ∅)]).
  - constructor; [|constructor].
    split.
    + exists "flat". split; [reflexivity|]. unfold target_types. set_solver.
    + by exists 10, 20, 15, 28.
  - reflexivity.
Defined.

(** ** Running the recogniser *)

Section Recogniser.
Context `{Platform}.

Lemma mkdir_made p fr :
  can_mkdir (fs (world fr)) p →
  ∃ fr', mkdir_exist_ok p fr = (fr', Return tt)
         ∧ symbols fr' = symbols fr
         ∧ fs (world fr') = made_dir p (fs (world fr))
         ∧ environ (world fr') = environ (world fr)
         ∧ console (world fr') = console (world fr)
         ∧ errors (world fr') = errors (world fr)
         ∧ spawned (world fr') = spawned (world fr).
Proof.
  unfold can_mkdir, made_dir, mkdir_exist_ok, bind, get_world.
  destruct (fs (world fr) !! p) as [[|d]|]; [|done|]; intros _;
    eexists; (split; [reflexivity|]); by repeat split.
Qed.

Lemma run_process_eq cmd env timeout fr :
  run_process cmd env timeout fr
  = let w := with_spawned (spawned (world fr) ++ [cmd]) (world fr) in
    match subprocess_run cmd env timeout (fs (world fr)) with
    | Completed rc out err fs' =>
        (mkFrame (symbols fr) (with_fs fs' w), Return (rc, out, err))
    | Expired fs' =>
        (mkFrame (symbols fr) (with_fs fs' w),
         Raise (mkExn TimeoutExpired
                  ("Command '" +:+ Str.join " " cmd +:+ "' timed out")))
    | NotStarted e => (mkFrame (symbols fr) w, Raise e)
    end.
Proof.
  unfold run_process, bind, get_world, spawn. cbn [world symbols fs with_spawned].
  by destruct (subprocess_run cmd env timeout (fs (world fr))).
Qed.

Lemma child_env_environ w w' : environ w' = environ w → V2.child_env w' = V2.child_env w.
Proof. intros Henv. unfold V2.child_env. by rewrite Henv. Qed.

End Recogniser.

(** X6.  When the recogniser runs into the timeout of 300 seconds, either
    script turns the [TimeoutExpired] of [subprocess.run] into a
    [RuntimeError] with the message "Audiveris timed out (5 minutes)"; the
    file system is left as the killed process left it. *)
Theorem timeout_is_runtime_error `{Platform} (w : World) (exe : string)
    (image_path : Path) :
  String.eqb exe "" = false →
  can_mkdir (fs w) (output_dir image_path) →
  (∀ fs',
     subprocess_run (command_v1 exe image_path) (environ w) (Some 300)
       (made_dir (output_dir image_path) (fs w)) = Expired fs' →
     ∃ w', run (V1._run_audiveris (Some exe) image_path) w
           = (w', Raise (mkExn RuntimeError "Audiveris timed out (5 minutes)"))
           ∧ fs w' = fs')
  ∧ (∀ fs',
       subprocess_run (recognizer_args exe image_path) (V2.child_env w) (Some 300)
         (made_dir (output_dir image_path) (fs w)) = Expired fs' →
       ∃ w', run (V2._run_audiveris (Some exe) image_path) w
             = (w', Raise (mkExn RuntimeError "Audiveris timed out (5 minutes)"))
             ∧ fs w' = fs').
Proof.
  intros Hexe Hdir.
  destruct (mkdir_made (output_dir image_path) (mkFrame [] w) Hdir)
    as (fr1 & Hmk & _ & Hfs & Henv & _).
  cbn [world] in Hfs, Henv.
  split; intros fs' Hrun.
  - unfold run, V1._run_audiveris, call. rewrite Hexe. cbn [world symbols].
    fold (output_dir image_path).
    rewrite (bind_Return _ _ _ _ _ Hmk).
    rewrite (bind_Return _ _ _ _ _ (eq_refl : get_world fr1 = (fr1, Return (world fr1)))).
    fold (recognizer_args exe image_path).
    change (if Str.endswith exe ".jar"
            then "java" :: "-jar" :: recognizer_args exe image_path
            else recognizer_args exe image_path)
      with (command_v1 exe image_path).
    unfold bind at 1, try_except_class, bind at 1.
    rewrite run_process_eq, Henv, Hfs, Hrun. cbn.
    eexists. split; reflexivity.
  - unfold run, V2._run_audiveris, call. rewrite Hexe. cbn [world symbols].
    fold (output_dir image_path).
    rewrite (bind_Return _ _ _ _ _ Hmk).
    rewrite (bind_Return _ _ _ _ _ (eq_refl : get_world fr1 = (fr1, Return (world fr1)))).
    fold (recognizer_args exe image_path).
    unfold bind at 1, try_except_class, bind at 1.
    rewrite run_process_eq, (child_env_environ _ _ Henv), Hfs, Hrun. cbn.
    eexists. split; reflexivity.
Qed.

Lemma timeout_is_runtime_error_witness :
  (∃ w', run (@V1._run_audiveris Demo.stalled (Some "audiveris") ["scan.png"])
             Demo.world0
         = (w', Raise (mkExn RuntimeError "Audiveris timed out (5 minutes)"))
         ∧ fs w' = made_dir ["audiveris_output"] (fs Demo.world0))
  ∧ (∃ w', run (@V2._run_audiveris Demo.stalled (Some "audiveris") ["scan.png"])
               Demo.world0
           = (w', Raise (mkExn RuntimeError "Audiveris timed out (5 minutes)"))
           ∧ fs w' = made_dir ["audiveris_output"] (fs Demo.world0)).
Proof.
  destruct (@timeout_is_runtime_error Demo.stalled Demo.world0 "audiveris" ["scan.png"]
              eq_refl I) as [H1 H2].
  split; [apply H1 | apply H2]; reflexivity.
Defined.

(** X7.  In v1 a recogniser that exits with a code other than 0 ends the run:
    its error stream is printed after "Audiveris stderr: " and a
    [RuntimeError] "Audiveris failed with code N" is raised, whatever files
    the recogniser wrote. *)
Theorem nonzero_exit_raises_v1 `{Platform} (w : World) (exe : string)
    (image_path : Path) (rc : Z) (out err : string) (fs' : FS) :
  String.eqb exe "" = false →
  can_mkdir (fs w) (output_dir image_path) →
  subprocess_run (command_v1 exe image_path) (environ w) (Some 300)
    (made_dir (output_dir image_path) (fs w)) = Completed rc out err fs' →
  rc ≠ 0 →
  ∃ w', run (V1._run_audiveris (Some exe) image_path) w
        = (w', Raise (mkExn RuntimeError
                        ("Audiveris failed with code " +:+ pretty rc)))
        ∧ console w' = console w ++ ["Audiveris stderr: " +:+ err]
        ∧ fs w' = fs'.
Proof.
  intros Hexe Hdir Hrun Hrc.
  destruct (mkdir_made (output_dir image_path) (mkFrame [] w) Hdir)
    as (fr1 & Hmk & _ & Hfs & Henv & Hcons & _).
  cbn [world] in Hfs, Henv, Hcons.
  unfold run, V1._run_audiveris, call. rewrite Hexe. cbn [world symbols].
  fold (output_dir image_path).
  rewrite (bind_Return _ _ _ _ _ Hmk).
  rewrite (bind_Return _ _ _ _ _ (eq_refl : get_world fr1 = (fr1, Return (world fr1)))).
  fold (recognizer_args exe image_path).
  change (if Str.endswith exe ".jar"
          then "java" :: "-jar" :: recognizer_args exe image_path
          else recognizer_args exe image_path)
    with (command_v1 exe image_path).
  unfold bind at 1, try_except_class, bind at 1.
  rewrite run_process_eq, Henv, Hfs, Hrun.
  apply Z.eqb_neq in Hrc. cbn. rewrite Hrc. cbn. rewrite Hcons.
  eexists. split; [reflexivity|]. split; reflexivity.
Qed.

Lemma nonzero_exit_raises_v1_witness :
  ∃ w', run (@V1._run_audiveris Demo.failing (Some "audiveris") ["scan.png"])
            Demo.world0
        = (w', Raise (mkExn RuntimeError ("Audiveris failed with code " +:+ pretty 2)))
        ∧ console w' = console Demo.world0 ++ ["Audiveris stderr: " +:+ "no java"]
        ∧ fs w' = made_dir ["audiveris_output"] (fs Demo.world0).
Proof.
  apply (@nonzero_exit_raises_v1 Demo.failing Demo.world0 "audiveris" ["scan.png"]
           2 "" "no java").
  - reflexivity.
  - exact I.
  - reflexivity.
  - discriminate.
Defined.

(** X8.  In v2 the exit code of the recogniser decides nothing: once the
    process has ended, the run returns the path [<stem>.omr] in the output
    directory when that file exists and raises "OMR output not found"
    otherwise; a code other than 0 only adds a printed line. *)
Theorem exit_code_ignored_v2 `{Platform} (w : World) (exe : string)
    (image_path : Path) (rc : Z) (out err : string) (fs' : FS) :
  String.eqb exe "" = false →
  can_mkdir (fs w) (output_dir image_path) →
  subprocess_run (recognizer_args exe image_path) (V2.child_env w) (Some 300)
    (made_dir (output_dir image_path) (fs w)) = Completed rc out err fs' →
  ∃ w', run (V2._run_audiveris (Some exe) image_path) w
        = (w', match fs' !! omr_file_v2 image_path with
               | Some _ => Return (omr_file_v2 image_path)
               | None =>
                   Raise (mkExn RuntimeError
                            ("OMR output not found: "
                             +:+ PurePath.str (omr_file_v2 image_path)))
               end)
        ∧ console w'
          = console w ++ (if rc =? 0 then [] else ["Audiveris stderr: " +:+ err])
        ∧ fs w' = fs'.
Proof.
  intros Hexe Hdir Hrun.
  destruct (mkdir_made (output_dir image_path) (mkFrame [] w) Hdir)
    as (fr1 & Hmk & _ & Hfs & Henv & Hcons & _).
  cbn [world] in Hfs, Henv, Hcons.
  unfold run, V2._run_audiveris, call. rewrite Hexe. cbn [world symbols].
  fold (output_dir image_path). fold (omr_file_v2 image_path).
  rewrite (bind_Return _ _ _ _ _ Hmk).
  rewrite (bind_Return _ _ _ _ _ (eq_refl : get_world fr1 = (fr1, Return (world fr1)))).
  fold (recognizer_args exe image_path).
  unfold bind at 1, try_except_class, bind at 1.
  rewrite run_process_eq, (child_env_environ _ _ Henv), Hfs, Hrun.
  cbn. destruct (rc =? 0) eqn:Hrc; cbn;
    destruct (fs' !! omr_file_v2 image_path); cbn;
    eexists; (split; [reflexivity|]); cbn; rewrite ?Hcons, ?app_nil_r;
    split; reflexivity.
Qed.

Lemma exit_code_ignored_v2_witness :
  let w := with_fs (<[["audiveris_output"; "scan.omr"] := File (ZipData [] None)]>
                      (fs Demo.world0)) Demo.world0 in
  ∃ w', run (@V2._run_audiveris Demo.failing (Some "audiveris") ["scan.png"]) w
        = (w', Return ["audiveris_output"; "scan.omr"])
        ∧ console w' = console w ++ ["Audiveris stderr: " +:+ "no java"].
Proof.
  intros w.
  destruct (@exit_code_ignored_v2 Demo.failing w "audiveris" ["scan.png"]
              2 "" "no java" (made_dir ["audiveris_output"] (fs w))
              eq_refl I eq_refl) as (w' & Hrun & Hcons & _).
  exists w'. split; [exact Hrun | exact Hcons].
Defined.

Section RecogniserReturns.
Context `{Platform}.

Lemma mkdir_spawned p fr fr' r :
  mkdir_exist_ok p fr = (fr', r) → spawned (world fr') = spawned (world fr).
Proof.
  unfold mkdir_exist_ok, bind, get_world.
  destruct (fs (world fr) !! p) as [[|d]|]; by intros [= <- _].
Qed.

(** The guarded call of v1, when it returns, has spawned its command. *)
Lemma guarded_run_v1 cmd env fr fr' :
  try_except_class TimeoutExpired
    (r <- run_process cmd env (Some 300) ;;
     match r with
     | (returncode, _, err) =>
         if negb (returncode =? 0) then
           print ("Audiveris stderr: " +:+ err) ;;
           raise RuntimeError ("Audiveris failed with code " +:+ pretty returncode)
         else ret tt
     end)
    (raise RuntimeError "Audiveris timed out (5 minutes)") fr = (fr', Return tt) →
  spawned (world fr') = spawned (world fr) ++ [cmd]
  ∧ ∃ out err, subprocess_run cmd env (Some 300) (fs (world fr))
               = Completed 0 out err (fs (world fr')).
Proof.
  unfold try_except_class, bind at 1. rewrite run_process_eq.
  destruct (subprocess_run cmd env (Some 300) (fs (world fr)))
    as [rc out err fs'|fs'|[c msg]]; cbn.
  - destruct (rc =? 0) eqn:Hrc; cbn; [|discriminate].
    apply Z.eqb_eq in Hrc as ->. intros [= <-]. cbn. split; [done | by eexists _, _].
  - discriminate.
  - destruct (decide (c = TimeoutExpired)); discriminate.
Qed.

Lemma guarded_run_v2 cmd env fr fr' :
  try_except_class TimeoutExpired
    (r <- run_process cmd env (Some 300) ;;
     match r with
     | (returncode, _, err) =>
         if negb (returncode =? 0) then print ("Audiveris stderr: " +:+ err)
         else ret tt
     end)
    (raise RuntimeError "Audiveris timed out (5 minutes)") fr = (fr', Return tt) →
  spawned (world fr') = spawned (world fr) ++ [cmd].
Proof.
  unfold try_except_class, bind at 1. rewrite run_process_eq.
  destruct (subprocess_run cmd env (Some 300) (fs (world fr)))
    as [rc out err fs'|fs'|[c msg]]; cbn.
  - destruct (rc =? 0); cbn; by intros [= <-].
  - discriminate.
  - destruct (decide (c = TimeoutExpired)); discriminate.
Qed.

End RecogniserReturns.

(** X9.  A path returned by [_run_audiveris] names a file that exists when
    the function returns.  In v1 it is [<stem>.mxl] in the project directory,
    or [<stem>.xml] when there is no [<stem>.mxl]; in v2 it is [<stem>.omr] in
    the output directory.  A path is returned only for a non-empty recogniser
    path, after exactly one command was run: in v1 [java -jar] with the
    arguments for a [.jar] file, and only after exit code 0. *)
Theorem run_audiveris_returns `{Platform} (w : World) (self : option string)
    (image_path : Path) :
  (∀ w' p,
     run (V1._run_audiveris self image_path) w = (w', Return p) →
     is_Some (fs w' !! p)
     ∧ (p = mxl_file image_path
        ∨ (p = xml_file image_path ∧ fs w' !! mxl_file image_path = None))
     ∧ ∃ exe, self = Some exe ∧ exe ≠ ""
              ∧ spawned w' = spawned w ++ [command_v1 exe image_path])
  ∧ (∀ w' p,
       run (V2._run_audiveris self image_path) w = (w', Return p) →
       is_Some (fs w' !! p)
       ∧ p = omr_file_v2 image_path
       ∧ ∃ exe, self = Some exe ∧ exe ≠ ""
                ∧ spawned w' = spawned w ++ [recognizer_args exe image_path]).
Proof.
  split; intros w' p.
  - unfold run, V1._run_audiveris, call. cbn [world symbols].
    destruct self as [exe|]; [|discriminate].
    destruct (String.eqb_spec exe "") as [->|Hexe]; [discriminate|].
    fold (output_dir image_path). fold (recognizer_args exe image_path).
    change (if Str.endswith exe ".jar"
            then "java" :: "-jar" :: recognizer_args exe image_path
            else recognizer_args exe image_path)
      with (command_v1 exe image_path).
    fold (mxl_file image_path). fold (xml_file image_path).
    intros Hrun.
    named_step_in Hrun as fr1 u Hmk. apply mkdir_spawned in Hmk.
    rewrite (bind_Return _ _ _ _ _ (eq_refl : get_world fr1 = (fr1, Return (world fr1))))
      in Hrun.
    named_step_in Hrun as fr2 u2 Htry. destruct u2.
    apply guarded_run_v1 in Htry as [Hsp _].
    rewrite (bind_Return _ _ _ _ _ (path_exists_eq _ _)) in Hrun.
    rewrite (bind_Return _ _ _ _ _ (path_exists_eq _ _)) in Hrun.
    cbn [world] in *.
    destruct (fs (world fr2) !! mxl_file image_path) as [n|] eqn:Hmxl.
    + rewrite Hmxl in Hrun. injection Hrun as <- <-. cbn [world].
      split; [by eexists|]. split; [by left|].
      exists exe. split; [done|]. split; [done|]. by rewrite Hsp, Hmk.
    + destruct (fs (world fr2) !! xml_file image_path) as [n|] eqn:Hxml;
        [|discriminate].
      injection Hrun as <- <-. cbn [world].
      split; [by eexists|]. split; [by right|].
      exists exe. split; [done|]. split; [done|]. by rewrite Hsp, Hmk.
  - unfold run, V2._run_audiveris, call. cbn [world symbols].
    destruct self as [exe|]; [|discriminate].
    destruct (String.eqb_spec exe "") as [->|Hexe]; [discriminate|].
    fold (output_dir image_path). fold (recognizer_args exe image_path).
    fold (omr_file_v2 image_path).
    intros Hrun.
    named_step_in Hrun as fr1 u Hmk. apply mkdir_spawned in Hmk.
    rewrite (bind_Return _ _ _ _ _ (eq_refl : get_world fr1 = (fr1, Return (world fr1))))
      in Hrun.
    named_step_in Hrun as fr2 u2 Htry. destruct u2.
    apply guarded_run_v2 in Htry as Hsp.
    rewrite (bind_Return _ _ _ _ _ (path_exists_eq _ _)) in Hrun.
    cbn [world] in *.
    destruct (fs (world fr2) !! omr_file_v2 image_path) as [n|] eqn:Homr;
      [|discriminate].
    injection Hrun as <- <-. cbn [world].
    split; [by eexists|]. split; [done|].
    exists exe. split; [done|]. split; [done|]. by rewrite Hsp, Hmk.
Qed.

Lemma run_audiveris_returns_witness :
  spawned (fst (run (@V1._run_audiveris Demo.platform (Some "audiveris") ["scan.png"])
                    Demo.world0))
  = [command_v1 "audiveris" ["scan.png"]]
  ∧ spawned (fst (run (@V2._run_audiveris Demo.platform (Some "audiveris") ["scan.png"])
                      Demo.world0))
    = [recognizer_args "audiveris" ["scan.png"]].
Proof.
  destruct (@run_audiveris_returns Demo.platform Demo.world0 (Some "audiveris")
              ["scan.png"]) as [H1 H2].
  split.
  - destruct (H1 _ ["audiveris_output"; "scan"; "scan.xml"] eq_refl)
      as (_ & _ & exe & [= <-] & _ & Hsp). exact Hsp.
  - destruct (H2 _ ["audiveris_output"; "scan.omr"] eq_refl)
      as (_ & _ & exe & [= <-] & _ & Hsp). exact Hsp.
Defined.

(** ** The constructor of the v1 detector *)

Lemma find_audiveris_result `{Platform} (w : World) :
  ∃ w' r,
    run V1._find_audiveris w = (w', Return r)
    ∧ console w' = console w
    ∧ match List.find (fun p => V1.os_path_exists p w) (V1.possible_paths w) with
      | Some q => r = Some q ∧ w' = w
      | None => spawned w' = spawned w ++ [["which"; "audiveris"]]
      end.
Proof.
  unfold run, V1._find_audiveris, call. cbn [world symbols].
  rewrite (bind_Return _ _ _ _ _
             (eq_refl : get_world (mkFrame [] w) = (mkFrame [] w, Return w))).
  destruct (List.find _ (V1.possible_paths w)) as [q|].
  - by eexists _, _.
  - unfold try_except, bind. rewrite run_process_eq. cbn [world symbols].
    destruct (subprocess_run _ _ _ _) as [rc out err fs'|fs'|e]; cbn.
    + destruct (rc =? 0); cbn; by eexists _, _.
    + by eexists _, _.
    + by eexists _, _.
Qed.

(** X10.  Constructing the v1 detector never raises.  A non-empty path given
    by the caller is kept as it is and nothing is touched; without one (no
    path, or the empty string) the search prints nothing and runs at most one
    command, [which audiveris], and it runs none when one of the four
    candidate paths exists: the first existing candidate is the result. *)
Theorem constructor_never_raises `{Platform} (w : World)
    (audiveris_path : option string) :
  ∃ w' r,
    run (V1.__init__ audiveris_path) w = (w', Return r)
    ∧ console w' = console w
    ∧ (spawned w' = spawned w
       ∨ spawned w' = spawned w ++ [["which"; "audiveris"]])
    ∧ (∀ p, audiveris_path = Some p → p ≠ "" → r = Some p ∧ w' = w)
    ∧ (audiveris_path = None ∨ audiveris_path = Some "" →
       ∀ q, List.find (fun p => V1.os_path_exists p w) (V1.possible_paths w) = Some q →
            r = Some q ∧ w' = w).
Proof.
  assert (Hsearch : ∃ w' r,
            run (call V1._find_audiveris) w = (w', Return r)
            ∧ console w' = console w
            ∧ (spawned w' = spawned w
               ∨ spawned w' = spawned w ++ [["which"; "audiveris"]])
            ∧ ∀ q, List.find (fun p => V1.os_path_exists p w) (V1.possible_paths w)
                   = Some q → r = Some q ∧ w' = w).
  { destruct (find_audiveris_result w) as (w' & r & Hrun & Hcons & Hfind).
    exists w', r. unfold run, call in *. cbn [world symbols] in *.
    destruct (V1._find_audiveris _) as [fr' r'] eqn:Hf.
    cbn [world] in *. injection Hrun as <- <-.
    split; [reflexivity|]. split; [exact Hcons|].
    destruct (List.find _ _) as [q|].
    - destruct Hfind as [-> Hw]. split; [left; by rewrite Hw|].
      by intros ? [= <-].
    - split; [by right | discriminate]. }
  unfold V1.__init__.
  destruct audiveris_path as [p|].
  - destruct (String.eqb_spec p "") as [->|Hp].
    + destruct Hsearch as (w' & r & Hrun & Hcons & Hsp & Hfind).
      exists w', r. split; [exact Hrun|]. split; [exact Hcons|].
      split; [exact Hsp|]. split; [by intros ? [= <-]|]. intros _. exact Hfind.
    + exists w, (Some p). split; [reflexivity|]. split; [reflexivity|].
      split; [by left|]. split; [by intros ? [= <-]|].
      intros [|[= ->]]; done.
  - destruct Hsearch as (w' & r & Hrun & Hcons & Hsp & Hfind).
    exists w', r. split; [exact Hrun|]. split; [exact Hcons|].
    split; [exact Hsp|]. split; [discriminate|]. intros _. exact Hfind.
Qed.

(** ** The summary *)

Lemma count_up_keys (k : string) (counts : list (string * Z)) :
  (count_up k counts).*1
  = if decide (k ∈ counts.*1) then counts.*1 else counts.*1 ++ [k].
Proof.
  induction counts as [|[k' n] counts IH].
  - destruct (decide (k ∈ ([] : list (string * Z)).*1)) as [Hin|_]; [|done].
    by apply elem_of_nil in Hin.
  - cbn [count_up]. rewrite fmap_cons. cbn [fst].
    destruct (String.eqb_spec k' k) as [->|Hne].
    + rewrite fmap_cons. cbn [fst].
      destruct (decide (k ∈ k :: counts.*1)) as [_|Hout]; [done|].
      exfalso. apply Hout. by left.
    + rewrite fmap_cons, IH. cbn [fst].
      destruct (decide (k ∈ counts.*1)) as [Hin|Hout];
        destruct (decide (k ∈ k' :: counts.*1)) as [Hin'|Hout']; try done.
      * exfalso. apply Hout'. by right.
      * apply elem_of_cons in Hin' as [->|Hin']; done.
Qed.

Lemma count_up_total (k : string) (counts : list (string * Z)) :
  total_count (count_up k counts) = total_count counts + 1.
Proof.
  unfold total_count. induction counts as [|[k' n] counts IH]; simpl; [lia|].
  destruct (String.eqb k' k); simpl; lia.
Qed.

Lemma count_up_NoDup (k : string) (counts : list (string * Z)) :
  NoDup counts.*1 → NoDup (count_up k counts).*1.
Proof.
  intros Hnd. rewrite count_up_keys. destruct (decide (k ∈ counts.*1)); [done|].
  apply NoDup_app. split; [done|]. split; [|apply NoDup_singleton].
  intros x Hx Hk. apply list_elem_of_singleton in Hk as ->. done.
Qed.

Lemma count_up_elem (k t : string) (counts : list (string * Z)) :
  t ∈ (count_up k counts).*1 ↔ t = k ∨ t ∈ counts.*1.
Proof.
  rewrite count_up_keys. destruct (decide (k ∈ counts.*1)) as [Hin|Hout].
  - split; [by right|]. by intros [->|].
  - rewrite elem_of_app, list_elem_of_singleton. tauto.
Qed.

Lemma count_types_same (symbols : list Dict) (counts : list (string * Z)) :
  V2.count_types symbols counts = V1.count_types symbols counts.
Proof.
  revert counts. induction symbols as [|d symbols IH]; intros counts; simpl; [done|].
  destruct (d !! "type") as [[]|]; auto.
Qed.

Lemma count_types_spec (symbols : list Dict) :
  Forall has_str_type symbols →
  ∀ counts, NoDup counts.*1 →
  ∃ counts',
    V1.count_types symbols counts = Return counts'
    ∧ NoDup counts'.*1
    ∧ total_count counts' = total_count counts + Z.of_nat (length symbols)
    ∧ ∀ t, t ∈ counts'.*1
           ↔ t ∈ counts.*1 ∨ ∃ d, d ∈ symbols ∧ d !! "type" = Some (VStr t).
Proof.
  induction 1 as [|d symbols [k Hk] _ IH]; intros counts Hnd.
  - exists counts. split; [done|]. split; [done|]. split; [simpl; lia|].
    intros t. split; [by left|]. intros [|(d & Hd & _)]; [done|].
    by apply elem_of_nil in Hd.
  - destruct (IH (count_up k counts) (count_up_NoDup k counts Hnd))
      as (counts' & Hrun & Hnd' & Htot & Hkeys).
    exists counts'. cbn [V1.count_types]. rewrite Hk.
    split; [exact Hrun|]. split; [exact Hnd'|].
    split; [rewrite Htot, count_up_total, length_cons; lia|].
    intros t. rewrite Hkeys, count_up_elem. split.
    + intros [[->|Hin]|(d' & Hd' & Ht)].
      * right. exists d. split; [by left | done].
      * by left.
      * right. exists d'. split; [by right | done].
    + intros [Hin|(d' & Hd' & Ht)]; [left; by right|].
      apply elem_of_cons in Hd' as [->|Hd'].
      * left. left. rewrite Hk in Ht. by injection Ht.
      * right. by exists d'.
Qed.

Lemma insert_sorted_perm (kv : string * Z) (l : list (string * Z)) :
  insert_sorted kv l ≡ₚ kv :: l.
Proof.
  induction l as [|kv' l IH]; simpl; [done|].
  destruct (String.leb (fst kv) (fst kv')); [done|].
  rewrite IH. apply perm_swap.
Qed.

Lemma sorted_items_perm (l : list (string * Z)) : sorted_items l ≡ₚ l.
Proof.
  induction l as [|kv l IH]; simpl; [done|].
  rewrite insert_sorted_perm. by rewrite IH.
Qed.

Lemma insert_sorted_ordered (kv : string * Z) (l : list (string * Z)) :
  Sorted by_key l → Sorted by_key (insert_sorted kv l).
Proof.
  induction 1 as [|kv' l Hl IH Hhd]; simpl.
  - by repeat constructor.
  - destruct (String.leb (fst kv) (fst kv')) eqn:Hle.
    + constructor; [by constructor|]. by constructor.
    + constructor; [exact IH|].
      assert (Hle' : by_key kv' kv).
      { unfold by_key. destruct (String.leb_total (fst kv) (fst kv')); congruence. }
      destruct Hhd as [|kv'' l' Hkv]; simpl.
      * by constructor.
      * destruct (String.leb (fst kv) (fst kv'')); by constructor.
Qed.

Lemma sorted_items_ordered (l : list (string * Z)) : Sorted by_key (sorted_items l).
Proof.
  induction l as [|kv l IH]; simpl; [constructor|]. by apply insert_sorted_ordered.
Qed.

Lemma total_count_perm (l l' : list (string * Z)) :
  l ≡ₚ l' → total_count l = total_count l'.
Proof. unfold total_count. induction 1; simpl; lia. Qed.

Lemma print_lines {A} (f : A → string) (l : list A) (fr : Frame) :
  ∃ fr', for_each l (fun x => print (f x)) fr = (fr', Return tt)
         ∧ console (world fr') = console (world fr) ++ List.map f l
         ∧ fs (world fr') = fs (world fr).
Proof.
  revert fr. induction l as [|x l IH]; intros fr; simpl.
  - exists fr. by rewrite app_nil_r.
  - rewrite (bind_Return _ _ _ _ _ (print_eq _ _)).
    destruct (IH (mkFrame (symbols fr)
                    (with_console (console (world fr) ++ [f x]) (world fr))))
      as (fr' & Hrun & Hcons & Hfs).
    exists fr'. split; [exact Hrun|]. cbn in Hcons, Hfs.
    by rewrite Hcons, Hfs, <- app_assoc.
Qed.

(** X11.  For records whose type is a string, [_print_summary] of either
    script returns and leaves the files alone.  It prints the header and then
    one line for each type that occurs among the records, no type twice, in
    the order of the type names; the counts it prints add up to the number of
    records. *)
Theorem summary_counts_add_up `{Platform} (w : World) (records : list Dict) :
  Forall has_str_type records →
  ∃ counts w1 w2,
    run (V1._print_summary records) w = (w1, Return tt)
    ∧ run (V2._print_summary records) w = (w2, Return tt)
    ∧ console w1
      = console w ++ (newline +:+ "Detected symbols:")
                     :: List.map V1.summary_line counts
    ∧ console w2
      = console w ++ (newline +:+ "Detected symbols:")
                     :: List.map V2.summary_line counts
    ∧ fs w1 = fs w ∧ fs w2 = fs w
    ∧ Sorted by_key counts
    ∧ NoDup counts.*1
    ∧ (∀ t, t ∈ counts.*1 ↔ ∃ d, d ∈ records ∧ d !! "type" = Some (VStr t))
    ∧ total_count counts = Z.of_nat (length records).
Proof.
  intros Hall.
  destruct (count_types_spec records Hall [] (NoDup_nil_2 : NoDup ([] : list (string * Z)).*1))
    as (counts & Hcount & Hnd & Htot & Hkeys).
  pose proof (sorted_items_perm counts) as Hperm.
  destruct (print_lines V1.summary_line (sorted_items counts)
              (mkFrame [] (with_console
                             (console w ++ [newline +:+ "Detected symbols:"]) w)))
    as (fr1 & Hrun1 & Hcons1 & Hfs1).
  destruct (print_lines V2.summary_line (sorted_items counts)
              (mkFrame [] (with_console
                             (console w ++ [newline +:+ "Detected symbols:"]) w)))
    as (fr2 & Hrun2 & Hcons2 & Hfs2).
  exists (sorted_items counts), (world fr1), (world fr2).
  split; [|split].
  - unfold run, V1._print_summary, call, lift, bind at 1. cbn [world symbols].
    rewrite Hcount. rewrite (bind_Return _ _ _ _ _ (print_eq _ _)).
    cbn [world symbols]. by rewrite Hrun1.
  - unfold run, V2._print_summary, call, lift, bind at 1. cbn [world symbols].
    rewrite count_types_same, Hcount. rewrite (bind_Return _ _ _ _ _ (print_eq _ _)).
    cbn [world symbols]. by rewrite Hrun2.
  - cbn in Hcons1, Hcons2, Hfs1, Hfs2.
    rewrite Hcons1, Hcons2, <- !app_assoc.
    split; [done|]. split; [done|]. split; [done|]. split; [done|].
    split; [apply sorted_items_ordered|].
    split; [by rewrite Hperm|].
    split.
    + intros t. rewrite Hperm, Hkeys. split; [|by right].
      intros [Hin|Hd]; [by apply elem_of_nil in Hin | exact Hd].
    + rewrite (total_count_perm _ _ Hperm), Htot. unfold total_count. simpl. lia.
Qed.

Lemma summary_counts_add_up_witness :
  ∃ counts w1 w2,
    run (V1._print_summary Demo.three_records) Demo.world0
    = (w1, Return tt)
    ∧ run (V2._print_summary Demo.three_records) Demo.world0
      = (w2, Return tt)
    ∧ console w1
      = console Demo.world0 ++ (newline +:+ "Detected symbols:")
                               :: List.map V1.summary_line counts
    ∧ console w2
      = console Demo.world0 ++ (newline +:+ "Detected symbols:")
                               :: List.map V2.summary_line counts
    ∧ fs w1 = fs Demo.world0 ∧ fs w2 = fs Demo.world0
    ∧ Sorted by_key counts
    ∧ NoDup counts.*1
    ∧ (∀ t, t ∈ counts.*1
            ↔ ∃ d, d ∈ Demo.three_records ∧ d !! "type" = Some (VStr t))
    ∧ total_count counts = Z.of_nat (length Demo.three_records).
Proof.
  apply (@summary_counts_add_up Demo.platform Demo.world0 Demo.three_records).
  repeat constructor; by eexists.
Defined.

(** ** What reaches the standard error stream *)

#[global] Instance same_errors_preorder : PreOrder same_errors.
Proof.
  split; [intros w; reflexivity |].
  intros a b c Hab Hbc. unfold same_errors in *. congruence.
Qed.

Section StreamsKept.
Context `{Platform}.

Lemma keeps_print_errors line : keeps (world_rel same_errors) (print line).
Proof. intros fr. reflexivity. Qed.

Lemma keeps_spawn_errors cmd : keeps (world_rel same_errors) (spawn cmd).
Proof. intros fr. reflexivity. Qed.

Lemma keeps_set_fs_errors files : keeps (world_rel same_errors) (set_fs files).
Proof. intros fr. reflexivity. Qed.

End StreamsKept.

#[global] Hint Resolve keeps_print_errors keeps_spawn_errors keeps_set_fs_errors
  : world.

Section MainV1.
Context `{Platform}.

Lemma mkdir_errors p : keeps (world_rel same_errors) (mkdir_exist_ok p).
Proof. unfold mkdir_exist_ok. world_tac. Qed.

Lemma run_process_errors cmd env timeout :
  keeps (world_rel same_errors) (run_process cmd env timeout).
Proof. unfold run_process. world_tac. Qed.

Lemma Image_save_errors img p dpi :
  keeps (world_rel same_errors) (Image_save img p dpi).
Proof. unfold Image_save. world_tac. Qed.

#[local] Hint Resolve mkdir_errors run_process_errors Image_save_errors : world.

Lemma init_errors_v1 audiveris_path :
  keeps (world_rel same_errors) (V1.__init__ audiveris_path).
Proof. unfold V1.__init__, V1._find_audiveris. world_tac. Qed.

Lemma run_audiveris_errors_v1 self image_path :
  keeps (world_rel same_errors) (V1._run_audiveris self image_path).
Proof. unfold V1._run_audiveris. world_tac. Qed.

Lemma book_inter_errors e : keeps (world_rel same_errors) (V1.book_inter e).
Proof. unfold V1.book_inter. world_tac. Qed.

Lemma note_body_errors note : keeps (world_rel same_errors) (V1.note_body note).
Proof. unfold V1.note_body. world_tac. Qed.

#[local] Hint Resolve book_inter_errors note_body_errors : world.

Lemma parse_omr_book_errors p : keeps (world_rel same_errors) (V1._parse_omr_book p).
Proof. unfold V1._parse_omr_book, V1.book_try, V1.book_except. world_tac. Qed.

#[local] Hint Resolve parse_omr_book_errors : world.

Lemma parse_omr_output_errors p :
  keeps (world_rel same_errors) (V1._parse_omr_output p).
Proof.
  unfold V1._parse_omr_output, V1.output_try, V1.output_except,
    V1.scan_musicxml, V1._estimate_positions, V1._parse_alternative.
  world_tac.
Qed.

Lemma draw_bounding_boxes_errors_v1 image_path l out :
  keeps (world_rel same_errors) (V1._draw_bounding_boxes image_path l out).
Proof. unfold V1._draw_bounding_boxes. world_tac. Qed.

Lemma print_summary_errors_v1 l : keeps (world_rel same_errors) (V1._print_summary l).
Proof. unfold V1._print_summary. world_tac. Qed.

#[local] Hint Resolve init_errors_v1 run_audiveris_errors_v1 parse_omr_output_errors
  draw_bounding_boxes_errors_v1 print_summary_errors_v1 : world.

Lemma process_image_arg_errors_v1 self image_path output_path :
  keeps (world_rel same_errors) (V1.process_image_arg self image_path output_path).
Proof. unfold V1.process_image_arg. world_tac. Qed.

End MainV1.

(** X12.  The v1 script never ends with an exception of its own: [main]
    gives exit status 0 or 1.  The standard error stream tells which: with
    status 0 nothing was written to it, with status 1 exactly one line was
    added, "Error: " followed by the message of the exception. *)
Theorem main_exit_status_v1 `{Platform} (w : World) (image : string)
    (output audiveris : option string) :
  ∃ w' status,
    run (V1.main image output audiveris) w = (w', Return status)
    ∧ ((status = 0 ∧ errors w' = errors w)
       ∨ (status = 1 ∧ ∃ msg, errors w' = errors w ++ ["Error: " +:+ msg])).
Proof.
  unfold run, V1.main, call, try_except, bind. cbn [world symbols].
  pose proof (init_errors_v1 audiveris (mkFrame [] w)) as H0.
  unfold world_rel, same_errors in H0. cbn [world] in H0.
  destruct (V1.__init__ audiveris (mkFrame [] w)) as [fr0 [detector|e]];
    cbn [fst] in H0.
  - pose proof (process_image_arg_errors_v1 detector (AsStr image)
                  (option_map AsStr output) fr0) as H1.
    unfold world_rel, same_errors in H1.
    destruct (V1.process_image_arg detector _ _ fr0) as [fr1 [p|e]]; cbn [fst] in H1.
    + eexists _, 0. split; [reflexivity|]. left. split; [reflexivity|].
      cbn. congruence.
    + eexists _, 1. split; [reflexivity|]. right. split; [reflexivity|].
      exists (exn_msg e). cbn. congruence.
  - eexists _, 1. split; [reflexivity|]. right. split; [reflexivity|].
    exists (exn_msg e). cbn. congruence.
Qed.

(** X13.  Run on an image path that names nothing, [main] of either script
    ends with exit status 1 before anything else happens: no file is touched,
    nothing is printed and no command is run (in v1: when the recogniser path
    is given, so that the constructor does not search).  The standard error
    stream receives "Error: Image not found: " and the path as [Path]
    writes it; v2 adds the traceback: its header, the stack and the line
    "FileNotFoundError: Image not found: " with the path. *)
Theorem main_missing_image `{Platform} (w : World) (image exe : string)
    (output : option string) :
  fs w !! PurePath.of_string image = None →
  let msg := "Image not found: " +:+ PurePath.str (PurePath.of_string image) in
  (exe ≠ "" →
   run (V1.main image output (Some exe)) w
   = (with_errors (errors w ++ ["Error: " +:+ msg]) w, Return 1))
  ∧ run (V2.main image output exe) w
    = (with_errors
         (errors w
          ++ ["Error: " +:+ msg; "Traceback (most recent call last):"]
          ++ stack_lines (mkExn FileNotFoundError msg)
          ++ ["FileNotFoundError: " +:+ msg])
         w,
       Return 1).
Proof.
  intros Hmissing msg. split.
  - intros Hexe.
    unfold run, V1.main, call, try_except, bind, V1.__init__, call,
      V1.process_image_arg, call, bind, path_exists, bind, get_world, ret.
    destruct (String.eqb_spec exe "") as [->|_]; [done|].
    cbn [world symbols path_of]. rewrite Hmissing. reflexivity.
  - unfold run, V2.main, call, try_except, bind, V2.__init__, call,
      V2.process_image_arg, call, bind, path_exists, bind, get_world, ret.
    cbn [world symbols path_of]. rewrite Hmissing.
    cbn [negb raise eprint print_exc world symbols exn_msg].
    unfold with_errors, traceback_lines, exception_line.
    cbn [fs environ console errors spawned exn_msg exn_class class_name].
    fold msg.
    replace (String.eqb msg "") with false by reflexivity.
    do 2 f_equal. rewrite <- app_assoc. reflexivity.
Qed.

Lemma main_missing_image_witness :
  run (@V1.main Demo.platform "//missing.png" None (Some "audiveris")) Demo.world0
  = (with_errors (errors Demo.world0 ++ ["Error: Image not found: //missing.png"])
       Demo.world0, Return 1)
  ∧ run (@V2.main Demo.platform "//missing.png" None "audiveris") Demo.world0
    = (with_errors
         (errors Demo.world0
          ++ ["Error: Image not found: //missing.png";
              "Traceback (most recent call last):"]
          ++ ["  File music_symbol_detector_v2.py, in main"]
          ++ ["FileNotFoundError: Image not found: //missing.png"])
         Demo.world0, Return 1).
Proof.
  destruct (@main_missing_image Demo.platform Demo.world0 "//missing.png" "audiveris"
              None eq_refl) as [H1 H2].
  split; [apply H1; discriminate | exact H2].
Defined.

(** ** The upscaling script *)

(** X14.  [upscale_image] with a scale factor that is not positive, on an
    image of positive size: the library refuses the new size, the
    [ValueError] leaves the function, and by then only the original size was
    printed; no file is written. *)
Theorem upscale_rejects_scale `{Platform} (w : World) (input_path output_path : Path)
    (scale_factor : Z) (img : Image) (dpi : option (Z * Z)) :
  fs w !! input_path = Some (File (ImageData img dpi)) →
  0 < width img →
  0 < height img →
  scale_factor ≤ 0 →
  run (upscale_image input_path output_path scale_factor) w
  = (with_console (console w ++ ["Original size: " +:+ size_str img]) w,
     Raise (mkExn ValueError "height and width must be > 0")).
Proof.
  intros Hin HW HH Hs.
  unfold run, upscale_image, call. cbn [world symbols].
  erewrite bind_Return by (eapply Image_open_ok; exact Hin).
  erewrite bind_Return by reflexivity.
  cbn [fst snd]. unfold bind, resize.
  assert (Hsame : (width img * scale_factor =? width img)
                  && (height img * scale_factor =? height img) = false).
  { apply andb_false_iff. left. apply Z.eqb_neq. nia. }
  assert (Hsmall : (width img * scale_factor <? 1)
                   || (height img * scale_factor <? 1) = true).
  { apply orb_true_iff. left. apply Z.ltb_lt. nia. }
  rewrite Hsame, Hsmall. reflexivity.
Qed.

Lemma upscale_rejects_scale_witness :
  run (@upscale_image Demo.platform ["scan.png"] ["big.png"] 0) Demo.world0
  = (with_console (console Demo.world0 ++ ["Original size: " +:+ size_str Demo.page])
       Demo.world0,
     Raise (mkExn ValueError "height and width must be > 0")).
Proof.
  apply (@upscale_rejects_scale Demo.platform Demo.world0 ["scan.png"] ["big.png"] 0
           Demo.page None); [reflexivity | reflexivity | reflexivity | discriminate].
Defined.

(** X15.  The upscaling script as a program.  With fewer than two arguments
    it prints the usage line and ends with status 1.  A third argument that
    is not an integer raises [ValueError] before any file is opened or
    anything is printed.  With two arguments the scale factor is 4: for a
    readable input image of positive size and a writable output path the
    script ends with status 0 and the output path holds an image four times
    as wide and as high. *)
Theorem upscale_script_spec `{Platform} (w : World) (argv : list string) :
  ((length argv < 3)%nat →
   run (upscale_script argv) w
   = (with_console
        (console w
         ++ ["Usage: python upscale_and_process.py input.png output.png [scale_factor]"])
        w, Return 1))
  ∧ (∀ prog inp out s rest,
       argv = prog :: inp :: out :: s :: rest →
       py_int s = None →
       run (upscale_script argv) w
       = (w, Raise (mkExn ValueError
                      ("invalid literal for int() with base 10: '" +:+ s +:+ "'"))))
  ∧ (∀ prog inp out img dpi,
       argv = [prog; inp; out] →
       fs w !! PurePath.of_string inp = Some (File (ImageData img dpi)) →
       0 < width img →
       0 < height img →
       save_error (PurePath.of_string out) (fs w) = None →
       ∃ w' big,
         run (upscale_script argv) w = (w', Return 0)
         ∧ fs w' = <[PurePath.of_string out := File (ImageData big (Some (300, 300)))]>
                     (fs w)
         ∧ width big = width img * 4
         ∧ height big = height img * 4).
Proof.
  split; [|split].
  - intros Hlen. unfold run, upscale_script, call.
    apply Nat.ltb_lt in Hlen. rewrite Hlen. reflexivity.
  - intros prog inp out s rest -> Hint.
    unfold run, upscale_script, call, int_of_str. cbn. rewrite Hint. reflexivity.
  - intros prog inp out img dpi -> Hin HW HH Hsave.
    destruct (resize_ok img 4
                (mkFrame [] (with_console
                               (console w ++ ["Original size: " +:+ size_str img]) w))
                HW HH ltac:(lia)) as (big & Hresize & Hwidth & Hheight).
    unfold run, upscale_script, call. cbn [length Nat.ltb Nat.leb world symbols List.nth].
    rewrite (bind_Return _ _ _ _ _
               (eq_refl : ret 4 (mkFrame [] w) = (mkFrame [] w, Return 4))).
    unfold upscale_image_arg, call. cbn [world symbols path_of shown].
    unfold bind at 1.
    erewrite bind_Return by (eapply Image_open_ok; exact Hin).
    erewrite bind_Return by reflexivity.
    cbn [fst snd].
    erewrite bind_Return by exact Hresize.
    erewrite bind_Return by reflexivity.
    erewrite bind_Return by (apply Image_save_ok; exact Hsave).
    erewrite bind_Return by reflexivity.
    cbn. eexists _, big. split; [reflexivity|]. split; [reflexivity|].
    split; assumption.
Qed.

Lemma upscale_script_spec_witness :
  run (@upscale_script Demo.platform ["upscale_and_process.py"; "scan.png"]) Demo.world0
  = (with_console
       (console Demo.world0
        ++ ["Usage: python upscale_and_process.py input.png output.png [scale_factor]"])
       Demo.world0, Return 1)
  ∧ run (@upscale_script Demo.platform
           ["upscale_and_process.py"; "scan.png"; "big.png"; "four"]) Demo.world0
    = (Demo.world0,
       Raise (mkExn ValueError "invalid literal for int() with base 10: 'four'"))
  ∧ ∃ w' big,
      run (@upscale_script Demo.platform
             ["upscale_and_process.py"; "scan.png"; "big.png"]) Demo.world0
      = (w', Return 0)
      ∧ fs w' = <[["big.png"] := File (ImageData big (Some (300, 300)))]>
                  (fs Demo.world0)
      ∧ width big = 600 * 4
      ∧ height big = 400 * 4.
Proof.
  split; [|split].
  - apply (@upscale_script_spec Demo.platform Demo.world0
             ["upscale_and_process.py"; "scan.png"]). simpl. lia.
  - apply (proj1 (proj2 (@upscale_script_spec Demo.platform Demo.world0
                           ["upscale_and_process.py"; "scan.png"; "big.png"; "four"]))
             "upscale_and_process.py" "scan.png" "big.png" "four" []);
      reflexivity.
  - apply (proj2 (proj2 (@upscale_script_spec Demo.platform Demo.world0
                           ["upscale_and_process.py"; "scan.png"; "big.png"]))
             "upscale_and_process.py" "scan.png" "big.png" Demo.page None);
      reflexivity.
Defined.

(** ** The mock script *)

Lemma replace_absent (old new s : string) :
  Str.contains old s = false → Str.replace old new s = s.
Proof.
  unfold Str.replace. induction s as [|c s IH]; cbn [Str.contains Str.replace_from].
  - destruct old; [discriminate | reflexivity].
  - intros Hno. apply orb_false_iff in Hno as [Hprefix Hrest].
    destruct old as [|a old']; [discriminate|].
    rewrite Hprefix. f_equal. by apply IH.
Qed.

Lemma layers_fold (cmds : list DrawCmd) (px : Pixels) :
  layers (List.fold_left Drawn cmds px) = (layers px + length cmds)%nat.
Proof.
  revert px. induction cmds as [|c cmds IH]; intros px; simpl; [lia|].
  rewrite IH. simpl. lia.
Qed.

Lemma font_try `{Platform} (size : Z) (fr : Frame) :
  ∃ font, try_except (truetype size) (fun _ => ret DefaultFont) fr = (fr, Return font).
Proof.
  unfold try_except, truetype, bind, get_world.
  destruct (fs (world fr) !! PurePath.of_string HELVETICA) as [[|[]]|];
    by eexists.
Qed.

(** X16.  The mock script derives its default output path by replacing
    ".png" in the input path.  For an input path without ".png" (another
    extension, or capitals) the default output path is the input path: the
    image with the 17 mock symbols and the watermark drawn on it, 53 drawing
    calls in all, is written over the input file, and the input path is
    what the function returns. *)
Theorem mock_overwrites_input `{Platform} (w : World) (image_path : string)
    (img : Image) (dpi : option (Z * Z)) :
  Str.contains ".png" image_path = false →
  fs w !! PurePath.of_string image_path = Some (File (ImageData img dpi)) →
  save_error (PurePath.of_string image_path) (fs w) = None →
  ∃ w' painted,
    run (Mock.test_bounding_boxes image_path None) w = (w', Return image_path)
    ∧ fs w' = <[PurePath.of_string image_path := File (ImageData painted None)]> (fs w)
    ∧ width painted = width img ∧ height painted = height img
    ∧ layers (pixels painted) = (layers (pixels img) + 53)%nat.
Proof.
  intros Hno Hin Hsave.
  unfold run, Mock.test_bounding_boxes, call, Mock.default_output.
  rewrite (replace_absent _ _ _ Hno). cbn [world symbols].
  erewrite bind_Return by (eapply Image_open_ok; exact Hin).
  destruct (font_try 20 (mkFrame [] w)) as (font & Hfont).
  rewrite (bind_Return _ _ _ _ _ Hfont).
  erewrite bind_Return by (apply Image_save_ok; exact Hsave).
  do 8 (erewrite bind_Return by reflexivity).
  cbn. eexists _, _. split; [reflexivity|]. split; [reflexivity|].
  cbn [width height pixels]. split; [reflexivity|]. split; [reflexivity|].
  rewrite ?layers_fold. simpl. lia.
Qed.

Lemma mock_overwrites_input_witness :
  let w := with_fs (<[["scan.jpg"] := File (ImageData Demo.page None)]> ∅) Demo.world0 in
  ∃ w' painted,
    run (@Mock.test_bounding_boxes Demo.platform "scan.jpg" None) w
    = (w', Return "scan.jpg")
    ∧ fs w' = <[["scan.jpg"] := File (ImageData painted None)]> (fs w)
    ∧ width painted = 600 ∧ height painted = 400
    ∧ layers (pixels painted) = 53%nat.
Proof.
  intros w.
  apply (@mock_overwrites_input Demo.platform w "scan.jpg" Demo.page None);
    reflexivity.
Defined.

(** ** What [_draw_bounding_boxes] draws *)

Lemma fonts_try_v2 `{Platform} (fr : Frame) :
  ∃ fonts,
    try_except
      (font <- truetype 24 ;; small_font <- truetype 16 ;; ret (font, small_font))
      (fun _ => ret (DefaultFont, DefaultFont)) fr
    = (fr, Return fonts).
Proof.
  unfold try_except, bind, truetype, bind, get_world, ret, raise. cbn.
  repeat (destruct (fs (world fr) !! _) as [[|[]]|]; cbn); eexists; reflexivity.
Qed.

(** C6, the claim as stated fails: a record of a target type with a box that
    is not empty, but whose right edge is left of its left edge, gets neither
    rectangle nor label.  The graphics library refuses the box, and
    [_draw_bounding_boxes] of either script ends with its [ValueError]
    without saving an image. *)
Lemma inverted_box_not_drawn :
  let d : Dict := <["type" := VStr "sharp"]> (<["bbox" := box4 10 20 5 28]> ∅) in
  to_draw d "sharp" 10 20 5 28
  ∧ run (@V1._draw_bounding_boxes Demo.platform ["scan.png"] [d] ["out.png"])
        Demo.world0
    = (Demo.world0,
       Raise (mkExn ValueError "x1 must be greater than or equal to x0"))
  ∧ run (@V2._draw_bounding_boxes Demo.platform ["scan.png"] [d] ["out.png"])
        Demo.world0
    = (Demo.world0,
       Raise (mkExn ValueError "x1 must be greater than or equal to x0")).
Proof.
  intros d. split.
  - split; [reflexivity|]. split; [unfold target_types; set_solver | reflexivity].
  - split; vm_compute; reflexivity.
Qed.

(** C6, amended.  [_draw_bounding_boxes] of either script, given an image it
    can open, an output path it can write and symbol records (each with a
    type, and with no [bbox], [None], an empty one or a box of four integers)
    among which no box has its corners out of order: the image it saves is
    the input image with the calls of the records drawn over it in order (in
    v2 followed by the banner), where a record has calls if and only if its
    type is one of the four target types and it has a box; the calls are then
    the rectangle around the box, outlined in the colour of the type, the
    filled rectangle behind the label and the label, the label being the
    one-character tag of the type. *)
Theorem drawn_iff_target `{Platform} (w : World) (image_path out : Path)
    (records : list Dict) (img : Image) (dpi : option (Z * Z)) :
  fs w !! image_path = Some (File (ImageData img dpi)) →
  save_error out (fs w) = None →
  Forall drawable records →
  Forall ordered_box records →
  (∃ font groups w1,
     Forall2 (drawn row_v1 font) records groups
     ∧ run (V1._draw_bounding_boxes image_path records out) w = (w1, Return tt)
     ∧ fs w1 = <[out := File (ImageData (annotated img (concat groups)) None)]> (fs w))
  ∧ (∃ font small_font groups w2,
       Forall2 (drawn row_v2 font) records groups
       ∧ run (V2._draw_bounding_boxes image_path records out) w = (w2, Return tt)
       ∧ fs w2
         = <[out := File (ImageData
                            (annotated img
                               (concat groups ++ V2.banner small_font records))
                            None)]> (fs w)).
Proof.
  intros Hin Hsave Hrecords Hord. split.
  - destruct (font_try 20 (mkFrame [] w)) as (font & Hfont).
    destruct (draw_loop_drawn font records Hrecords Hord)
      as (gs1 & _ & F1 & _ & L1 & _).
    exists font, gs1.
    unfold run, V1._draw_bounding_boxes, call. cbn [world symbols].
    erewrite bind_Return by (eapply Image_open_ok; exact Hin).
    rewrite (bind_Return _ _ _ _ _ Hfont).
    erewrite bind_Return by (unfold lift; rewrite L1; reflexivity).
    erewrite Image_save_ok by exact Hsave.
    eexists. split; [exact F1|]. split; reflexivity.
  - destruct (fonts_try_v2 (mkFrame [] w)) as ([font small_font] & Hfonts).
    destruct (draw_loop_drawn font records Hrecords Hord)
      as (_ & gs2 & _ & F2 & _ & L2).
    exists font, small_font, gs2.
    unfold run, V2._draw_bounding_boxes, call. cbn [world symbols].
    erewrite bind_Return by (eapply Image_open_ok; exact Hin).
    rewrite (bind_Return _ _ _ _ _ Hfonts).
    erewrite bind_Return by (unfold lift; cbn [fst]; rewrite L2; reflexivity).
    erewrite Image_save_ok by exact Hsave.
    eexists. split; [exact F2|]. split; reflexivity.
Qed.

Lemma drawn_iff_target_witness :
  let records : list Dict :=
    [ <["type" := VStr "sharp"]> (<["bbox" := box4 10 20 15 28]> ∅);
      <["type" := VStr "stem"]> (<["bbox" := box4 1 2 3 4]> ∅);
      <["type" := VStr "flat"]> ∅ ] in
  (∃ font groups w1,
     Forall2 (drawn row_v1 font) records groups
     ∧ run (@V1._draw_bounding_boxes Demo.platform ["scan.png"] records ["out.png"])
           Demo.world0 = (w1, Return tt)
     ∧ fs w1 = <[["out.png"] := File (ImageData (annotated Demo.page (concat groups))
                                        None)]> (fs Demo.world0))
  ∧ (∃ font small_font groups w2,
       Forall2 (drawn row_v2 font) records groups
       ∧ run (@V2._draw_bounding_boxes Demo.platform ["scan.png"] records ["out.png"])
             Demo.world0 = (w2, Return tt)
       ∧ fs w2
         = <[["out.png"] := File (ImageData
                                    (annotated Demo.page
                                       (concat groups
                                        ++ V2.banner small_font records))
                                    None)]> (fs Demo.world0)).
Proof.
  intros records.
  apply (@drawn_iff_target Demo.platform Demo.world0 ["scan.png"] ["out.png"] records
           Demo.page None).
  - reflexivity.
  - reflexivity.
  - apply Forall_cons; split.
    { split; [eexists; reflexivity|]. unfold bbox_field_ok. vm_compute.
      right. right. by exists 10, 20, 15, 28. }
    apply Forall_cons; split.
    { split; [eexists; reflexivity|]. unfold bbox_field_ok. vm_compute.
      right. right. by exists 1, 2, 3, 4. }
    apply Forall_cons; split; [|by apply Forall_nil].
    split; [eexists; reflexivity | exact I].
  - apply Forall_cons; split.
    { intros a b c e Hb. vm_compute in Hb. injection Hb as <- <- <- <-. lia. }
    apply Forall_cons; split.
    { intros a b c e Hb. vm_compute in Hb. injection Hb as <- <- <- <-. lia. }
    apply Forall_cons; split; [|by apply Forall_nil].
    intros a b c e Hb. vm_compute in Hb. discriminate.
Defined.

(** ** Records of recognised elements *)

Section Recognised.
Context `{Platform}.

Lemma int_attr_readable e bounds key dflt fr :
  readable e → ET.find "bounds" e = Some bounds → key ∈ ["x"; "y"; "w"; "h"] →
  ∃ z, int_attr bounds key dflt fr = (fr, Return z).
Proof.
  intros Hr Hb Hkey. unfold int_attr.
  destruct (attrib bounds !! key) as [s|] eqn:Hs; [|by eexists].
  destruct (Hr bounds key s Hb Hkey Hs) as [z ->]. by eexists.
Qed.

(** The four attributes are read and a record is appended. *)
Lemma box_read e bounds (k : Z → Z → Z → Z → M unit) fr :
  readable e → ET.find "bounds" e = Some bounds →
  (∀ x y w h fr, ∃ fr', k x y w h fr = (fr', Return tt)) →
  ∃ fr',
    (x <- int_attr bounds "x" 0 ;;
     y <- int_attr bounds "y" 0 ;;
     w <- int_attr bounds "w" 20 ;;
     h <- int_attr bounds "h" 20 ;;
     k x y w h) fr = (fr', Return tt).
Proof.
  intros Hr Hb Hk.
  destruct (int_attr_readable e bounds "x" 0 fr Hr Hb ltac:(set_solver)) as (x & Hx).
  destruct (int_attr_readable e bounds "y" 0 fr Hr Hb ltac:(set_solver)) as (y & Hy).
  destruct (int_attr_readable e bounds "w" 20 fr Hr Hb ltac:(set_solver)) as (w & Hw).
  destruct (int_attr_readable e bounds "h" 20 fr Hr Hb ltac:(set_solver)) as (h & Hh).
  rewrite (bind_Return _ _ _ _ _ Hx), (bind_Return _ _ _ _ _ Hy),
    (bind_Return _ _ _ _ _ Hw), (bind_Return _ _ _ _ _ Hh).
  apply Hk.
Qed.

Lemma book_inter_returns e fr :
  readable e → ∃ fr', V1.book_inter e fr = (fr', Return tt).
Proof.
  intros Hr. unfold V1.book_inter.
  destruct (V1.book_symbol_type _) as [t|]; [|by eexists].
  destruct (String.eqb t ""); [by eexists|].
  destruct (ET.find "bounds" e) as [bounds|] eqn:Hb; [|by eexists].
  apply (box_read e bounds (λ x y w h, append _)); [done..|].
  intros; by eexists.
Qed.

Lemma sheet_head_returns e fr :
  readable e → ∃ fr', V2.sheet_head e fr = (fr', Return tt).
Proof.
  intros Hr. unfold V2.sheet_head.
  destruct (ET.find "bounds" e) as [bounds|] eqn:Hb; [|by eexists].
  apply (box_read e bounds (λ x y w h, append _)); [done..|].
  intros; by eexists.
Qed.

Lemma classified_returns e shape bounds fr :
  readable e → ET.find "bounds" e = Some bounds →
  ∃ fr', V2.classified shape bounds fr = (fr', Return tt).
Proof.
  intros Hr Hb. unfold V2.classified.
  destruct (V2._classify_symbol shape) as [t|]; [|by eexists].
  destruct (String.eqb t ""); [by eexists|].
  apply (box_read e bounds (λ x y w h, append _)); [done..|].
  intros; by eexists.
Qed.

Lemma sheet_key_alter_returns e fr :
  readable e → ∃ fr', V2.sheet_key_alter e fr = (fr', Return tt).
Proof.
  intros Hr. unfold V2.sheet_key_alter.
  destruct (ET.find "bounds" e) as [bounds|] eqn:Hb; [|by eexists].
  by apply (classified_returns e).
Qed.

Lemma sheet_inter_returns e fr :
  readable e → ∃ fr', V2.sheet_inter e fr = (fr', Return tt).
Proof.
  intros Hr. unfold V2.sheet_inter.
  destruct (V2.accidental_shape _); [|by eexists].
  destruct (ET.find "bounds" e) as [bounds|] eqn:Hb; [|by eexists].
  by apply (classified_returns e).
Qed.

Lemma loop_returns (body : Element → M unit) (l : list Element) :
  (∀ e fr, readable e → ∃ fr', body e fr = (fr', Return tt)) →
  Forall readable l →
  ∀ fr, ∃ fr', for_each l body fr = (fr', Return tt).
Proof.
  intros Hbody. induction 1 as [|e l He _ IH]; intros fr; simpl; [by eexists|].
  destruct (Hbody e fr He) as (fr1 & Hstep).
  rewrite (bind_Return _ _ _ _ _ Hstep). apply IH.
Qed.

(** A record in the list stays there, whatever is appended later. *)
Lemma grew_elem P fr fr' (d : Dict) :
  grew P fr fr' → d ∈ symbols fr → d ∈ symbols fr'.
Proof. intros (l & -> & _) Hd. apply elem_of_app. by left. Qed.

Lemma bind_keeps_elem {A B} P (m : M A) (k : A → M B) fr (d : Dict) :
  (∀ a, keeps (grew P) (k a)) →
  d ∈ symbols (fst (m fr)) → d ∈ symbols (fst (bind m k fr)).
Proof.
  intros Hk Hd. unfold bind. destruct (m fr) as [fr1 [a|e]]; [|exact Hd].
  eapply grew_elem; [apply Hk | exact Hd].
Qed.

Lemma bind_after_elem {A B} (m : M A) (k : A → M B) fr fr1 a (d : Dict) :
  m fr = (fr1, Return a) →
  d ∈ symbols (fst (k a fr1)) → d ∈ symbols (fst (bind m k fr)).
Proof. intros Hm Hd. by rewrite (bind_Return _ _ _ _ _ Hm). Qed.

(** The record of an element reached by a loop is in the list the loop
    leaves. *)
Lemma loop_records (Q : Dict → Prop) (body : Element → M unit) pre e post fr :
  (∀ x, keeps (grew uniform) (body x)) →
  (∀ x fr, readable x → ∃ fr', body x fr = (fr', Return tt)) →
  Forall readable pre →
  (∀ fr1, ∃ d, body e fr1 = (appended fr1 d, Return tt) ∧ Q d) →
  ∃ d, d ∈ symbols (fst (for_each (pre ++ e :: post) body fr)) ∧ Q d.
Proof.
  intros Hgrew Hbody Hpre He.
  destruct (loop_returns body pre Hbody Hpre fr) as (fr1 & Hloop).
  destruct (He fr1) as (d & Hd & HQ).
  destruct (appended_record_kept uniform body pre e post fr fr1 d Hgrew Hloop Hd)
    as (rest & Hrest).
  exists d. split; [|exact HQ]. rewrite Hrest.
  apply elem_of_app. right. by left.
Qed.

Lemma ET_parse_ok p root fr :
  fs (world fr) !! p = Some (File (XmlDoc root)) → ET_parse p fr = (fr, Return root).
Proof. intros Hp. unfold ET_parse, bind, get_world. by rewrite Hp. Qed.

End Recognised.



